(** * droidcam-sentry: the recorder state machine and the fleet manager

    A shallow embedding of [backend/internal/recorder] (the pre-event ring
    buffer and the recording state machine of [VideoRecorder]) and of
    [Manager.StopCamera] from [backend/internal/surveillance], followed by
    the properties stated about them.

    Conventions of the embedding:
    - a Go [int] is a [Z] kept inside the 64-bit signed range, arithmetic
      wraps ([GoInt]);
    - a [float64] frame rate is a rational [Q]: every finite float64 is one,
      and the recorder only ever applies [int(.)] to it;
    - a method that runs under the recorder's mutex is one atomic function
      from the state before to the state after;
    - what a method asks of the outside world (file system, video writer,
      OpenCV memory, logger, goroutines) is returned as a list of [Effect]s
      in program order; what the outside world answers is an argument;
    - a nil-pointer dereference is the result [Panicked]. *)

From Stdlib Require Import ZArith QArith Qround Lia.
From stdpp Require Import base gmap strings list pretty.

Local Open Scope Z_scope.

(** ** Go's [int] on a 64-bit platform *)

Module GoInt.

Definition min_int : Z := - 2 ^ 63.
Definition max_int : Z := 2 ^ 63 - 1.

Definition in_range (z : Z) : bool := (min_int <=? z) && (z <=? max_int).

(** Two's complement wrap-around of a mathematical result. *)
Definition wrap (z : Z) : Z := (z + 2 ^ 63) mod 2 ^ 64 - 2 ^ 63.

Definition add (a b : Z) : Z := wrap (a + b).
Definition mul (a b : Z) : Z := wrap (a * b).

(** [int(f)] for a float64 [f]: the fraction is discarded (truncation
    toward zero).  For a value outside the range of [int] the language
    leaves the result to the implementation; amd64 yields the smallest
    [int], which is what is written here. *)
Definition of_float64 (f : Q) : Z :=
  let t := Z.quot (Qnum f) (Z.pos (Qden f)) in
  if in_range t then t else min_int.

End GoInt.

(** ** Rounding as the specification writes it

    The specification gives the ring capacity as [round(fps x seconds)];
    this is that rounding (to the nearest integer, halves away from zero),
    kept apart from the code's own arithmetic in order to compare them. *)

Definition specRound (q : Q) : Z :=
  if 0 <=? Qnum q then Qfloor (q + (1 # 2)) else Qceiling (q - (1 # 2)).

(** ** Results of calls that may panic *)

Inductive outcome (A : Type) : Type :=
| Returned (a : A)
| Panicked.
Arguments Returned {A} a.
Arguments Panicked {A}.

Definition obind {A B : Type} (m : outcome A) (k : A -> outcome B) : outcome B :=
  match m with
  | Returned a => k a
  | Panicked => Panicked
  end.

Notation "x <-! m ; k" := (obind m (fun x => k))
  (at level 100, m at next level, right associativity).

(** ** [container/ring]

    A [*ring.Ring] is seen through the values met when walking [Next] from
    the element pointed at; that list is the model.  The nil pointer is the
    empty list (a non-nil ring has at least one element).  A slot holds an
    [interface{}]: [None] is the nil interface. *)

Module ring.
Section Ring.
Context {A : Type}.

Definition Ring : Type := list (option A).

(** [ring.New(n)]: nil when [n <= 0], otherwise [n] slots holding nil. *)
Definition New (n : Z) : Ring :=
  if n <=? 0 then [] else replicate (Z.to_nat n) None.

Definition Len (r : Ring) : nat := length r.

(** [r.Value] read through the pointer. *)
Definition Value (r : Ring) : outcome (option A) :=
  match r with
  | [] => Panicked
  | v :: _ => Returned v
  end.

(** [r.Value = v]. *)
Definition SetValue (v : option A) (r : Ring) : outcome Ring :=
  match r with
  | [] => Panicked
  | _ :: rest => Returned (v :: rest)
  end.

(** [r.Next()]: the pointer moves one element on, so the element left
    behind becomes the last one met. *)
Definition Next (r : Ring) : outcome Ring :=
  match r with
  | [] => Panicked
  | v :: rest => Returned (rest ++ [v])
  end.

(** [r.Do(f)]: calls [f] on every value in forward order, starting at the
    pointer; does nothing on the nil ring.  The closure's captured
    variables are the threaded state [s]. *)
Definition Do {S : Type} (f : S -> option A -> S) (r : Ring) (s : S) : S :=
  fold_left f r s.

End Ring.
Arguments Ring A : clear implicits.
End ring.

(** ** The libraries the recorder is compiled against

    [gocv.Mat] is opaque to the recorder, which only observes [Empty],
    [Cols] and [Rows]; [filepath.Join] builds the file name.  A [Mat] value
    of the model stands for the image content, so [Clone] is the identity
    on it. *)

Class Platform (Mat : Type) : Type := {
  Empty : Mat -> bool;
  Cols : Mat -> Z;
  Rows : Mat -> Z;
  filepath_Join : string -> string -> string
}.

Definition Clone {Mat : Type} (m : Mat) : Mat := m.

(** ** [package recorder] *)

Module recorder.

(** A [*gocv.VideoWriter] as returned by [gocv.VideoWriterFile]. *)
Record VideoWriter : Type := {
  vw_name : string;
  vw_fps : Q;
  vw_width : Z;
  vw_height : Z
}.

(** The errors [StartRecording] builds with [fmt.Errorf]. *)
Inductive error : Type :=
| ErrCreateOutputDir   (* "failed to create output dir: ..." *)
| ErrNoValidFrames     (* "no valid frames in pre-buffer" *)
| ErrOpenVideoWriter   (* "failed to open video writer: ..." *)
| ErrWriterNotOpened.  (* "video writer not opened" *)

(** The three [log.Printf] lines of the state machine. *)
Inductive LogLine : Type :=
| LogStarted (file : string)
| LogWrotePreBuffered (frameCount : Z)
| LogStopped (recordingStart : Z) (file : string).

Section Recorder.
Context {Mat : Type} `{Platform Mat}.

Inductive Effect : Type :=
| MkdirAll (path : string)
| VideoWriterFile (w : VideoWriter)
| WriterWrite (w : VideoWriter) (m : Mat) (failed : bool)
| WriterClose (w : VideoWriter)
| MatClose (m : Mat)
| LogPrintf (l : LogLine)
| GoConvertAVItoMP4 (aviFile : string).

Record VideoRecorder : Type := {
  Name : string;
  OutputPath : string;
  FPS : Q;
  PreBufferSeconds : Z;
  PostBufferSeconds : Z;
  writer : option VideoWriter;
  preBuffer : ring.Ring Mat;
  isRecording : bool;
  recordingStart : Z;
  framesSinceMotion : Z;
  currentFile : string
}.

Definition with_preBuffer (rb : ring.Ring Mat) (r : VideoRecorder) : VideoRecorder :=
  {| Name := Name r; OutputPath := OutputPath r; FPS := FPS r;
     PreBufferSeconds := PreBufferSeconds r;
     PostBufferSeconds := PostBufferSeconds r;
     writer := writer r; preBuffer := rb; isRecording := isRecording r;
     recordingStart := recordingStart r;
     framesSinceMotion := framesSinceMotion r;
     currentFile := currentFile r |}.

Definition with_currentFile (f : string) (r : VideoRecorder) : VideoRecorder :=
  {| Name := Name r; OutputPath := OutputPath r; FPS := FPS r;
     PreBufferSeconds := PreBufferSeconds r;
     PostBufferSeconds := PostBufferSeconds r;
     writer := writer r; preBuffer := preBuffer r;
     isRecording := isRecording r;
     recordingStart := recordingStart r;
     framesSinceMotion := framesSinceMotion r;
     currentFile := f |}.

Definition with_framesSinceMotion (n : Z) (r : VideoRecorder) : VideoRecorder :=
  {| Name := Name r; OutputPath := OutputPath r; FPS := FPS r;
     PreBufferSeconds := PreBufferSeconds r;
     PostBufferSeconds := PostBufferSeconds r;
     writer := writer r; preBuffer := preBuffer r;
     isRecording := isRecording r;
     recordingStart := recordingStart r;
     framesSinceMotion := n;
     currentFile := currentFile r |}.

(** The four assignments of [StartRecording] after the writer opened. *)
Definition with_session (w : VideoWriter) (start : Z) (r : VideoRecorder) : VideoRecorder :=
  {| Name := Name r; OutputPath := OutputPath r; FPS := FPS r;
     PreBufferSeconds := PreBufferSeconds r;
     PostBufferSeconds := PostBufferSeconds r;
     writer := Some w; preBuffer := preBuffer r;
     isRecording := true;
     recordingStart := start;
     framesSinceMotion := 0;
     currentFile := currentFile r |}.

(** [r.writer = nil] and [r.isRecording = false] of [stopRecording]. *)
Definition with_stopped (r : VideoRecorder) : VideoRecorder :=
  {| Name := Name r; OutputPath := OutputPath r; FPS := FPS r;
     PreBufferSeconds := PreBufferSeconds r;
     PostBufferSeconds := PostBufferSeconds r;
     writer := None; preBuffer := preBuffer r;
     isRecording := false;
     recordingStart := recordingStart r;
     framesSinceMotion := framesSinceMotion r;
     currentFile := currentFile r |}.

Definition NewRecorder (name outputPath : string) (fps : Q)
    (preBuffer postBuffer : Z) : VideoRecorder :=
  let bufferSize := GoInt.mul (GoInt.of_float64 fps) preBuffer in
  let preBufferRing := ring.New bufferSize in
  {| Name := name; OutputPath := outputPath; FPS := fps;
     PreBufferSeconds := preBuffer;
     PostBufferSeconds := postBuffer;
     writer := None; preBuffer := preBufferRing;
     isRecording := false;
     recordingStart := 0;
     framesSinceMotion := 0;
     currentFile := "" |}.

(** [AddFrame].  [writeFailed] is what [r.writer.Write(frame)] answers
    when it is called; the source drops that answer. *)
Definition AddFrame (frame : Mat) (writeFailed : bool) (r : VideoRecorder)
    : outcome (VideoRecorder * list Effect) :=
  old <-! ring.Value (preBuffer r);
  let released :=
    match old with
    | Some oldMat => if negb (Empty oldMat) then [MatClose oldMat] else []
    | None => []
    end in
  stored <-! ring.SetValue (Some (Clone frame)) (preBuffer r);
  advanced <-! ring.Next stored;
  let r' := with_preBuffer advanced r in
  let written :=
    match writer r' with
    | Some w =>
        if isRecording r' && negb (Empty frame)
        then [WriterWrite w frame writeFailed] else []
    | None => []
    end in
  Returned (r', released ++ written).

(** What the operating system, the clock and OpenCV answer during one
    call of [StartRecording]. *)
Inductive OpenResult : Type :=
| OpenFailed       (* VideoWriterFile returned an error *)
| OpenedNotReady   (* no error, but IsOpened() is false *)
| Opened.

Record StartEnv : Type := {
  mkdirAllFails : bool;
  timestamp : string;            (* time.Now().Format("20060102_150405") *)
  openResult : OpenResult;
  startTime : Z;                 (* the second time.Now() *)
  preWriteFails : Z -> bool      (* answer to the write numbered frameCount *)
}.

(** The closure of the first [Do]: dimensions of the first valid frame. *)
Definition probeDims (wh : Z * Z) (val : option Mat) : Z * Z :=
  match val with
  | Some mat =>
      if negb (Empty mat) && (fst wh =? 0) then (Cols mat, Rows mat) else wh
  | None => wh
  end.

(** The closure of the second [Do]: write every non-empty buffered frame. *)
Definition writeBuffered (w : VideoWriter) (env : StartEnv)
    (st : Z * list Effect) (val : option Mat) : Z * list Effect :=
  match val with
  | Some mat =>
      if negb (Empty mat)
      then (GoInt.add (fst st) 1,
            snd st ++ [WriterWrite w mat (preWriteFails env (fst st))])
      else st
  | None => st
  end.

Definition StartRecording (env : StartEnv) (r : VideoRecorder)
    : VideoRecorder * list Effect * option error :=
  if isRecording r then (r, [], None)
  else if mkdirAllFails env
  then (r, [MkdirAll (OutputPath r)], Some ErrCreateOutputDir)
  else
    let filename :=
      filepath_Join (OutputPath r) (Name r +:+ "_" +:+ timestamp env +:+ ".avi") in
    let r1 := with_currentFile filename r in
    let '(width, height) := ring.Do probeDims (preBuffer r1) (0, 0) in
    if (width =? 0) || (height =? 0)
    then (r1, [MkdirAll (OutputPath r)], Some ErrNoValidFrames)
    else
      let w := {| vw_name := filename; vw_fps := FPS r1;
                  vw_width := width; vw_height := height |} in
      let opening := [MkdirAll (OutputPath r); VideoWriterFile w] in
      match openResult env with
      | OpenFailed => (r1, opening, Some ErrOpenVideoWriter)
      | OpenedNotReady => (r1, opening, Some ErrWriterNotOpened)
      | Opened =>
          let r2 := with_session w (startTime env) r1 in
          let '(frameCount, writes) :=
            ring.Do (writeBuffered w env) (preBuffer r2) (0, []) in
          (r2,
           opening ++ [LogPrintf (LogStarted filename)] ++ writes
             ++ [LogPrintf (LogWrotePreBuffered frameCount)],
           None)
      end.

Definition OnMotion (r : VideoRecorder) : VideoRecorder :=
  with_framesSinceMotion 0 r.

Definition stopRecording (r : VideoRecorder) : VideoRecorder * list Effect :=
  let closing :=
    match writer r with
    | Some w => [WriterClose w]
    | None => []
    end in
  let logged := [LogPrintf (LogStopped (recordingStart r) (currentFile r))] in
  let r' := with_stopped r in
  let converting :=
    if negb (String.eqb (currentFile r') "")
    then [GoConvertAVItoMP4 (currentFile r')] else [] in
  (r', closing ++ logged ++ converting).

Definition Update (r : VideoRecorder) : VideoRecorder * list Effect * bool :=
  if negb (isRecording r) then (r, [], false)
  else
    let r1 := with_framesSinceMotion (GoInt.add (framesSinceMotion r) 1) r in
    let maxFrames := GoInt.mul (GoInt.of_float64 (FPS r1)) (PostBufferSeconds r1) in
    if maxFrames <=? framesSinceMotion r1
    then let '(r2, eff) := stopRecording r1 in (r2, eff, true)
    else (r1, [], false).

Definition Stop (r : VideoRecorder) : VideoRecorder * list Effect :=
  stopRecording r.

Definition IsRecording (r : VideoRecorder) : bool := isRecording r.

(** The closure of [Close]: release every non-empty buffered frame. *)
Definition closeBuffered (eff : list Effect) (val : option Mat) : list Effect :=
  match val with
  | Some mat => if negb (Empty mat) then eff ++ [MatClose mat] else eff
  | None => eff
  end.

Definition Close (r : VideoRecorder) : VideoRecorder * list Effect :=
  let '(r1, eff) := Stop r in
  (r1, ring.Do closeBuffered (preBuffer r1) eff).

End Recorder.
Arguments Effect Mat : clear implicits.
Arguments VideoRecorder Mat : clear implicits.
End recorder.

(** ** The recorder seen from its callers *)

Module api.
Section Api.
Context {Mat : Type} `{Platform Mat}.
Import recorder.

(** One call of an exported method, with what the world answers to it. *)
Inductive Call : Type :=
| CallAddFrame (frame : Mat) (writeFailed : bool)
| CallStartRecording (env : StartEnv)
| CallOnMotion
| CallUpdate
| CallStop
| CallClose.

Definition step (c : Call) (r : VideoRecorder Mat)
    : outcome (VideoRecorder Mat * list (Effect Mat)) :=
  match c with
  | CallAddFrame frame writeFailed => AddFrame frame writeFailed r
  | CallStartRecording env =>
      let '(r', eff, _) := StartRecording env r in Returned (r', eff)
  | CallOnMotion => Returned (OnMotion r, [])
  | CallUpdate => let '(r', eff, _) := Update r in Returned (r', eff)
  | CallStop => Returned (Stop r)
  | CallClose => Returned (Close r)
  end.

(** A sequence of calls, effects concatenated in program order. *)
Fixpoint run (cs : list Call) (r : VideoRecorder Mat)
    : outcome (VideoRecorder Mat * list (Effect Mat)) :=
  match cs with
  | [] => Returned (r, [])
  | c :: rest =>
      p <-! step c r;
      q <-! run rest (fst p);
      Returned (fst q, snd p ++ snd q)
  end.

(** Feeding frames to an idle recorder, as the monitor loop does on every
    tick before motion is seen. *)
Definition addFrames (frames : list Mat) (r : VideoRecorder Mat)
    : outcome (VideoRecorder Mat * list (Effect Mat)) :=
  run (map (fun f => CallAddFrame f false) frames) r.

Definition nonEmpty (m : Mat) : bool := negb (Empty m).

(** The threshold [Update] compares the counter with. *)
Definition maxFrames (r : VideoRecorder Mat) : Z :=
  GoInt.mul (GoInt.of_float64 (FPS r)) (PostBufferSeconds r).

(** The frames handed to the sink by a list of effects, in order. *)
Definition sinkFrames (eff : list (Effect Mat)) : list Mat :=
  omap (fun e => match e with WriterWrite _ m _ => Some m | _ => None end) eff.

Definition isLog (e : Effect Mat) : bool :=
  match e with LogPrintf _ => true | _ => false end.

Definition isWriterClose (e : Effect Mat) : bool :=
  match e with WriterClose _ => true | _ => false end.

(** The two calls the monitor loop makes on every tick once recording. *)
Inductive Tick : Type := TickUpdate | TickOnMotion.

Definition tick (t : Tick) (r : VideoRecorder Mat) : VideoRecorder Mat * list (Effect Mat) :=
  match t with
  | TickUpdate => let '(r', eff, _) := Update r in (r', eff)
  | TickOnMotion => (OnMotion r, [])
  end.

(** The recorder and the effects after the first [n] calls of an endless
    schedule [sched 0, sched 1, ...]. *)
Fixpoint after (sched : nat -> Tick) (n : nat) (r : VideoRecorder Mat)
    : VideoRecorder Mat * list (Effect Mat) :=
  match n with
  | O => (r, [])
  | S k =>
      let '(r1, e1) := after sched k r in
      let '(r2, e2) := tick (sched k) r1 in
      (r2, e1 ++ e2)
  end.

(** [n] calls of [Update] in a row: the final recorder, all effects, and
    the value each call returned. *)
Fixpoint updates (n : nat) (r : VideoRecorder Mat)
    : VideoRecorder Mat * list (Effect Mat) * list bool :=
  match n with
  | O => (r, [], [])
  | S k =>
      let '(r1, e1, bs) := updates k r in
      let '(r2, e2, b) := Update r1 in
      (r2, e1 ++ e2, bs ++ [b])
  end.

End Api.
End api.

(** ** [package camera] and [package motion]: what [stopMonitor] touches *)

Module camera.

Record Stream : Type := {
  Name : string;
  URL : string;
  capture : bool;      (* s.capture != nil *)
  isOpen : bool;
  frameCount : Z
}.

Inductive Effect : Type :=
| CaptureClose (name : string)
| LogStreamClosed (name : string) (frames : Z).

(** [Stream.Close]; [s.frame] stays the empty Mat of [NewStream], so the
    guarded [s.frame.Close()] never runs. *)
Definition Close (s : Stream) : Stream * list Effect :=
  let released := if capture s then [CaptureClose (Name s)] else [] in
  ({| Name := Name s; URL := URL s; capture := false; isOpen := false;
      frameCount := frameCount s |},
   released ++ [LogStreamClosed (Name s) (frameCount s)]).

End camera.

Module motion.

Record Detector : Type := {
  Name : string;
  Threshold : Q;
  MinArea : Z
}.

Inductive Effect : Type :=
| Mog2Close (name : string).

Definition Close (d : Detector) : list Effect := [Mog2Close (Name d)].

End motion.

(** ** [package surveillance]: the registry and [StopCamera]

    [Manager.monitors] maps a camera name to a pointer; the monitor loop
    goroutine holds the same pointer.  The model keeps the pointers: a
    registry from names to locations and a store from locations to
    monitors, so that what [stopMonitor] writes stays visible to the loop
    after the registry entry is gone. *)

Module surveillance.
Section Surveillance.
Context {Mat : Type} `{Platform Mat}.

Record CameraMonitor : Type := {
  Name : string;
  Enabled : bool;
  MotionDetectEnabled : bool;
  stream : option camera.Stream;
  detector : option motion.Detector;
  recorder : option (recorder.VideoRecorder Mat);
  stopChanClosed : bool;     (* close(stopChan) has happened *)
  running : bool;
  subscribers : list nat
}.

Inductive error : Type :=
| ErrNotFound (cameraName : string)     (* "camera %s not found" *)
| ErrNotRunning (cameraName : string).  (* "camera %s is not running" *)

Inductive Effect : Type :=
| ChanClose (cameraName : string)
| StreamEffect (e : camera.Effect)
| DetectorEffect (e : motion.Effect)
| RecorderEffect (e : recorder.Effect Mat)
| LogCameraStopped (cameraName : string).

(** A pointer to a monitor. *)
Abbreviation loc := positive.

Record Manager : Type := {
  monitors : gmap string loc;
  store : gmap loc CameraMonitor
}.

Definition stopMonitor (monitor : CameraMonitor)
    : outcome (CameraMonitor * list Effect) :=
  if negb (running monitor) then Returned (monitor, [])
  else if stopChanClosed monitor then Panicked   (* close of closed channel *)
  else
    let '(stream', e1) :=
      match stream monitor with
      | Some s => let '(s', e) := camera.Close s in (Some s', map StreamEffect e)
      | None => (None, [])
      end in
    let e2 :=
      match detector monitor with
      | Some d => map DetectorEffect (motion.Close d)
      | None => []
      end in
    let '(recorder', e3) :=
      match recorder monitor with
      | Some rec => let '(rec', e) := recorder.Close rec in (Some rec', map RecorderEffect e)
      | None => (None, [])
      end in
    Returned
      ({| Name := Name monitor; Enabled := Enabled monitor;
          MotionDetectEnabled := MotionDetectEnabled monitor;
          stream := stream'; detector := detector monitor;
          recorder := recorder';
          stopChanClosed := true; running := false;
          subscribers := subscribers monitor |},
       [ChanClose (Name monitor)] ++ e1 ++ e2 ++ e3).

Definition StopCamera (cameraName : string) (m : Manager)
    : outcome (Manager * list Effect * option error) :=
  match monitors m !! cameraName with
  | None => Returned (m, [], Some (ErrNotFound cameraName))
  | Some p =>
      match store m !! p with
      | None => Panicked   (* the registry never holds a dangling pointer *)
      | Some monitor =>
          if negb (running monitor)
          then Returned (m, [], Some (ErrNotRunning cameraName))
          else
            s <-! stopMonitor monitor;
            Returned
              ({| monitors := delete cameraName (monitors m);
                  store := <[p := fst s]> (store m) |},
               snd s ++ [LogCameraStopped cameraName],
               None)
      end
  end.

End Surveillance.
Arguments CameraMonitor Mat : clear implicits.
Arguments Effect Mat : clear implicits.
Arguments Manager Mat : clear implicits.
End surveillance.

(** ** A concrete platform, for running the model on examples *)

Module testbed.

(** A test image: its size and a tag standing for the pixels. *)
Record Img : Type := { img_cols : Z; img_rows : Z; img_tag : nat }.

#[export] Instance img_platform : Platform Img := {|
  Empty := fun m => (img_cols m =? 0) || (img_rows m =? 0);
  Cols := img_cols;
  Rows := img_rows;
  filepath_Join := fun dir file => dir +:+ "/" +:+ file
|}.

Definition frame (tag : nat) : Img :=
  {| img_cols := 640; img_rows := 480; img_tag := tag |}.

(** [gocv.NewMat()]: the empty matrix. *)
Definition emptyMat : Img :=
  {| img_cols := 0; img_rows := 0; img_tag := 0 |}.

Definition calmEnv : recorder.StartEnv :=
  {| recorder.mkdirAllFails := false;
     recorder.timestamp := "20240102_030405";
     recorder.openResult := recorder.Opened;
     recorder.startTime := 1000;
     recorder.preWriteFails := fun _ => false |}.

Definition fresh (fps : Q) (pre post : Z) : recorder.VideoRecorder Img :=
  recorder.NewRecorder "cam" "out" fps pre post.

(** The recorder after the given frames were added (unchanged if a call
    panicked). *)
Definition fed (frames : list Img) (r : recorder.VideoRecorder Img)
    : recorder.VideoRecorder Img :=
  match api.addFrames frames r with
  | Returned p => fst p
  | Panicked => r
  end.

Definition started (r : recorder.VideoRecorder Img) : recorder.VideoRecorder Img :=
  fst (fst (recorder.StartRecording calmEnv r)).

(** 30 fps, one second of pre-buffer, two of post-roll, one frame seen. *)
Definition armed : recorder.VideoRecorder Img := fed [frame 1] (fresh 30 1 2).

(** 2.5 fps, one second of pre-buffer, two of post-roll, one frame seen. *)
Definition slow : recorder.VideoRecorder Img := fed [frame 1] (fresh (5 # 2) 1 2).

(** Motion on every other tick. *)
Definition alternating (i : nat) : api.Tick :=
  if Nat.even i then api.TickUpdate else api.TickOnMotion.

(** Four quiet ticks, then motion on every tick. *)
Definition fourQuiet (i : nat) : api.Tick :=
  if (i <? 4)%nat then api.TickUpdate else api.TickOnMotion.

Definition monitorOf (name : string) (isRunning : bool)
    : surveillance.CameraMonitor Img :=
  {| surveillance.Name := name;
     surveillance.Enabled := true;
     surveillance.MotionDetectEnabled := true;
     surveillance.stream :=
       Some {| camera.Name := name; camera.URL := "http://cam/video";
               camera.capture := isRunning; camera.isOpen := isRunning;
               camera.frameCount := 7 |};
     surveillance.detector :=
       Some {| motion.Name := name; motion.Threshold := 25; motion.MinArea := 500 |};
     surveillance.recorder := Some (recorder.NewRecorder name "out" 30 5 10);
     surveillance.stopChanClosed := negb isRunning;
     surveillance.running := isRunning;
     surveillance.subscribers := [] |}.

(** A registry with a running camera and one that [Manager.Stop] has
    stopped and left registered. *)
Definition fleet : surveillance.Manager Img :=
  {| surveillance.monitors := <["garage" := 1%positive]> (<["porch" := 2%positive]> ∅);
     surveillance.store :=
       <[1%positive := monitorOf "garage" true]>
         (<[2%positive := monitorOf "porch" false]> ∅) |}.

End testbed.

(** ** Reading a list of effects

    Projections of an effect list onto the frames released, the sessions
    started and ended, and the same for the frames a ring holds. *)

Module trace.
Section Trace.
Context {Mat : Type} `{Platform Mat}.
Import recorder api.

(** The frames released with [Mat.Close], in order. *)
Definition releasedFrames (eff : list (Effect Mat)) : list Mat :=
  omap (fun e => match e with MatClose m => Some m | _ => None end) eff.

(** The non-empty frames a ring holds, in walking order: the ones [Close]
    and [AddFrame] release and [StartRecording] writes. *)
Definition heldFrames (rb : ring.Ring Mat) : list Mat :=
  List.filter nonEmpty (omap id rb).

Definition isStarted (e : Effect Mat) : bool :=
  match e with LogPrintf (LogStarted _) => true | _ => false end.

Definition isWrite (e : Effect Mat) : bool :=
  match e with WriterWrite _ _ _ => true | _ => false end.

(** The writers the effects wrote to, one entry per write. *)
Definition writeTargets (eff : list (Effect Mat)) : list VideoWriter :=
  omap (fun e => match e with WriterWrite w _ _ => Some w | _ => None end) eff.

(** What every recorder built by [NewRecorder] satisfies: a writer is held
    exactly while recording, and the post-roll counter is a non-negative
    [int] that, while recording, is below the threshold (or below 1 when
    the threshold is not positive). *)
Definition consistent (r : VideoRecorder Mat) : Prop :=
  (isRecording r = true <-> writer r <> None)
  /\ 0 <= framesSinceMotion r <= GoInt.max_int
  /\ (isRecording r = true -> framesSinceMotion r < Z.max 1 (maxFrames r)).

(** Calls of [AddFrame], each with the answer of the sink. *)
Definition addFramesWith (fws : list (Mat * bool)) (r : VideoRecorder Mat)
    : outcome (VideoRecorder Mat * list (Effect Mat)) :=
  run (map (fun p => CallAddFrame (fst p) (snd p)) fws) r.

End Trace.
End trace.

(** ** [package strings]: the four functions the repository calls

    A Go string is a sequence of bytes, like [string] here; [s[i:j]] is
    [String.substring i (j - i) s]. *)

Module gostrings.

Definition HasPrefix (s prefix : string) : bool :=
  (String.length prefix <=? String.length s)%nat
  && String.eqb (String.substring 0 (String.length prefix) s) prefix.

Definition HasSuffix (s suffix : string) : bool :=
  (String.length suffix <=? String.length s)%nat
  && String.eqb
       (String.substring (String.length s - String.length suffix)
          (String.length suffix) s)
       suffix.

Definition TrimPrefix (s prefix : string) : string :=
  if HasPrefix s prefix
  then String.substring (String.length prefix)
         (String.length s - String.length prefix) s
  else s.

Definition TrimSuffix (s suffix : string) : string :=
  if HasSuffix s suffix
  then String.substring 0 (String.length s - String.length suffix) s
  else s.

End gostrings.

(** ** [VideoRecorder.convertAVItoMP4]

    The goroutine [stopRecording] starts for a closed file.  The recorder
    itself is only read for its name (in the log lines), so the function
    takes the name.  [Base] is [filepath.Base], which only the log lines
    use; [ffmpegFails] and [removeFails] are what [cmd.CombinedOutput]
    and [os.Remove] answer. *)

Module conversion.

Inductive Effect : Type :=
| LogConverting (name aviBase : string)      (* "Converting %s to MP4..." *)
| ExecCommand (program : string) (args : list string)
| LogFfmpegFailed (name : string)            (* "FFmpeg conversion failed: ..." *)
| LogConverted (name mp4Base : string)       (* "Successfully converted to %s" *)
| OsRemove (path : string) (failed : bool)   (* the call and its answer *)
| LogDeleteFailed (name : string)            (* "Warning: failed to delete AVI file" *)
| LogDeleted (name : string).                (* "Deleted original AVI file" *)

Inductive error : Type :=
| ErrFfmpeg.   (* "ffmpeg conversion failed: ..." *)

Record Env : Type := { ffmpegFails : bool; removeFails : bool }.

Definition mp4PathOf (aviPath : string) : string :=
  gostrings.TrimSuffix aviPath ".avi" +:+ ".mp4".

Definition convertAVItoMP4 (Base : string -> string) (name aviPath : string)
    (env : Env) : list Effect * option error :=
  let mp4Path := mp4PathOf aviPath in
  let cmd :=
    ExecCommand "ffmpeg"
      ["-i"; aviPath; "-c:v"; "libx264"; "-preset"; "fast"; "-crf"; "23";
       "-c:a"; "aac"; "-y"; mp4Path] in
  if ffmpegFails env
  then ([LogConverting name (Base aviPath); cmd; LogFfmpegFailed name],
        Some ErrFfmpeg)
  else
    ([LogConverting name (Base aviPath); cmd; LogConverted name (Base mp4Path);
      OsRemove aviPath (removeFails env);
      if removeFails env then LogDeleteFailed name else LogDeleted name],
     None).

(** The file a run of the conversion tells ffmpeg to write. *)
Definition written (eff : list Effect) : list string :=
  omap (fun e => match e with
                 | ExecCommand _ args => last args
                 | _ => None
                 end) eff.

(** The paths [os.Remove] was called on, whatever it answered. *)
Definition removeCalls (eff : list Effect) : list string :=
  omap (fun e => match e with OsRemove p _ => Some p | _ => None end) eff.

(** The files that were deleted: the calls of [os.Remove] that did not
    fail. *)
Definition deleted (eff : list Effect) : list string :=
  omap (fun e => match e with OsRemove p false => Some p | _ => None end) eff.

(** The warnings about a file that could not be deleted. *)
Definition isDeleteWarning (e : Effect) : bool :=
  match e with LogDeleteFailed _ => true | _ => false end.

End conversion.

(** ** [package motion]: [Detector.Detect]

    A [time.Time] is the number of nanoseconds since the zero Time, a
    [time.Duration] an [int] of nanoseconds; [Time.Sub] saturates at the
    ends of that range.  What OpenCV computes from the frame (background
    subtraction, dilation, contour search) arrives as the list of contour
    areas; the temporary mask and kernel are created and closed inside
    the call and are not traced. *)

Module detector.
Section Detector.
Context {Mat : Type} `{Platform Mat}.

Definition Sub (t u : Z) : Z :=
  Z.max GoInt.min_int (Z.min GoInt.max_int (t - u)).

(** The nearest integer with 53 significant bits, ties to the even one:
    what the conversion of an [int] to [float64] keeps of it.  Exact up
    to 2^53 in absolute value. *)
Definition round53 (n : Z) : Z :=
  let a := Z.abs n in
  if a <? 2 ^ 53 then n
  else
    let e := Z.log2 a - 52 in
    let q := Z.shiftr a e in
    let r := a - Z.shiftl q e in
    let half := 2 ^ (e - 1) in
    let q' := if (half <? r) || ((r =? half) && Z.odd q) then q + 1 else q in
    Z.sgn n * Z.shiftl q' e.

(** [float64(n)] for an [int]. *)
Definition float64 (n : Z) : Q := inject_Z (round53 n).

(** [mog2] is the state of the background subtractor: the frames it has
    been given, oldest first. *)
Record Detector : Type := {
  Name : string;
  Threshold : Q;
  MinArea : Z;
  mog2 : list Mat;
  detectionInterval : Z;
  lastDetection : Z
}.

Record Detection : Type := {
  Timestamp : Z;
  Area : Z;
  Frame : Mat
}.

Inductive Effect : Type :=
| Mog2Apply (frame : Mat)
| Dilate
| FindContours
| LogMotionDetected (name : string) (area : Z)
| FrameClone (frame : Mat).

Record Env : Type := {
  now : Z;                  (* time.Now() *)
  contourAreas : list Q     (* gocv.ContourArea of each contour found *)
}.

Definition NewDetector (name : string) (threshold : Q) (minArea intervalMs : Z)
    : Detector :=
  {| Name := name; Threshold := threshold; MinArea := minArea;
     mog2 := [];
     detectionInterval := GoInt.mul intervalMs 1000000;
     lastDetection := 0 |}.

(** [area > float64(minArea)], the test of the loop over the contours. *)
Definition isLarge (minArea : Z) (area : Q) : bool :=
  negb (Qle_bool area (float64 minArea)).

(** The body of the loop over the contours. *)
Definition addContour (minArea : Z) (totalArea : Z) (area : Q) : Z :=
  if isLarge minArea area
  then GoInt.add totalArea (GoInt.of_float64 area)
  else totalArea.

(** [d.mog2.Apply(frame, &mask)]: the subtractor takes the frame in. *)
Definition applied (frame : Mat) (d : Detector) : Detector :=
  {| Name := Name d; Threshold := Threshold d; MinArea := MinArea d;
     mog2 := mog2 d ++ [frame];
     detectionInterval := detectionInterval d;
     lastDetection := lastDetection d |}.

Definition Detect (frame : Mat) (env : Env) (d : Detector)
    : Detector * list Effect * option Detection * bool :=
  if Sub (now env) (lastDetection d) <? detectionInterval d
  then (d, [], None, false)
  else
    let d1 := applied frame d in
    let totalArea := fold_left (addContour (MinArea d1)) (contourAreas env) 0 in
    let work := [Mog2Apply frame; Dilate; FindContours] in
    if GoInt.of_float64 (Threshold d1) <? totalArea
    then
      ({| Name := Name d1; Threshold := Threshold d1; MinArea := MinArea d1;
          mog2 := mog2 d1;
          detectionInterval := detectionInterval d1;
          lastDetection := now env |},
       work ++ [LogMotionDetected (Name d1) totalArea; FrameClone frame],
       Some {| Timestamp := now env; Area := totalArea; Frame := Clone frame |},
       true)
    else (d1, work, None, false).

End Detector.
Arguments Detector Mat : clear implicits.
Arguments Detection Mat : clear implicits.
Arguments Effect Mat : clear implicits.
End detector.

(** ** [package health]: [Checker.Check]

    The answers of [url.Parse], [net.SplitHostPort], [net.DialTimeout] and
    the HTTP client are arguments; [%v] of an error is its message. *)

Module health.

Record CheckResult : Type := {
  HostReachable : bool;
  HostError : string;
  URLAccessible : bool;
  URLError : string;
  ResponseTime : Z;
  LastChecked : string
}.

Inductive ParseAnswer : Type :=
| ParseError (msg : string)
| ParsedURL (host : string).

Inductive DialAnswer : Type :=
| DialError (msg : string)
| Connected.

Inductive HTTPAnswer : Type :=
| NewRequestError (msg : string)
| DoError (msg : string)
| Response (statusCode : Z).

Record Env : Type := {
  nowRFC3339 : string;          (* time.Now().Format(time.RFC3339) *)
  parse : ParseAnswer;
  splitHostPortFails : bool;
  dial : DialAnswer;
  http : HTTPAnswer;
  elapsedMs : Z                 (* time.Since(start).Milliseconds() *)
}.

Inductive Effect : Type :=
| DialTimeout (network address : string)
| ConnClose
| ClientDo (url : string)
| BodyClose.

Fixpoint hasColon (s : string) : bool :=
  match s with
  | EmptyString => false
  | String c rest => Ascii.eqb c (Ascii.ascii_of_nat 58) || hasColon rest   (* 58 is the colon *)
  end.

(** [net.JoinHostPort]: a host with a colon in it is bracketed. *)
Definition JoinHostPort (host port : string) : string :=
  if hasColon host then "[" +:+ host +:+ "]:" +:+ port
  else host +:+ ":" +:+ port.

Definition tcpPing (host : string) (env : Env) : bool * string * list Effect :=
  let host := if splitHostPortFails env then JoinHostPort host "80" else host in
  match dial env with
  | DialError msg =>
      (false, "TCP connection failed: " +:+ msg, [DialTimeout "tcp" host])
  | Connected => (true, "", [DialTimeout "tcp" host; ConnClose])
  end.

Definition httpCheck (urlStr : string) (env : Env) : bool * string * list Effect :=
  match http env with
  | NewRequestError msg => (false, "Request creation failed: " +:+ msg, [])
  | DoError msg => (false, "HTTP request failed: " +:+ msg, [ClientDo urlStr])
  | Response statusCode =>
      if (200 <=? statusCode) && (statusCode <? 400)
      then (true, "", [ClientDo urlStr; BodyClose])
      else (false, "HTTP " +:+ pretty statusCode, [ClientDo urlStr; BodyClose])
  end.

Definition Check (cameraURL : string) (env : Env) : CheckResult * list Effect :=
  match parse env with
  | ParseError msg =>
      ({| HostReachable := false; HostError := "Invalid URL: " +:+ msg;
          URLAccessible := false; URLError := "Invalid URL: " +:+ msg;
          ResponseTime := 0; LastChecked := nowRFC3339 env |}, [])
  | ParsedURL host =>
      let '(reachable, hostError, e1) := tcpPing host env in
      if reachable
      then
        let '(accessible, urlError, e2) := httpCheck cameraURL env in
        ({| HostReachable := reachable; HostError := hostError;
            URLAccessible := accessible; URLError := urlError;
            ResponseTime := elapsedMs env; LastChecked := nowRFC3339 env |},
         e1 ++ e2)
      else
        ({| HostReachable := reachable; HostError := hostError;
            URLAccessible := false; URLError := "Host unreachable";
            ResponseTime := 0; LastChecked := nowRFC3339 env |}, e1)
  end.

End health.

(** ** [package camera]: opening and reading a [Stream]

    The remaining methods of [Stream], on the record [stopMonitor] already
    uses.  [lastError] is only ever assigned, never read, and has no field;
    a failed [ReadFrame] returns [gocv.NewMat()] beside its error, which the
    caller drops: the model returns the error alone. *)

Module stream.
Section Stream.
Context {Mat : Type} `{Platform Mat}.

Inductive error : Type :=
| ErrOpenStream     (* "failed to open stream: ..." *)
| ErrNotReady       (* "stream opened but not ready" *)
| ErrNotOpen        (* "stream not open" *)
| ErrReadFrame      (* "failed to read frame" *)
| ErrEmptyFrame.    (* "empty frame" *)

Inductive Effect : Type :=
| Closing (e : camera.Effect)
| LogOpening (name url : string)
| OpenVideoCapture (url : string)
| DiscardCapture (name : string)      (* capture.Close() of a capture not ready *)
| LogOpened (name : string)
| CaptureRead (name : string)
| LogReconnecting (name : string)
| Sleep (seconds : Z).

(** What [gocv.OpenVideoCapture] and [capture.IsOpened] answer. *)
Inductive OpenAnswer : Type :=
| OpenError
| OpenedUnready
| OpenedReady.

(** What [capture.Read] answers: failure, or the frame it filled in. *)
Inductive ReadAnswer : Type :=
| ReadFailed
| ReadFilled (frame : Mat).

Definition NewStream (name url : string) : camera.Stream :=
  {| camera.Name := name; camera.URL := url; camera.capture := false;
     camera.isOpen := false; camera.frameCount := 0 |}.

Definition Open (ans : OpenAnswer) (s : camera.Stream)
    : camera.Stream * list Effect * option error :=
  let asking :=
    [LogOpening (camera.Name s) (camera.URL s); OpenVideoCapture (camera.URL s)] in
  match ans with
  | OpenError => (s, asking, Some ErrOpenStream)
  | OpenedUnready =>
      (s, asking ++ [DiscardCapture (camera.Name s)], Some ErrNotReady)
  | OpenedReady =>
      ({| camera.Name := camera.Name s; camera.URL := camera.URL s;
          camera.capture := true; camera.isOpen := true;
          camera.frameCount := camera.frameCount s |},
       asking ++ [LogOpened (camera.Name s)], None)
  end.

Definition ReadFrame (ans : ReadAnswer) (s : camera.Stream)
    : camera.Stream * (Mat + error) * list Effect :=
  if negb (camera.isOpen s) || negb (camera.capture s)
  then (s, inr ErrNotOpen, [])
  else
    match ans with
    | ReadFailed => (s, inr ErrReadFrame, [CaptureRead (camera.Name s)])
    | ReadFilled tempFrame =>
        if Empty tempFrame
        then (s, inr ErrEmptyFrame, [CaptureRead (camera.Name s)])
        else
          ({| camera.Name := camera.Name s; camera.URL := camera.URL s;
              camera.capture := camera.capture s;
              camera.isOpen := camera.isOpen s;
              camera.frameCount := GoInt.add (camera.frameCount s) 1 |},
           inl (Clone tempFrame), [CaptureRead (camera.Name s)])
    end.

Definition IsOpen (s : camera.Stream) : bool := camera.isOpen s.

Definition Reconnect (ans : OpenAnswer) (s : camera.Stream)
    : camera.Stream * list Effect * option error :=
  let '(s1, e1) := camera.Close s in
  let '(s2, e2, err) := Open ans s1 in
  (s2, [LogReconnecting (camera.Name s)] ++ map Closing e1 ++ [Sleep 2] ++ e2, err).

(** The captures an effect list closes. *)
Definition capturesClosed (eff : list Effect) : nat :=
  length (List.filter
            (fun e => match e with
                      | Closing (camera.CaptureClose _) => true
                      | _ => false
                      end) eff).

End Stream.
Arguments ReadAnswer Mat : clear implicits.
End stream.

(** ** [package config]: the data and [setDefaults] *)

Module config.

Record ServerConfig : Type := { Host : string; Port : Z }.

Record RecordingConfig : Type := {
  Path : string;
  Format : string;
  PreBufferSeconds : Z;
  PostBufferSeconds : Z
}.

Record CameraConfig : Type := {
  Name : string;
  Description : string;
  URL : string;
  Enabled : bool;
  MotionThreshold : Q;
  Recording : RecordingConfig
}.

Record MotionConfig : Type := { DetectionIntervalMs : Z; MinArea : Z }.

Record HealthConfig : Type := { CheckIntervalSeconds : Z; TimeoutSeconds : Z }.

Record StorageConfig : Type := { MaxRecordingSizeMB : Z; RetentionDays : Z }.

(** The data of a [Config]; also what [Config.Get] returns. *)
Record Snapshot : Type := {
  Server : ServerConfig;
  Cameras : list CameraConfig;
  Motion : MotionConfig;
  Health : HealthConfig;
  Storage : StorageConfig
}.

Definition with_Health (h : HealthConfig) (c : Snapshot) : Snapshot :=
  {| Server := Server c; Cameras := Cameras c; Motion := Motion c;
     Health := h; Storage := Storage c |}.

Definition setDefaults (c : Snapshot) : Snapshot :=
  let c1 :=
    if CheckIntervalSeconds (Health c) <=? 0
    then with_Health {| CheckIntervalSeconds := 30;
                        TimeoutSeconds := TimeoutSeconds (Health c) |} c
    else c in
  if TimeoutSeconds (Health c1) <=? 0
  then with_Health {| CheckIntervalSeconds := CheckIntervalSeconds (Health c1);
                      TimeoutSeconds := 5 |} c1
  else c1.

Definition with_Recording (f : RecordingConfig -> RecordingConfig)
    (cam : CameraConfig) : CameraConfig :=
  {| Name := Name cam; Description := Description cam; URL := URL cam;
     Enabled := Enabled cam; MotionThreshold := MotionThreshold cam;
     Recording := f (Recording cam) |}.

Definition with_MotionThreshold (t : Q) (cam : CameraConfig) : CameraConfig :=
  {| Name := Name cam; Description := Description cam; URL := URL cam;
     Enabled := Enabled cam; MotionThreshold := t;
     Recording := Recording cam |}.

Definition with_Cameras (cams : list CameraConfig) (c : Snapshot) : Snapshot :=
  {| Server := Server c; Cameras := cams; Motion := Motion c;
     Health := Health c; Storage := Storage c |}.

Definition with_Server (sv : ServerConfig) (c : Snapshot) : Snapshot :=
  {| Server := sv; Cameras := Cameras c; Motion := Motion c;
     Health := Health c; Storage := Storage c |}.

Definition with_Motion (mo : MotionConfig) (c : Snapshot) : Snapshot :=
  {| Server := Server c; Cameras := Cameras c; Motion := mo;
     Health := Health c; Storage := Storage c |}.

(** The process environment and the two parsers of [strconv], which
    [applyEnvOverrides] calls. *)
Record Environ : Type := {
  Getenv : string -> string;
  Atoi : string -> option Z;
  ParseFloat : string -> option Q
}.

Definition setRecording (f : RecordingConfig -> RecordingConfig) (c : Snapshot)
    : Snapshot :=
  with_Cameras (map (with_Recording f) (Cameras c)) c.

(** The eight [if] statements of [applyEnvOverrides], in order. *)
Definition overrideHost (os : Environ) (c : Snapshot) : Snapshot :=
  let host := Getenv os "DROIDCAM_SENTRY_HOST" in
  if negb (String.eqb host "")
  then with_Server {| Host := host; Port := Port (Server c) |} c else c.

Definition overridePort (os : Environ) (c : Snapshot) : Snapshot :=
  let port := Getenv os "DROIDCAM_SENTRY_PORT" in
  if negb (String.eqb port "")
  then match Atoi os port with
       | Some p => with_Server {| Host := Host (Server c); Port := p |} c
       | None => c
       end
  else c.

Definition overrideRecordingPath (os : Environ) (c : Snapshot) : Snapshot :=
  let recordingPath := Getenv os "DROIDCAM_SENTRY_RECORDING_PATH" in
  if negb (String.eqb recordingPath "")
  then setRecording
         (fun rc => {| Path := recordingPath; Format := Format rc;
                       PreBufferSeconds := PreBufferSeconds rc;
                       PostBufferSeconds := PostBufferSeconds rc |}) c
  else c.

Definition overrideThreshold (os : Environ) (c : Snapshot) : Snapshot :=
  let threshold := Getenv os "DROIDCAM_SENTRY_MOTION_THRESHOLD" in
  if negb (String.eqb threshold "")
  then match ParseFloat os threshold with
       | Some t => with_Cameras (map (with_MotionThreshold t) (Cameras c)) c
       | None => c
       end
  else c.

Definition overrideInterval (os : Environ) (c : Snapshot) : Snapshot :=
  let interval := Getenv os "DROIDCAM_SENTRY_DETECTION_INTERVAL_MS" in
  if negb (String.eqb interval "")
  then match Atoi os interval with
       | Some i => with_Motion {| DetectionIntervalMs := i;
                                  MinArea := MinArea (Motion c) |} c
       | None => c
       end
  else c.

Definition overrideMinArea (os : Environ) (c : Snapshot) : Snapshot :=
  let minArea := Getenv os "DROIDCAM_SENTRY_MIN_AREA" in
  if negb (String.eqb minArea "")
  then match Atoi os minArea with
       | Some a => with_Motion {| DetectionIntervalMs :=
                                    DetectionIntervalMs (Motion c);
                                  MinArea := a |} c
       | None => c
       end
  else c.

Definition overridePreBuffer (os : Environ) (c : Snapshot) : Snapshot :=
  let preBuffer := Getenv os "DROIDCAM_SENTRY_PRE_BUFFER_SECONDS" in
  if negb (String.eqb preBuffer "")
  then match Atoi os preBuffer with
       | Some pb =>
           setRecording
             (fun rc => {| Path := Path rc; Format := Format rc;
                           PreBufferSeconds := pb;
                           PostBufferSeconds := PostBufferSeconds rc |}) c
       | None => c
       end
  else c.

Definition overridePostBuffer (os : Environ) (c : Snapshot) : Snapshot :=
  let postBuffer := Getenv os "DROIDCAM_SENTRY_POST_BUFFER_SECONDS" in
  if negb (String.eqb postBuffer "")
  then match Atoi os postBuffer with
       | Some pb =>
           setRecording
             (fun rc => {| Path := Path rc; Format := Format rc;
                           PreBufferSeconds := PreBufferSeconds rc;
                           PostBufferSeconds := pb |}) c
       | None => c
       end
  else c.

Definition applyEnvOverrides (os : Environ) (c : Snapshot) : Snapshot :=
  let c := overrideHost os c in
  let c := overridePort os c in
  let c := overrideRecordingPath os c in
  let c := overrideThreshold os c in
  let c := overrideInterval os c in
  let c := overrideMinArea os c in
  let c := overridePreBuffer os c in
  overridePostBuffer os c.

(** What names a camera, and where it records. *)
Definition identity (cam : CameraConfig) : string * string * string * bool :=
  (Name cam, Description cam, URL cam, Enabled cam).

Definition recordingPath (cam : CameraConfig) : string := Path (Recording cam).

(** What no override touches, and all but the recording-path override
    leave alone. *)
Definition kept (c c' : Snapshot) : Prop :=
  map identity (Cameras c') = map identity (Cameras c)
  /\ Health c' = Health c /\ Storage c' = Storage c.

Definition keptPaths (c c' : Snapshot) : Prop :=
  map recordingPath (Cameras c') = map recordingPath (Cameras c).

(** [Load] after the file was read and unmarshalled into [parsed]. *)
Definition finishLoad (os : Environ) (parsed : Snapshot) : Snapshot :=
  setDefaults (applyEnvOverrides os parsed).

End config.

(** ** [package surveillance]: the other operations of the [Manager]

    Over the registry and store of [surveillance.Manager].  The
    configuration object is shared with the HTTP server, so each
    [m.cfg.Get()] is an argument.  A subscriber channel is a number; the
    channels live in a store of their own, each a queue of at most five
    JPEG images and a closed flag. *)

Module fleet.
Section Fleet.
Context {Mat : Type} `{Platform Mat}.
Import surveillance.

Inductive error : Type :=
| ErrAlreadyRunning (cameraName : string)       (* "camera %s is already running" *)
| ErrNotInConfiguration (cameraName : string)   (* "camera %s not found in configuration" *)
| ErrStream (e : stream.error).

Inductive Effect : Type :=
| Stopping (e : surveillance.Effect Mat)
| Recorder (e : recorder.Effect Mat)
| Streaming (e : stream.Effect)
| LogStartingMonitor (name url : string)
| LogFailedToStart (name : string) (err : error)
| GoMonitorLoop (p : positive)
| LogStoppingMonitor (name : string)
| LogMotionEnabled (name : string)
| LogMotionDisabled (name : string).

Definition with_MotionDetectEnabled (b : bool) (monitor : CameraMonitor Mat)
    : CameraMonitor Mat :=
  {| Name := Name monitor; Enabled := Enabled monitor;
     MotionDetectEnabled := b;
     stream := stream monitor; detector := detector monitor;
     recorder := recorder monitor;
     stopChanClosed := stopChanClosed monitor; running := running monitor;
     subscribers := subscribers monitor |}.

Definition with_recorder (rec : option (recorder.VideoRecorder Mat))
    (monitor : CameraMonitor Mat) : CameraMonitor Mat :=
  {| Name := Name monitor; Enabled := Enabled monitor;
     MotionDetectEnabled := MotionDetectEnabled monitor;
     stream := stream monitor; detector := detector monitor;
     recorder := rec;
     stopChanClosed := stopChanClosed monitor; running := running monitor;
     subscribers := subscribers monitor |}.

Definition with_stream (s : option camera.Stream)
    (monitor : CameraMonitor Mat) : CameraMonitor Mat :=
  {| Name := Name monitor; Enabled := Enabled monitor;
     MotionDetectEnabled := MotionDetectEnabled monitor;
     stream := s; detector := detector monitor;
     recorder := recorder monitor;
     stopChanClosed := stopChanClosed monitor; running := running monitor;
     subscribers := subscribers monitor |}.

Definition with_subscribers (subs : list nat)
    (monitor : CameraMonitor Mat) : CameraMonitor Mat :=
  {| Name := Name monitor; Enabled := Enabled monitor;
     MotionDetectEnabled := MotionDetectEnabled monitor;
     stream := stream monitor; detector := detector monitor;
     recorder := recorder monitor;
     stopChanClosed := stopChanClosed monitor; running := running monitor;
     subscribers := subs |}.

(** [startMonitor]; [cfg] is the snapshot it takes for the motion
    settings. *)
Definition startMonitor (camCfg : config.CameraConfig) (cfg : config.Snapshot)
    (opening : stream.OpenAnswer) (m : Manager Mat)
    : Manager Mat * list Effect * option error :=
  let starting := LogStartingMonitor (config.Name camCfg) (config.URL camCfg) in
  let '(s, eOpen, err) :=
    stream.Open opening (stream.NewStream (config.Name camCfg) (config.URL camCfg)) in
  match err with
  | Some e => (m, starting :: map Streaming eOpen, Some (ErrStream e))
  | None =>
      let detector :=
        {| motion.Name := config.Name camCfg;
           motion.Threshold := config.MotionThreshold camCfg;
           motion.MinArea := config.MinArea (config.Motion cfg) |} in
      let rec :=
        recorder.NewRecorder (config.Name camCfg)
          (config.Path (config.Recording camCfg))
          30
          (config.PreBufferSeconds (config.Recording camCfg))
          (config.PostBufferSeconds (config.Recording camCfg)) in
      let monitor :=
        {| Name := config.Name camCfg; Enabled := true;
           MotionDetectEnabled := true;
           stream := Some s; detector := Some detector; recorder := Some rec;
           stopChanClosed := false; running := true; subscribers := [] |} in
      let p := fresh (dom (store m)) in
      ({| monitors := <[config.Name camCfg := p]> (monitors m);
          store := <[p := monitor]> (store m) |},
       starting :: map Streaming eOpen ++ [GoMonitorLoop p],
       None)
  end.

(** The loop of [StartCamera] over [cfg.Cameras]: the first camera of
    that name. *)
Definition findCamera (cameraName : string) (cameras : list config.CameraConfig)
    : option config.CameraConfig :=
  List.find (fun c => String.eqb (config.Name c) cameraName) cameras.

Definition StartCamera (cameraName : string)
    (cfg cfg' : config.Snapshot) (opening : stream.OpenAnswer) (m : Manager Mat)
    : outcome (Manager Mat * list Effect * option error) :=
  running <-!
    match monitors m !! cameraName with
    | None => Returned false
    | Some p =>
        match store m !! p with
        | None => Panicked
        | Some monitor => Returned (surveillance.running monitor)
        end
    end;
  if running
  then Returned (m, [], Some (ErrAlreadyRunning cameraName))
  else
    match findCamera cameraName (config.Cameras cfg) with
    | None => Returned (m, [], Some (ErrNotInConfiguration cameraName))
    | Some camCfg => Returned (startMonitor camCfg cfg' opening m)
    end.

(** [Manager.Start]: the loop over [cfg.Cameras].  The camera at position
    [i] is opened with the answer [opening i], and its [startMonitor]
    reads the snapshot [snapshots i]. *)
Fixpoint startEach (cameras : list config.CameraConfig) (i : nat)
    (snapshots : nat -> config.Snapshot) (opening : nat -> stream.OpenAnswer)
    (m : Manager Mat) : Manager Mat * list Effect :=
  match cameras with
  | [] => (m, [])
  | camCfg :: rest =>
      if config.Enabled camCfg
      then
        let '(m1, e, err) := startMonitor camCfg (snapshots i) (opening i) m in
        let logged :=
          match err with
          | Some x => [LogFailedToStart (config.Name camCfg) x]
          | None => []
          end in
        let '(m2, e2) := startEach rest (S i) snapshots opening m1 in
        (m2, e ++ logged ++ e2)
      else startEach rest (S i) snapshots opening m
  end.

Definition Start (cfg : config.Snapshot)
    (snapshots : nat -> config.Snapshot) (opening : nat -> stream.OpenAnswer)
    (m : Manager Mat) : Manager Mat * list Effect * option error :=
  let '(m', e) := startEach (config.Cameras cfg) 0 snapshots opening m in
  (m', e, None).

Definition isReady (a : stream.OpenAnswer) : bool :=
  match a with stream.OpenedReady => true | _ => false end.

(** The cameras of the list, from position [i] on, that are enabled and
    whose stream opens. *)
Fixpoint opened (cameras : list config.CameraConfig) (i : nat)
    (opening : nat -> stream.OpenAnswer) : list config.CameraConfig :=
  match cameras with
  | [] => []
  | camCfg :: rest =>
      if config.Enabled camCfg && isReady (opening i)
      then camCfg :: opened rest (S i) opening
      else opened rest (S i) opening
  end.

Definition isGoMonitorLoop (e : Effect) : bool :=
  match e with GoMonitorLoop _ => true | _ => false end.

(** [Manager.Stop]; [order] is the order in which the [range] over the
    registry yields the names. *)
Fixpoint Stop (order : list string) (m : Manager Mat)
    : outcome (Manager Mat * list Effect) :=
  match order with
  | [] => Returned (m, [])
  | name :: rest =>
      match monitors m !! name with
      | None => Stop rest m
      | Some p =>
          match store m !! p with
          | None => Panicked
          | Some monitor =>
              s <-! stopMonitor monitor;
              t <-! Stop rest {| monitors := monitors m;
                                 store := <[p := fst s]> (store m) |};
              Returned (fst t,
                        LogStoppingMonitor name :: map Stopping (snd s) ++ snd t)
          end
      end
  end.

Definition EnableMotionDetection (cameraName : string) (m : Manager Mat)
    : outcome (Manager Mat * list Effect * option surveillance.error) :=
  match monitors m !! cameraName with
  | None => Returned (m, [], Some (ErrNotFound cameraName))
  | Some p =>
      match store m !! p with
      | None => Panicked
      | Some monitor =>
          if negb (running monitor)
          then Returned (m, [], Some (ErrNotRunning cameraName))
          else
            Returned
              ({| monitors := monitors m;
                  store := <[p := with_MotionDetectEnabled true monitor]> (store m) |},
               [LogMotionEnabled cameraName], None)
      end
  end.

Definition DisableMotionDetection (cameraName : string) (m : Manager Mat)
    : outcome (Manager Mat * list Effect * option surveillance.error) :=
  match monitors m !! cameraName with
  | None => Returned (m, [], Some (ErrNotFound cameraName))
  | Some p =>
      match store m !! p with
      | None => Panicked
      | Some monitor =>
          if negb (running monitor)
          then Returned (m, [], Some (ErrNotRunning cameraName))
          else
            let monitor1 := with_MotionDetectEnabled false monitor in
            match recorder monitor1 with
            | None => Panicked
            | Some rec =>
                let '(rec', eStop) :=
                  if recorder.IsRecording rec then recorder.Stop rec
                  else (rec, []) in
                Returned
                  ({| monitors := monitors m;
                      store := <[p := with_recorder (Some rec') monitor1]> (store m) |},
                   map Recorder eStop ++ [LogMotionDisabled cameraName], None)
            end
      end
  end.

(** A subscriber channel: [make(chan []byte, 5)]. *)
Record Chan : Type := { queue : list string; chanClosed : bool }.

Definition chanCap : nat := 5.

Record World : Type := {
  manager : Manager Mat;
  chans : gmap nat Chan
}.

Definition Subscribe (cameraName : string) (w : World)
    : outcome (World * (nat + surveillance.error)) :=
  match monitors (manager w) !! cameraName with
  | None => Returned (w, inr (ErrNotFound cameraName))
  | Some p =>
      match store (manager w) !! p with
      | None => Panicked
      | Some monitor =>
          if negb (running monitor)
          then Returned (w, inr (ErrNotRunning cameraName))
          else
            let ch := fresh (dom (chans w)) in
            Returned
              ({| manager :=
                    {| monitors := monitors (manager w);
                       store :=
                         <[p := with_subscribers (subscribers monitor ++ [ch]) monitor]>
                           (store (manager w)) |};
                  chans := <[ch := {| queue := []; chanClosed := false |}]> (chans w) |},
               inl ch)
      end
  end.

(** The list without its first [ch], if it has one. *)
Fixpoint removeFirst (ch : nat) (subs : list nat) : option (list nat) :=
  match subs with
  | [] => None
  | sub :: rest =>
      if Nat.eqb sub ch then Some rest
      else option_map (cons sub) (removeFirst ch rest)
  end.

(** [close(ch)]: panics on a closed or nil channel. *)
Definition closeChan (ch : nat) (cs : gmap nat Chan) : outcome (gmap nat Chan) :=
  match cs !! ch with
  | Some c =>
      if chanClosed c then Panicked
      else Returned (<[ch := {| queue := queue c; chanClosed := true |}]> cs)
  | None => Panicked
  end.

Definition Unsubscribe (cameraName : string) (ch : nat) (w : World)
    : outcome World :=
  match monitors (manager w) !! cameraName with
  | None => Returned w
  | Some p =>
      match store (manager w) !! p with
      | None => Panicked
      | Some monitor =>
          match removeFirst ch (subscribers monitor) with
          | None => Returned w
          | Some subs =>
              cs <-! closeChan ch (chans w);
              Returned
                {| manager :=
                     {| monitors := monitors (manager w);
                        store := <[p := with_subscribers subs monitor]>
                                   (store (manager w)) |};
                   chans := cs |}
          end
      end
  end.

(** No running monitor is registered under the name. *)
Definition notRunning (cameraName : string) (m : Manager Mat) : Prop :=
  monitors m !! cameraName = None
  \/ exists p monitor,
       monitors m !! cameraName = Some p /\ store m !! p = Some monitor
       /\ running monitor = false.

(** Every registered pointer leads to a monitor, and a running monitor's
    stop channel is open: what [startMonitor] and [stopMonitor] keep. *)
Definition registryOk (m : Manager Mat) : Prop :=
  forall name p,
    monitors m !! name = Some p ->
    exists monitor,
      store m !! p = Some monitor
      /\ (running monitor = true -> stopChanClosed monitor = false).

(** The channels a monitor sends to exist and are open. *)
Definition subscribersOpen (monitor : CameraMonitor Mat) (cs : gmap nat Chan) : Prop :=
  forall ch, In ch (subscribers monitor) ->
    exists c, cs !! ch = Some c /\ chanClosed c = false.

End Fleet.
Arguments Effect Mat : clear implicits.
Arguments World Mat : clear implicits.
End fleet.

(** ** [Manager.monitorLoop]: one tick

    The body of the [case <-ticker.C] branch, on the monitor the loop
    holds and the channel store.  The motion classifier is the black box
    of the loop: what [detector.Detect] returns is an argument, as are the
    answers of the capture, the JPEG encoder, the sink and the system
    calls of [StartRecording]. *)

Module loop.
Section Loop.
Context {Mat : Type} `{Platform Mat}.
Import surveillance fleet.

Record TickEnv : Type := {
  reading : stream.ReadAnswer Mat;
  reopening : stream.OpenAnswer;          (* for the Reconnect after a failed read *)
  writeFailed : bool;                     (* the sink, to AddFrame's write *)
  encoded : option string;                (* gocv.IMEncode: None is an error *)
  detected : option (detector.Detection Mat);   (* Detect: Some is motion *)
  starting : recorder.StartEnv
}.

Inductive Effect : Type :=
| OfStream (e : stream.Effect)
| OfRecorder (e : recorder.Effect Mat)
| LogReadError (name : string)
| LogReconnectFailed (name : string)
| SleepSeconds (n : Z)
| IMEncode (frame : Mat)
| FrameClose (frame : Mat)
| BufClose
| ChanSend (ch : nat) (bytes : string)
| ChanSkip (ch : nat)
| DetectCall (frame : Mat)
| LogStartFailed (name : string) (err : recorder.error).

(** [select { case sub <- frameBytes: default: }] for one subscriber: a
    send on a closed channel panics, a full or nil channel is skipped. *)
Definition offer (frameBytes : string) (sub : nat) (cs : gmap nat Chan)
    : outcome (gmap nat Chan * list Effect) :=
  match cs !! sub with
  | None => Returned (cs, [ChanSkip sub])
  | Some c =>
      if chanClosed c then Panicked
      else if (length (queue c) <? chanCap)%nat
      then Returned (<[sub := {| queue := queue c ++ [frameBytes];
                                 chanClosed := false |}]> cs,
                     [ChanSend sub frameBytes])
      else Returned (cs, [ChanSkip sub])
  end.

Fixpoint broadcast (frameBytes : string) (subs : list nat) (cs : gmap nat Chan)
    : outcome (gmap nat Chan * list Effect) :=
  match subs with
  | [] => Returned (cs, [])
  | sub :: rest =>
      a <-! offer frameBytes sub cs;
      b <-! broadcast frameBytes rest (fst a);
      Returned (fst b, snd a ++ snd b)
  end.

(** Step 3 of the tick: the live viewers. *)
Definition fanOut (env : TickEnv) (frame : Mat) (monitor : CameraMonitor Mat)
    (cs : gmap nat Chan) : outcome (gmap nat Chan * list Effect) :=
  if (0 <? length (subscribers monitor))%nat && negb (Empty frame)
  then
    let encoding := [IMEncode (Clone frame); FrameClose (Clone frame)] in
    match encoded env with
    | None => Returned (cs, encoding)
    | Some frameBytes =>
        if (0 <? String.length frameBytes)%nat
        then
          b <-! broadcast frameBytes (subscribers monitor) cs;
          Returned (fst b, encoding ++ snd b ++ [BufClose])
        else Returned (cs, encoding ++ [BufClose])
    end
  else Returned (cs, []).

(** Step 4 of the tick: motion detection and the start of a recording. *)
Definition onDetection (env : TickEnv) (frame : Mat) (monitor : CameraMonitor Mat)
    (rec : recorder.VideoRecorder Mat)
    : outcome (recorder.VideoRecorder Mat * list Effect) :=
  if MotionDetectEnabled monitor
  then
    match detector monitor with
    | None => Panicked
    | Some _ =>
        match detected env with
        | None => Returned (rec, [DetectCall frame])
        | Some detection =>
            let '(rec1, eStart) :=
              if negb (recorder.IsRecording rec)
              then
                let '(r1, e, err) := recorder.StartRecording (starting env) rec in
                (r1, map OfRecorder e
                       ++ match err with
                          | Some x => [LogStartFailed (Name monitor) x]
                          | None => []
                          end)
              else (rec, []) in
            Returned
              (recorder.OnMotion rec1,
               [DetectCall frame] ++ eStart
                 ++ (if negb (Empty (detector.Frame detection))
                     then [FrameClose (detector.Frame detection)] else []))
        end
    end
  else Returned (rec, []).

Definition tick (env : TickEnv) (monitor : CameraMonitor Mat) (cs : gmap nat Chan)
    : outcome (CameraMonitor Mat * gmap nat Chan * list Effect) :=
  match stream monitor with
  | None => Panicked
  | Some s =>
      let '(s1, res, eRead) := stream.ReadFrame (reading env) s in
      match res with
      | inr _ =>
          let '(s2, eRe, err) := stream.Reconnect (reopening env) s1 in
          Returned
            (with_stream (Some s2) monitor, cs,
             map OfStream eRead ++ [LogReadError (Name monitor)]
               ++ map OfStream eRe
               ++ match err with
                  | Some _ => [LogReconnectFailed (Name monitor); SleepSeconds 5]
                  | None => []
                  end)
      | inl frame =>
          match recorder monitor with
          | None => Panicked
          | Some rec =>
              a <-! recorder.AddFrame frame (writeFailed env) rec;
              b <-! fanOut env frame monitor cs;
              c <-! onDetection env frame monitor (fst a);
              let '(rec3, eUpdate, _) := recorder.Update (fst c) in
              Returned
                (with_recorder (Some rec3) (with_stream (Some s1) monitor),
                 fst b,
                 map OfStream eRead ++ map OfRecorder (snd a) ++ snd b ++ snd c
                   ++ map OfRecorder eUpdate
                   ++ (if negb (Empty frame) then [FrameClose frame] else []))
          end
      end
  end.

(** The recorder's effects among the effects of a tick. *)
Definition recorderEffects (eff : list Effect) : list (recorder.Effect Mat) :=
  omap (fun e => match e with OfRecorder x => Some x | _ => None end) eff.

(** The errors of [StartRecording] a tick logs. *)
Definition startFailures (eff : list Effect) : list recorder.error :=
  omap (fun e => match e with LogStartFailed _ x => Some x | _ => None end) eff.

(** The calls one tick with a frame makes on the recorder, in order. *)
Definition callsOf (env : TickEnv) (monitor : CameraMonitor Mat)
    (rec : recorder.VideoRecorder Mat) (frame : Mat) : list api.Call :=
  api.CallAddFrame frame (writeFailed env)
  :: (if MotionDetectEnabled monitor
      then match detected env with
           | Some _ =>
               (if recorder.isRecording rec then []
                else [api.CallStartRecording (starting env)])
               ++ [api.CallOnMotion]
           | None => []
           end
      else [])
  ++ [api.CallUpdate].

(** What [offer] leaves of a channel. *)
Definition offered (frameBytes : string) (c : Chan) : Chan :=
  if (length (queue c) <? chanCap)%nat
  then {| queue := queue c ++ [frameBytes]; chanClosed := false |}
  else c.

(** The channel effects among the effects of a tick. *)
Definition isChanEffect (e : Effect) : bool :=
  match e with ChanSend _ _ | ChanSkip _ => true | _ => false end.

(** The calls the loop makes on the recorder on ticks without motion:
    [AddFrame], then [Update]. *)
Definition quietTicks (fws : list (Mat * bool)) : list api.Call :=
  flat_map (fun p => [api.CallAddFrame (fst p) (snd p); api.CallUpdate]) fws.

End Loop.
Arguments Effect Mat : clear implicits.
Arguments TickEnv Mat : clear implicits.
End loop.

(** ** [package server]: [Server.isValidRecordingPath]

    The check the three recording handlers make before they open, delete
    or convert a file.  [abs] is [filepath.Abs], which fails only when the
    working directory cannot be read; [cfg] is the snapshot [s.cfg.Get()]
    returns. *)

Module server.

Fixpoint withinAny (abs : string -> option string) (absPath : string)
    (cameras : list config.CameraConfig) : bool :=
  match cameras with
  | [] => false
  | camCfg :: rest =>
      match abs (config.Path (config.Recording camCfg)) with
      | None => withinAny abs absPath rest
      | Some recordingPath =>
          if gostrings.HasPrefix absPath recordingPath then true
          else withinAny abs absPath rest
      end
  end.

Definition isValidRecordingPath (abs : string -> option string)
    (cfg : config.Snapshot) (filePath : string) : bool :=
  match abs filePath with
  | None => false
  | Some absPath => withinAny abs absPath (config.Cameras cfg)
  end.

(** A value that [json.Decode] puts into an [interface{}]. *)
Inductive Value : Type :=
| VBool (b : bool)
| VNumber (x : Q)
| VString (s : string)
| VOther.   (* null, an array or an object *)

Definition with_Enabled (b : bool) (cam : config.CameraConfig) : config.CameraConfig :=
  {| config.Name := config.Name cam; config.Description := config.Description cam;
     config.URL := config.URL cam; config.Enabled := b;
     config.MotionThreshold := config.MotionThreshold cam;
     config.Recording := config.Recording cam |}.

Definition with_URL (u : string) (cam : config.CameraConfig) : config.CameraConfig :=
  {| config.Name := config.Name cam; config.Description := config.Description cam;
     config.URL := u; config.Enabled := config.Enabled cam;
     config.MotionThreshold := config.MotionThreshold cam;
     config.Recording := config.Recording cam |}.

Definition applyCameraUpdates (cam : config.CameraConfig)
    (updates : gmap string Value) : config.CameraConfig :=
  let cam :=
    match updates !! "enabled" with
    | Some (VBool enabled) => with_Enabled enabled cam
    | _ => cam
    end in
  let cam :=
    match updates !! "url" with
    | Some (VString url) => with_URL url cam
    | _ => cam
    end in
  match updates !! "motion_threshold" with
  | Some (VNumber threshold) => config.with_MotionThreshold threshold cam
  | _ => cam
  end.

(** The closure [handleCameraUpdate] passes to [cfg.Update]: the cameras
    afterwards, and [found]. *)
Fixpoint updateFirst (name : string) (updates : gmap string Value)
    (cameras : list config.CameraConfig) : list config.CameraConfig * bool :=
  match cameras with
  | [] => ([], false)
  | cam :: rest =>
      if String.eqb (config.Name cam) name
      then (applyCameraUpdates cam updates :: rest, true)
      else
        let '(rest', found) := updateFirst name updates rest in
        (cam :: rest', found)
  end.

Inductive Effect : Type :=
| NotifySubscribers                       (* at the end of [cfg.Update] *)
| Save (path : string)
| Respond (status : Z) (key message : string).

(** The request body, as [json.Decode] into a [map[string]interface{}]
    sees it. *)
Inductive Body : Type :=
| BodyInvalid     (* not JSON, or a JSON value other than an object or null *)
| BodyNull        (* the JSON value null *)
| BodyObject (fields : gmap string Value).

(** [Decode(&updates)]: an error, or the map.  The body [null] is decoded
    without error and leaves the map nil, which reads as the empty map. *)
Definition decode (body : Body) : option (gmap string Value) :=
  match body with
  | BodyInvalid => None
  | BodyNull => Some ∅
  | BodyObject fields => Some fields
  end.

(** [handleCameraUpdate].  [isPut] is [r.Method == http.MethodPut] and
    [name] the rest of the path after [/api/cameras/]. *)
Definition handleCameraUpdate (isPut : bool) (name : string)
    (body : Body) (c : config.Snapshot)
    : config.Snapshot * list Effect :=
  if negb isPut then (c, [Respond 405 "error" "Method not allowed"])
  else
    match decode body with
    | None => (c, [Respond 400 "error" "Invalid JSON"])
    | Some updates =>
        let '(cameras, found) := updateFirst name updates (config.Cameras c) in
        let c' := config.with_Cameras cameras c in
        if negb found
        then (c', [NotifySubscribers; Respond 404 "error" "Camera not found"])
        else (c', [NotifySubscribers; Save "config.yaml";
                   Respond 200 "status" "updated"])
    end.

End server.

(** ** More concrete objects, for the manager, the loop and the detector *)

Module lab.
Import testbed.

(** A ring of three after an empty frame and two images. *)
Definition mixed : recorder.VideoRecorder Img :=
  fed [emptyMat; frame 1; frame 2] (fresh 1 3 2).

(** A session: motion, one more frame, a quiet update and a stop. *)
Definition session : list (api.Call (Mat:=Img)) :=
  [api.CallAddFrame (frame 1) false; api.CallStartRecording calmEnv;
   api.CallOnMotion; api.CallAddFrame (frame 2) true; api.CallUpdate;
   api.CallStop; api.CallAddFrame (frame 3) false;
   api.CallStartRecording calmEnv].

(** A detector with a 100 ms interval, and what it finds at two seconds:
    two large contours and a small one, in two orders. *)
Definition sentry : detector.Detector Img := detector.NewDetector "cam" 25 500 100.

Definition busy : detector.Env :=
  {| detector.now := 2000000000; detector.contourAreas := [600; 20; 700]%Q |}.

Definition busy' : detector.Env :=
  {| detector.now := 2000000000; detector.contourAreas := [700; 600; 20]%Q |}.

Definition porchCfg : config.CameraConfig :=
  {| config.Name := "porch"; config.Description := "front door";
     config.URL := "http://porch/video"; config.Enabled := true;
     config.MotionThreshold := 25;
     config.Recording :=
       {| config.Path := "/recordings"; config.Format := "avi";
          config.PreBufferSeconds := 5; config.PostBufferSeconds := 10 |} |}.

Definition settings : config.Snapshot :=
  {| config.Server := {| config.Host := "0.0.0.0"; config.Port := 8080 |};
     config.Cameras := [porchCfg];
     config.Motion := {| config.DetectionIntervalMs := 100; config.MinArea := 500 |};
     config.Health := {| config.CheckIntervalSeconds := 30; config.TimeoutSeconds := 5 |};
     config.Storage := {| config.MaxRecordingSizeMB := 100; config.RetentionDays := 7 |} |}.

(** A running monitor with an open stream and one frame buffered. *)
Definition watched : surveillance.CameraMonitor Img :=
  {| surveillance.Name := "garage";
     surveillance.Enabled := true;
     surveillance.MotionDetectEnabled := true;
     surveillance.stream :=
       Some {| camera.Name := "garage"; camera.URL := "http://cam/video";
               camera.capture := true; camera.isOpen := true;
               camera.frameCount := 1 |};
     surveillance.detector :=
       Some {| motion.Name := "garage"; motion.Threshold := 25;
               motion.MinArea := 500 |};
     surveillance.recorder := Some armed;
     surveillance.stopChanClosed := false;
     surveillance.running := true;
     surveillance.subscribers := [] |}.

(** The same with two viewers: one with room, one whose queue is full. *)
Definition viewed : surveillance.CameraMonitor Img :=
  fleet.with_subscribers [0%nat; 1%nat] watched.

Definition channels : gmap nat fleet.Chan :=
  <[0%nat := {| fleet.queue := []; fleet.chanClosed := false |}]>
    (<[1%nat := {| fleet.queue := ["a"; "b"; "c"; "d"; "e"];
                   fleet.chanClosed := false |}]> ∅).

(** A tick on which the camera delivers a frame that shows motion. *)
Definition motionTick : loop.TickEnv Img :=
  {| loop.reading := stream.ReadFilled (frame 2);
     loop.reopening := stream.OpenedReady;
     loop.writeFailed := false;
     loop.encoded := Some "jpeg";
     loop.detected :=
       Some {| detector.Timestamp := 5; detector.Area := 900;
               detector.Frame := frame 2 |};
     loop.starting := calmEnv |}.

(** A manager whose one camera is recording. *)
Definition filming : surveillance.Manager Img :=
  {| surveillance.monitors := <["garage" := 1%positive]> ∅;
     surveillance.store :=
       <[1%positive := fleet.with_recorder (Some (started armed)) watched]> ∅ |}.

End lab.

(** * Properties *)

(** ** Go integers *)

Lemma wrap_in_range (z : Z) :
  GoInt.min_int <= z <= GoInt.max_int -> GoInt.wrap z = z.
Proof.
  unfold GoInt.wrap, GoInt.min_int, GoInt.max_int. intros Hz.
  rewrite Z.mod_small; lia.
Qed.

Lemma wrap_bounds (z : Z) :
  GoInt.min_int <= GoInt.wrap z <= GoInt.max_int.
Proof.
  unfold GoInt.wrap, GoInt.min_int, GoInt.max_int.
  pose proof (Z.mod_pos_bound (z + 2 ^ 63) (2 ^ 64) ltac:(lia)). lia.
Qed.

Lemma of_float64_whole (n : Z) (f : Q) :
  (f == inject_Z n)%Q -> GoInt.in_range n = true -> GoInt.of_float64 f = n.
Proof.
  unfold Qeq, inject_Z, GoInt.of_float64. cbn [Qnum Qden]. intros Hf Hn.
  replace (Qnum f) with (n * Z.pos (Qden f)) by lia.
  rewrite Z.quot_mul by lia. now rewrite Hn.
Qed.

(** ** The ring buffer under [AddFrame] *)

Section RingFacts.
Context {Mat : Type} `{Platform Mat}.
Import recorder api.

Implicit Types (r : VideoRecorder Mat) (fs : list Mat).

Lemma with_preBuffer_same r : with_preBuffer (preBuffer r) r = r.
Proof. now destruct r. Qed.

(** One insertion into a non-nil ring: the slot under the pointer is
    overwritten and becomes the newest, last in walking order. *)
Lemma AddFrame_idle frame wf r v rest :
  preBuffer r = v :: rest -> isRecording r = false ->
  exists e,
    AddFrame frame wf r = Returned (with_preBuffer (rest ++ [Some frame]) r, e)
    /\ sinkFrames e = [].
Proof.
  intros Hrb Hidle. unfold AddFrame. rewrite Hrb. cbn.
  rewrite Hidle. cbn.
  eexists. split; [reflexivity|].
  destruct (writer r), v as [m|]; cbn; try destruct (Empty m); reflexivity.
Qed.

Lemma addFrames_ring fs : forall r,
  preBuffer r <> [] -> isRecording r = false ->
  exists e,
    addFrames fs r
      = Returned (with_preBuffer (drop (length fs) (preBuffer r ++ map Some fs)) r, e)
    /\ sinkFrames e = [].
Proof.
  induction fs as [|f fs IH]; intros r Hne Hidle.
  - exists []. unfold addFrames. cbn [map run length].
    rewrite app_nil_r, drop_0, with_preBuffer_same. auto.
  - destruct (preBuffer r) as [|v rest] eqn:Hrb; [congruence|].
    destruct (AddFrame_idle f false r v rest Hrb Hidle) as (e1 & Hadd & He1).
    destruct (IH (with_preBuffer (rest ++ [Some f]) r)) as (e2 & Hrun & He2).
    + cbn. now destruct rest.
    + exact Hidle.
    + exists (e1 ++ e2). split.
      * unfold addFrames in *. cbn [map run step obind].
        rewrite Hadd. cbn [obind fst snd]. rewrite Hrun. cbn [obind fst snd].
        cbn. now rewrite <- app_assoc.
      * unfold sinkFrames in *. now rewrite omap_app, He1, He2.
Qed.

(** The second [Do] of [StartRecording] over a full window of frames. *)
Lemma writeBuffered_frames w env l : forall st,
  sinkFrames (snd (fold_left (writeBuffered w env) (map Some l) st))
    = sinkFrames (snd st) ++ List.filter nonEmpty l.
Proof.
  induction l as [|m l IH]; intros st; cbn [map fold_left List.filter].
  - now rewrite app_nil_r.
  - rewrite IH. unfold writeBuffered, nonEmpty.
    destruct (Empty m); cbn [negb snd]; [reflexivity|].
    unfold sinkFrames. rewrite omap_app. cbn. now rewrite <- app_assoc.
Qed.

Lemma StartRecording_preBuffer env r :
  preBuffer (fst (fst (StartRecording env r))) = preBuffer r.
Proof.
  unfold StartRecording.
  destruct (isRecording r); [reflexivity|].
  destruct (mkdirAllFails env); [reflexivity|].
  destruct (ring.Do probeDims _ _) as [width height].
  destruct ((width =? 0) || (height =? 0)); [reflexivity|].
  destruct (openResult env); try reflexivity.
  now destruct (ring.Do (writeBuffered _ _) _ _).
Qed.

Lemma StartRecording_sink env r r' e :
  isRecording r = false ->
  StartRecording env r = (r', e, None) ->
  exists w st,
    writer r' = Some w /\ isRecording r' = true /\ framesSinceMotion r' = 0
    /\ st = ring.Do (writeBuffered w env) (preBuffer r) (0, [])
    /\ sinkFrames e = sinkFrames (snd st).
Proof.
  unfold StartRecording. intros ->.
  destruct (mkdirAllFails env); [discriminate|].
  destruct (ring.Do probeDims _ _) as [width height].
  destruct ((width =? 0) || (height =? 0)); [discriminate|].
  destruct (openResult env); try discriminate.
  cbn [preBuffer with_session with_currentFile].
  destruct (ring.Do (writeBuffered _ _) _ _) as [frameCount writes] eqn:Hdo.
  intros [= <- <-]. eexists _, _. cbn.
  repeat split. unfold sinkFrames. rewrite omap_app. cbn.
  cbn in Hdo. now rewrite app_nil_r, Hdo.
Qed.

End RingFacts.

Section PreBuffer.
Context {Mat : Type} `{Platform Mat}.
Import recorder api.

Implicit Types (r : VideoRecorder Mat) (fs : list Mat).

Lemma New_Len (n : Z) : ring.Len (ring.New (A:=Mat) n) = Z.to_nat n.
Proof.
  unfold ring.New, ring.Len. destruct (Z.leb_spec n 0).
  - cbn. lia.
  - now rewrite length_replicate.
Qed.

(** The first [Do] of [StartRecording]: once a width is known the pair
    is final; until then the next non-empty frame decides. *)
Lemma probeDims_finds (l : list Mat) :
  (forall m, Empty m = false -> Cols m <> 0 /\ Rows m <> 0) ->
  forall wh,
    (fst wh = 0 /\ exists m, In m l /\ Empty m = false)
    \/ (fst wh <> 0 /\ snd wh <> 0) ->
    fst (fold_left probeDims (map Some l) wh) <> 0
    /\ snd (fold_left probeDims (map Some l) wh) <> 0.
Proof.
  intros Hsane. induction l as [|m l IH]; intros [w h] Hst; cbn [map fold_left].
  - destruct Hst as [(_ & m & [] & _)|Hst]; exact Hst.
  - apply IH. unfold probeDims. cbn [fst snd] in *.
    destruct (Empty m) eqn:Hm; cbn [negb andb].
    + destruct Hst as [(Hw & m' & [<-|Hin] & Hm')|Hst]; [congruence| |now right].
      left. eauto.
    + destruct (Z.eqb_spec w 0) as [->|Hw]; cbn [fst snd].
      * right. now apply Hsane.
      * right. destruct Hst as [(Hw' & _)|Hst]; [contradiction|exact Hst].
Qed.

Lemma StartRecording_succeeds env r (l : list Mat) :
  isRecording r = false ->
  preBuffer r = map Some l ->
  mkdirAllFails env = false ->
  openResult env = Opened ->
  (forall m, Empty m = false -> Cols m <> 0 /\ Rows m <> 0) ->
  (exists m, In m l /\ Empty m = false) ->
  snd (StartRecording env r) = None.
Proof.
  intros Hidle Hrb Hmk Hop Hsane Hex. unfold StartRecording.
  rewrite Hidle, Hmk. cbn [preBuffer with_currentFile]. unfold ring.Do at 1.
  rewrite Hrb.
  destruct (probeDims_finds l Hsane (0, 0)) as [Hw Hh]; [left; auto|].
  destruct (fold_left probeDims (map Some l) (0, 0)) as [width height].
  cbn [fst snd] in Hw, Hh.
  destruct (Z.eqb_spec width 0); [contradiction|].
  destruct (Z.eqb_spec height 0); [contradiction|].
  cbn [orb]. rewrite Hop.
  now destruct (ring.Do (writeBuffered _ _) _ _).
Qed.


End PreBuffer.

(** ** The recording state machine *)

Section StateMachine.
Context {Mat : Type} `{Platform Mat}.
Import recorder api.

Implicit Types (r : VideoRecorder Mat).

Lemma maxFrames_bounds r : GoInt.min_int <= maxFrames r <= GoInt.max_int.
Proof. apply wrap_bounds. Qed.

Lemma with_framesSinceMotion_same r :
  with_framesSinceMotion (framesSinceMotion r) r = r.
Proof. now destruct r. Qed.

Lemma with_stopped_idle r :
  isRecording r = false -> writer r = None -> with_stopped r = r.
Proof. destruct r; cbn; now intros -> ->. Qed.

(** [Update] while the post-roll has not run out: only the counter moves. *)
Lemma Update_below r :
  isRecording r = true ->
  0 <= framesSinceMotion r ->
  framesSinceMotion r + 1 < maxFrames r ->
  Update r = (with_framesSinceMotion (framesSinceMotion r + 1) r, [], false).
Proof.
  intros Hrec Hc Hlt. unfold Update. rewrite Hrec. cbn [negb].
  pose proof (maxFrames_bounds r).
  unfold GoInt.add. rewrite wrap_in_range by (unfold GoInt.min_int in *; lia).
  change (GoInt.mul _ _) with (maxFrames r).
  cbn [framesSinceMotion with_framesSinceMotion].
  destruct (Z.leb_spec (maxFrames r) (framesSinceMotion r + 1)); [lia|reflexivity].
Qed.

(** [Update] on the tick that exhausts the post-roll: the recording stops. *)
Lemma Update_expires r :
  isRecording r = true ->
  0 <= framesSinceMotion r < GoInt.max_int ->
  maxFrames r <= framesSinceMotion r + 1 ->
  Update r
  = (fst (stopRecording (with_framesSinceMotion (framesSinceMotion r + 1) r)),
     snd (stopRecording (with_framesSinceMotion (framesSinceMotion r + 1) r)),
     true).
Proof.
  intros Hrec Hc Hge. unfold Update. rewrite Hrec. cbn [negb].
  unfold GoInt.add. rewrite wrap_in_range by (unfold GoInt.min_int in *; lia).
  change (GoInt.mul _ _) with (maxFrames r).
  cbn [framesSinceMotion with_framesSinceMotion].
  destruct (Z.leb_spec (maxFrames r) (framesSinceMotion r + 1)); [reflexivity|lia].
Qed.

Lemma Update_idle r : isRecording r = false -> Update r = (r, [], false).
Proof. intros Hidle. unfold Update. now rewrite Hidle. Qed.

Lemma updates_idle r n :
  isRecording r = false -> updates n r = (r, [], replicate n false).
Proof.
  intros Hidle. induction n as [|n IH]; [reflexivity|].
  cbn [updates]. rewrite IH, (Update_idle r Hidle). cbn [app].
  f_equal. now rewrite <- replicate_S_end.
Qed.

(** [k] quiet ticks that stay below the threshold. *)
Lemma updates_below r (k : nat) :
  isRecording r = true ->
  0 <= framesSinceMotion r ->
  framesSinceMotion r + Z.of_nat k < maxFrames r ->
  updates k r
  = (with_framesSinceMotion (framesSinceMotion r + Z.of_nat k) r, [],
     replicate k false).
Proof.
  intros Hrec Hc. induction k as [|k IH]; intros Hlt.
  - cbn [updates replicate Z.of_nat]. now rewrite Z.add_0_r, with_framesSinceMotion_same.
  - cbn [updates]. rewrite IH by lia.
    set (rk := with_framesSinceMotion (framesSinceMotion r + Z.of_nat k) r).
    assert (Hmax : maxFrames rk = maxFrames r) by reflexivity.
    assert (Hfsm : framesSinceMotion rk = framesSinceMotion r + Z.of_nat k)
      by reflexivity.
    rewrite (Update_below rk) by (try exact Hrec; rewrite ?Hmax, Hfsm; lia).
    rewrite Hfsm. cbn [app]. rewrite <- replicate_S_end.
    replace (framesSinceMotion r + Z.of_nat k + 1)
      with (framesSinceMotion r + Z.of_nat (S k)) by lia.
    reflexivity.
Qed.

Lemma StartRecording_success env r r1 e1 :
  isRecording r = false ->
  StartRecording env r = (r1, e1, None) ->
  exists w,
    writer r1 = Some w /\ isRecording r1 = true /\ framesSinceMotion r1 = 0
    /\ FPS r1 = FPS r /\ PostBufferSeconds r1 = PostBufferSeconds r.
Proof.
  unfold StartRecording. intros ->.
  destruct (mkdirAllFails env); [discriminate|].
  destruct (ring.Do probeDims _ _) as [width height].
  destruct ((width =? 0) || (height =? 0)); [discriminate|].
  destruct (openResult env); try discriminate.
  destruct (ring.Do (writeBuffered _ _) _ _) as [frameCount writes].
  intros [= <- <-]. eexists. cbn. repeat split.
Qed.

End StateMachine.

Section PostRoll.
Context {Mat : Type} `{Platform Mat}.
Import recorder api.

Implicit Types (r : VideoRecorder Mat).

Lemma updates_S (k : nat) r :
  updates (S k) r
  = let '(r1, e1, bs) := updates k r in
    let '(r2, e2, b) := Update r1 in
    (r2, e1 ++ e2, bs ++ [b]).
Proof. reflexivity. Qed.

Lemma updates_add (a b : nat) r :
  updates (a + b) r
  = let '(ra, ea, ba) := updates a r in
    let '(rb, eb, bb) := updates b ra in
    (rb, ea ++ eb, ba ++ bb).
Proof.
  induction b as [|b IH].
  - rewrite Nat.add_0_r. cbn [updates].
    destruct (updates a r) as [[ra ea] ba]. now rewrite !app_nil_r.
  - rewrite Nat.add_succ_r. cbn [updates]. rewrite IH.
    destruct (updates a r) as [[ra ea] ba].
    destruct (updates b ra) as [[rb eb] bb].
    destruct (Update rb) as [[r2 e2] b2].
    now rewrite !app_assoc.
Qed.

(** C2: with fps = 30 and postBufferSeconds = 2, after a [StartRecording]
    that took the recorder from idle to recording (counter reset to 0)
    and with no [OnMotion], each of the first 59 [Update] calls returns
    false and leaves the recorder recording; the 60th returns true, closes
    the sink and leaves the recorder idle; every later [Update] changes
    nothing, so the sink is closed exactly once. *)
Theorem post_roll_expires_on_60th_update env r r1 e1 :
  (FPS r == 30)%Q ->
  PostBufferSeconds r = 2 ->
  isRecording r = false ->
  StartRecording env r = (r1, e1, None) ->
  framesSinceMotion r1 = 0
  /\ (forall k, (k <= 59)%nat ->
        exists rk,
          updates k r1 = (rk, [], replicate k false) /\ isRecording rk = true)
  /\ exists w r60 e60,
       writer r1 = Some w
       /\ updates 60 r1 = (r60, e60, replicate 59 false ++ [true])
       /\ isRecording r60 = false /\ writer r60 = None
       /\ List.filter isWriterClose e60 = [WriterClose w]
       /\ forall n,
            updates (60 + n) r1
            = (r60, e60, replicate 59 false ++ [true] ++ replicate n false).
Proof.
  intros Hfps Hpost Hidle Hstart.
  destruct (StartRecording_success env r r1 e1 Hidle Hstart)
    as (w & Hw & Hrec & Hzero & HF & HP).
  assert (Hmax : maxFrames r1 = 60).
  { unfold maxFrames. rewrite HF, HP, Hpost.
    now rewrite (of_float64_whole 30 (FPS r) Hfps eq_refl). }
  assert (Hbelow : forall k, (k <= 59)%nat ->
            updates k r1
            = (with_framesSinceMotion (Z.of_nat k) r1, [], replicate k false)).
  { intros k Hk.
    rewrite (updates_below r1 k Hrec) by (rewrite ?Hmax, Hzero; lia).
    now rewrite Hzero. }
  split; [exact Hzero|]. split.
  - intros k Hk. eexists. split; [now apply Hbelow|exact Hrec].
  - set (r59 := with_framesSinceMotion (Z.of_nat 59) r1).
    assert (H60 : updates 60 r1
                  = (fst (stopRecording (with_framesSinceMotion 60 r1)),
                     snd (stopRecording (with_framesSinceMotion 60 r1)),
                     replicate 59 false ++ [true])).
    { rewrite (updates_S 59), (Hbelow 59%nat) by lia.
      fold r59.
      rewrite (Update_expires r59); [reflexivity|exact Hrec|cbn; unfold GoInt.max_int; lia|].
      change (maxFrames r59) with (maxFrames r1). rewrite Hmax. cbn. lia. }
    exists w, (fst (stopRecording (with_framesSinceMotion 60 r1))),
              (snd (stopRecording (with_framesSinceMotion 60 r1))).
    split; [exact Hw|]. split; [exact H60|].
    split; [reflexivity|]. split; [reflexivity|]. split.
    + unfold stopRecording. cbn [writer with_framesSinceMotion fst snd].
      rewrite Hw. cbn [app List.filter isWriterClose].
      now destruct (negb _).
    + intros n. rewrite updates_add, H60.
      rewrite updates_idle by reflexivity.
      now rewrite app_nil_r, <- app_assoc.
Qed.

(** C4: a [StartRecording] that comes right after a successful one
    returns success, performs no effect at all (no directory, no writer,
    no write, no log line) and returns the recorder unchanged. *)
Theorem StartRecording_twice_is_idempotent env1 env2 r r1 e1 :
  StartRecording env1 r = (r1, e1, None) ->
  StartRecording env2 r1 = (r1, [], None).
Proof.
  intros Hstart.
  assert (Hrec : isRecording r1 = true).
  { destruct (isRecording r) eqn:Hr.
    - unfold StartRecording in Hstart. rewrite Hr in Hstart.
      injection Hstart as <- _. exact Hr.
    - now destruct (StartRecording_success env1 r r1 e1 Hr Hstart)
        as (w & _ & Hrec & _). }
  unfold StartRecording. now rewrite Hrec.
Qed.

(** C5 (as amended): [OnMotion] sets the counter to 0 and touches nothing
    else; and along every endless schedule of [Update] and [OnMotion]
    calls in which every run of consecutive [Update]s is shorter than
    int(fps) * postBufferSeconds, a recorder that starts recording with
    counter 0 stays recording for ever and closes nothing. *)
Theorem motion_keeps_recording r (sched : nat -> Tick) :
  isRecording r = true ->
  framesSinceMotion r = 0 ->
  (forall i : nat, exists j : nat,
      (i <= j)%nat /\ Z.of_nat j < Z.of_nat i + maxFrames r
      /\ sched j = TickOnMotion) ->
  (forall r', OnMotion r' = with_framesSinceMotion 0 r')
  /\ forall n,
       isRecording (fst (after sched n r)) = true
       /\ writer (fst (after sched n r)) = writer r
       /\ snd (after sched n r) = [].
Proof.
  intros Hrec Hzero Hquiet. split; [reflexivity|].
  assert (Inv : forall n, exists c : nat,
             after sched n r = (with_framesSinceMotion (Z.of_nat c) r, [])
             /\ (c <= n)%nat
             /\ forall j, (n - c <= j < n)%nat -> sched j = TickUpdate).
  { induction n as [|n (c & Hn & Hcn & Hrun)].
    - exists 0%nat. cbn [after Z.of_nat]. rewrite <- Hzero at 1.
      rewrite with_framesSinceMotion_same. repeat split; [lia|]. intros j Hj. lia.
    - cbn [after]. rewrite Hn. destruct (sched n) eqn:Hs; cbn [tick].
      + assert (Hlt : Z.of_nat c + 1 < maxFrames r).
        { destruct (Hquiet (n - c)%nat) as (j & Hj1 & Hj2 & Hj3).
          destruct (Nat.lt_ge_cases j n) as [Hjn|Hjn].
          - rewrite Hrun in Hj3 by lia. discriminate.
          - destruct (Nat.eq_dec j n) as [->|Hne]; [congruence|]. lia. }
        set (rc := with_framesSinceMotion (Z.of_nat c) r).
        rewrite (Update_below rc); [|exact Hrec|cbn; lia|exact Hlt].
        exists (S c). split; [|split; [lia|]].
        * cbn [framesSinceMotion rc with_framesSinceMotion app].
          unfold with_framesSinceMotion at 1. cbn.
          replace (Z.of_nat c + 1) with (Z.of_nat (S c)) by lia. reflexivity.
        * intros j Hj. destruct (Nat.eq_dec j n) as [->|Hne]; [exact Hs|].
          apply Hrun. lia.
      + exists 0%nat. split; [reflexivity|]. split; [lia|]. intros j Hj. lia. }
  intros n. destruct (Inv n) as (c & -> & _). cbn. auto.
Qed.

(** C10: [Stop] on an idle recorder whose current-file path is not empty
    returns the recorder unchanged (not recording, no writer) but logs
    and starts the conversion of that file; hence two [Stop]s in a row
    start the conversion of the same file twice. *)
Theorem Stop_when_idle_converts_again r :
  currentFile r <> "" ->
  (isRecording r = false -> writer r = None ->
     Stop r = (r, [LogPrintf (LogStopped (recordingStart r) (currentFile r));
                   GoConvertAVItoMP4 (currentFile r)]))
  /\ (let '(r1, e1) := Stop r in
      isRecording r1 = false /\ writer r1 = None
      /\ In (GoConvertAVItoMP4 (currentFile r)) e1
      /\ Stop r1 = (r1, [LogPrintf (LogStopped (recordingStart r) (currentFile r));
                         GoConvertAVItoMP4 (currentFile r)])).
Proof.
  intros Hfile.
  assert (Hneq : negb (String.eqb (currentFile r) "") = true).
  { destruct (String.eqb_spec (currentFile r) ""); [contradiction|reflexivity]. }
  split.
  - intros Hidle Hw. unfold Stop, stopRecording.
    rewrite (with_stopped_idle r Hidle Hw), Hw, Hneq. reflexivity.
  - unfold Stop, stopRecording. cbn [currentFile with_stopped writer recordingStart].
    rewrite Hneq. repeat split. rewrite !in_app_iff. right. right. now left.
Qed.

End PostRoll.

(** ** Capacity, the nil ring and failures *)

Section Capacity.
Context {Mat : Type} `{Platform Mat}.
Import recorder api.

Implicit Types (r : VideoRecorder Mat).

Lemma AddFrame_preBuffer frame wf r r' e :
  AddFrame frame wf r = Returned (r', e) ->
  exists v rest, preBuffer r = v :: rest /\ preBuffer r' = rest ++ [Some frame].
Proof.
  unfold AddFrame. destruct (preBuffer r) as [|v rest]; [discriminate|].
  cbn. intros [= <- _]. eauto.
Qed.

Lemma Update_preBuffer r : preBuffer (fst (fst (Update r))) = preBuffer r.
Proof.
  unfold Update. destruct (isRecording r); [|reflexivity]. cbn [negb].
  now destruct (_ <=? _).
Qed.

Lemma step_preserves_Len c r r' e :
  step c r = Returned (r', e) ->
  ring.Len (preBuffer r') = ring.Len (preBuffer r).
Proof.
  destruct c as [frame wf|env| | | |]; cbn [step].
  - intros Hadd. destruct (AddFrame_preBuffer _ _ _ _ _ Hadd) as (v & rest & -> & ->).
    unfold ring.Len. rewrite length_app. cbn. lia.
  - pose proof (StartRecording_preBuffer env r) as P.
    destruct (StartRecording env r) as [[r1 e1] err]. intros [= <- _].
    now rewrite <- P.
  - now intros [= <- _].
  - pose proof (Update_preBuffer r) as P.
    destruct (Update r) as [[r1 e1] b]. intros [= <- _]. now rewrite <- P.
  - now intros [= <- _].
  - now intros [= <- _].
Qed.

Lemma run_preserves_Len cs : forall r r' e,
  run cs r = Returned (r', e) ->
  ring.Len (preBuffer r') = ring.Len (preBuffer r).
Proof.
  induction cs as [|c cs IH]; intros r r' e; cbn [run].
  - now intros [= <- _].
  - destruct (step c r) as [[r1 e1]|] eqn:Hstep; [|discriminate].
    cbn [obind fst snd].
    destruct (run cs r1) as [[r2 e2]|] eqn:Hrun; [|discriminate].
    cbn [obind fst snd]. intros [= <- _].
    rewrite (IH _ _ _ Hrun). exact (step_preserves_Len _ _ _ _ Hstep).
Qed.

Lemma specRound_whole (q : Q) (k : Z) :
  (q == inject_Z k)%Q -> 0 <= k -> specRound q = k.
Proof.
  intros Hq Hk. unfold specRound.
  assert (Hnum : 0 <= Qnum q).
  { unfold Qeq, inject_Z in Hq. cbn [Qnum Qden] in Hq. nia. }
  destruct (Z.leb_spec 0 (Qnum q)); [|lia].
  rewrite (Qfloor_comp _ (inject_Z k + (1 # 2))) by now rewrite Hq.
  unfold Qfloor, Qplus, inject_Z. cbn [Qnum Qden].
  replace (k * 2 + 1 * 1) with (1 + k * 2) by lia.
  change (Z.pos (1 * 2)) with 2.
  rewrite Z.div_add by lia. reflexivity.
Qed.

(** C8 (as amended): the ring built by [NewRecorder] has int(fps) *
    preBufferSeconds slots -- the frame rate is truncated before the
    multiplication, and a product that is not positive gives no slot --
    and no sequence of calls on the recorder ever changes that number.
    It coincides with round(fps * preBufferSeconds) when fps is a whole
    non-negative [int] and the product is a non-negative [int]. *)
Theorem capacity_is_truncated_product
    (name path : string) (fps : Q) (pre post : Z) :
  let r0 := NewRecorder name path fps pre post in
  ring.Len (preBuffer r0) = Z.to_nat (GoInt.mul (GoInt.of_float64 fps) pre)
  /\ (forall cs r e,
        run cs r0 = Returned (r, e) ->
        ring.Len (preBuffer r) = ring.Len (preBuffer r0))
  /\ (forall n : Z,
        (fps == inject_Z n)%Q -> 0 <= n <= GoInt.max_int -> 0 <= pre ->
        n * pre <= GoInt.max_int ->
        ring.Len (preBuffer r0)
        = Z.to_nat (specRound (fps * inject_Z pre))).
Proof.
  intros r0. split; [apply New_Len|]. split.
  - intros cs r e. apply run_preserves_Len.
  - intros n Hfps Hn Hpre Hmax. unfold r0, NewRecorder. cbn [preBuffer].
    rewrite New_Len.
    assert (Hin : GoInt.in_range n = true).
    { unfold GoInt.in_range, GoInt.min_int, GoInt.max_int in *.
      destruct (Z.leb_spec (- 2 ^ 63) n), (Z.leb_spec n (2 ^ 63 - 1));
        cbn; try reflexivity; lia. }
    rewrite (of_float64_whole n fps Hfps Hin).
    unfold GoInt.mul. rewrite wrap_in_range
      by (unfold GoInt.min_int, GoInt.max_int in *; nia).
    rewrite (specRound_whole (fps * inject_Z pre) (n * pre)); [reflexivity| |nia].
    rewrite Hfps. unfold Qeq, Qmult, inject_Z. cbn. lia.
Qed.

End Capacity.

Section Failures.
Context {Mat : Type} `{Platform Mat}.
Import recorder api.

Implicit Types (r : VideoRecorder Mat).

Lemma probeDims_unoccupied (l : ring.Ring Mat) :
  Forall (fun v => v = None) l -> fold_left probeDims l (0, 0) = (0, 0).
Proof.
  induction 1 as [|v l -> _ IH]; [reflexivity|]. exact IH.
Qed.

Lemma StartRecording_unoccupied env r :
  isRecording r = false ->
  Forall (fun v => v = None) (preBuffer r) ->
  exists e err,
    StartRecording env r
    = ((if mkdirAllFails env then r
        else with_currentFile
               (filepath_Join (OutputPath r)
                  (Name r +:+ "_" +:+ timestamp env +:+ ".avi")) r),
       e, Some err)
    /\ List.filter isLog e = []
    /\ (mkdirAllFails env = true -> err = ErrCreateOutputDir)
    /\ (mkdirAllFails env = false -> err = ErrNoValidFrames)
    /\ e = [MkdirAll (OutputPath r)].
Proof.
  intros Hidle Hfree. unfold StartRecording. rewrite Hidle.
  destruct (mkdirAllFails env).
  - eexists _, _. repeat split. discriminate.
  - cbn [preBuffer with_currentFile]. unfold ring.Do.
    rewrite (probeDims_unoccupied _ Hfree). cbn [Z.eqb orb].
    eexists _, _. repeat split. discriminate.
Qed.

Lemma unoccupied_or_occupied (l : ring.Ring Mat) :
  Forall (fun v => v = None) l \/ Exists (fun v => v <> None) l.
Proof.
  induction l as [|v l [IH|IH]].
  - left. constructor.
  - destruct v as [m|].
    + right. constructor. discriminate.
    + left. now constructor.
  - right. now apply Exists_cons_tl.
Qed.

(** A recorder only ever records with a frame in its ring: starting needs
    one, and no call empties a slot. *)
Lemma step_recording_has_frame c r r' e :
  (isRecording r = true -> Exists (fun v => v <> None) (preBuffer r)) ->
  step c r = Returned (r', e) ->
  isRecording r' = true -> Exists (fun v => v <> None) (preBuffer r').
Proof.
  intros Inv. destruct c as [frame wf|env| | | |]; cbn [step].
  - intros Hadd _. destruct (AddFrame_preBuffer _ _ _ _ _ Hadd) as (v & rest & _ & ->).
    apply Exists_app. right. constructor. discriminate.
  - destruct (isRecording r) eqn:Hr.
    + unfold StartRecording. rewrite Hr. intros [= <- _] _. now apply Inv.
    + destruct (unoccupied_or_occupied (preBuffer r)) as [Hfree|Hocc].
      * destruct (StartRecording_unoccupied env r Hr Hfree) as (e0 & err & -> & _).
        intros [= <- _]. destruct (mkdirAllFails env); cbn; congruence.
      * pose proof (StartRecording_preBuffer env r) as P.
        destruct (StartRecording env r) as [[r1 e1] err1]. intros [= <- _] _.
        cbn [fst] in P. rewrite P.
        apply Exists_exists in Hocc as (v & Hin & Hv).
        apply Exists_exists. eauto.
  - intros [= <- _]. exact Inv.
  - pose proof (Update_preBuffer r) as P. unfold Update in *.
    destruct (isRecording r) eqn:Hr; cbn [negb] in *.
    + destruct (_ <=? _); cbn in *; intros [= <- _]; cbn; [discriminate|].
      intros _. now apply Inv.
    + intros [= <- _]. congruence.
  - intros [= <- _]. cbn. discriminate.
  - intros [= <- _]. cbn. discriminate.
Qed.

Lemma run_recording_has_frame cs : forall r r' e,
  (isRecording r = true -> Exists (fun v => v <> None) (preBuffer r)) ->
  run cs r = Returned (r', e) ->
  isRecording r' = true -> Exists (fun v => v <> None) (preBuffer r').
Proof.
  induction cs as [|c cs IH]; intros r r' e Inv; cbn [run].
  - intros [= <- _]. exact Inv.
  - destruct (step c r) as [[r1 e1]|] eqn:Hstep; [|discriminate].
    cbn [obind fst snd].
    destruct (run cs r1) as [[r2 e2]|] eqn:Hrun; [|discriminate].
    cbn [obind fst snd]. intros [= <- _].
    apply (IH r1 r2 e2); [|exact Hrun].
    exact (step_recording_has_frame c r r1 e1 Inv Hstep).
Qed.

(** C3 (as amended): on a recorder whose ring has no occupied slot -- and
    which is idle, as every recorder is that was built by [NewRecorder]
    and has no occupied slot -- [StartRecording] returns an error and the
    recorder stays idle with no writer opened, whatever the capacity, zero
    included; the error is "no valid frames in pre-buffer" unless creating
    the output directory failed first.  The one thing the call did was to
    ask for the output directory: no sink was opened, nothing was written
    and nothing logged, and the ring is as it was. *)
Theorem StartRecording_needs_a_buffered_frame env r :
  Forall (fun v => v = None) (preBuffer r) ->
  (isRecording r = false
   \/ exists name path fps pre post cs e0,
        run cs (NewRecorder name path fps pre post) = Returned (r, e0)) ->
  exists r' e err,
    StartRecording env r = (r', e, Some err)
    /\ isRecording r' = false
    /\ writer r' = writer r
    /\ List.filter isLog e = []
    /\ (mkdirAllFails env = true -> err = ErrCreateOutputDir)
    /\ (mkdirAllFails env = false -> err = ErrNoValidFrames)
    /\ e = [MkdirAll (OutputPath r)]
    /\ (forall w, ~ In (VideoWriterFile w) e)
    /\ sinkFrames e = []
    /\ preBuffer r' = preBuffer r.
Proof.
  intros Hfree Hstate.
  assert (Hidle : isRecording r = false).
  { destruct Hstate as [Hidle|(name & path & fps & pre & post & cs & e0 & Hrun)];
      [exact Hidle|].
    destruct (isRecording r) eqn:Hr; [|reflexivity].
    assert (Hocc : Exists (fun v => v <> None) (preBuffer r)).
    { apply (run_recording_has_frame cs (NewRecorder name path fps pre post) r e0);
        [discriminate|exact Hrun|exact Hr]. }
    apply Exists_exists in Hocc as (v & Hin & Hv).
    rewrite Forall_forall in Hfree. now destruct (Hv (Hfree v Hin)). }
  destruct (StartRecording_unoccupied env r Hidle Hfree)
    as (e & err & Hs & Hlog & Hm1 & Hm2 & He).
  eexists _, e, err. split; [exact Hs|]. subst e.
  assert (Hnone : forall w,
             ~ In (VideoWriterFile (Mat:=Mat) w) [MkdirAll (OutputPath r)])
    by (intros w [Hw|[]]; discriminate Hw).
  destruct (mkdirAllFails env); cbn [isRecording writer preBuffer with_currentFile];
    repeat split; auto.
Qed.

(** C6 (as amended): what [Write] answers does not reach the state
    machine: [AddFrame] returns the same recorder whether the write
    failed or not, still recording on the same writer, and logs nothing
    and closes nothing.  A writer that cannot be opened makes
    [StartRecording] return an error and leaves the recorder idle with no
    writer; once the open was attempted that error is one of the two
    writer errors. *)
Theorem sink_failures r :
  (forall frame wf r' e,
      AddFrame frame wf r = Returned (r', e) ->
      isRecording r' = isRecording r
      /\ writer r' = writer r
      /\ List.filter isLog e = []
      /\ List.filter isWriterClose e = []
      /\ exists e0, AddFrame frame (negb wf) r = Returned (r', e0))
  /\ (forall env,
        isRecording r = false -> writer r = None ->
        openResult env <> Opened ->
        exists r' e err,
          StartRecording env r = (r', e, Some err)
          /\ isRecording r' = false /\ writer r' = None
          /\ (forall w, In (VideoWriterFile w) e ->
                err = ErrOpenVideoWriter \/ err = ErrWriterNotOpened)).
Proof.
  split.
  - intros frame wf r' e. unfold AddFrame.
    destruct (preBuffer r) as [|v rest]; [discriminate|]. cbn.
    intros [= <- <-]. cbn. repeat split.
    + destruct v as [m|], (writer r), (isRecording r), (Empty frame);
        cbn; try destruct (Empty m); reflexivity.
    + destruct v as [m|], (writer r), (isRecording r), (Empty frame);
        cbn; try destruct (Empty m); reflexivity.
    + eexists. reflexivity.
  - intros env Hidle Hw Hopen. unfold StartRecording. rewrite Hidle.
    destruct (mkdirAllFails env).
    { eexists _, _, _. repeat split; [exact Hidle|exact Hw|].
      intros w [[=]|[]]. }
    destruct (ring.Do probeDims _ _) as [width height].
    destruct ((width =? 0) || (height =? 0)).
    { eexists _, _, _. repeat split; [exact Hidle|exact Hw|].
      intros w [[=]|[]]. }
    destruct (openResult env); [| |contradiction];
      (eexists _, _, _; repeat split; [exact Hidle|exact Hw|]; auto).
Qed.

Lemma ring_Do_nil {S : Type} (f : S -> option Mat -> S) (s : S) :
  ring.Do f [] s = s.
Proof. reflexivity. Qed.

(** C9: when int(fps) * preBufferSeconds <= 0 the ring of a new recorder
    is nil and [AddFrame] panics on it, now and after any other calls;
    [StartRecording], [OnMotion], [Update], [Stop] and [Close] all
    return, the walks over the nil ring doing nothing ([Close] releases
    no frame, [StartRecording] finds no frame and reports it). *)
Theorem nil_ring_panics_only_in_AddFrame
    (name path : string) (fps : Q) (pre post : Z) :
  GoInt.mul (GoInt.of_float64 fps) pre <= 0 ->
  let r0 := NewRecorder name path fps pre post in
  preBuffer r0 = []
  /\ (forall frame wf, AddFrame frame wf r0 = Panicked)
  /\ (forall c r,
        (forall frame wf, c <> CallAddFrame frame wf) ->
        exists r' e, step c r = Returned (r', e))
  /\ (forall cs r e frame wf,
        run cs r0 = Returned (r, e) ->
        preBuffer r = [] /\ AddFrame frame wf r = Panicked)
  /\ (forall env, snd (StartRecording env r0) <> None)
  /\ List.filter (fun e => match e with MatClose _ => true | _ => false end)
       (snd (Close r0)) = [].
Proof.
  intros Hle r0.
  assert (Hnil : preBuffer r0 = []).
  { unfold r0, NewRecorder, ring.New. cbn [preBuffer].
    destruct (Z.leb_spec (GoInt.mul (GoInt.of_float64 fps) pre) 0); [reflexivity|lia]. }
  split; [exact Hnil|]. split; [|split; [|split; [|split]]].
  - intros frame wf. unfold AddFrame. now rewrite Hnil.
  - intros c r Hc. destruct c as [frame wf|env| | | |]; cbn [step].
    + now destruct (Hc frame wf).
    + destruct (StartRecording env r) as [[r1 e1] err]. eauto.
    + eauto.
    + destruct (Update r) as [[r1 e1] b]. eauto.
    + destruct (Stop r) as [r1 e1]. eauto.
    + destruct (Close r) as [r1 e1]. eauto.
  - intros cs r e frame wf Hrun.
    pose proof (run_preserves_Len cs r0 r e Hrun) as HL.
    rewrite Hnil in HL. unfold ring.Len in HL.
    assert (Hr : preBuffer r = []) by (destruct (preBuffer r); [reflexivity|discriminate]).
    split; [exact Hr|]. unfold AddFrame. now rewrite Hr.
  - intros env. unfold StartRecording. cbn [isRecording r0 NewRecorder].
    destruct (mkdirAllFails env); [discriminate|].
    cbn [preBuffer with_currentFile]. fold r0. rewrite Hnil.
    rewrite ring_Do_nil. cbn. discriminate.
  - unfold Close, Stop, stopRecording. cbn [preBuffer with_stopped writer r0 NewRecorder].
    fold r0. change (preBuffer r0) with (preBuffer r0). 
    replace (ring.New (GoInt.mul (GoInt.of_float64 fps) pre)) with (@nil (option Mat))
      by (symmetry; exact Hnil).
    rewrite ring_Do_nil. reflexivity.
Qed.

End Failures.

(** ** The fleet manager *)

Section Fleet.
Context {Mat : Type} `{Platform Mat}.
Import surveillance.

(** A running monitor whose stop channel is still open is stopped: the
    channel is closed first and the flag cleared. *)
Lemma stopMonitor_running (monitor : CameraMonitor Mat) :
  running monitor = true ->
  stopChanClosed monitor = false ->
  exists monitor' e,
    stopMonitor monitor = Returned (monitor', ChanClose (Name monitor) :: e)
    /\ stopChanClosed monitor' = true /\ running monitor' = false.
Proof.
  intros Hrun Hopen. unfold stopMonitor. rewrite Hrun, Hopen. cbn [negb].
  destruct (stream monitor) as [s|]; [destruct (camera.Close s)|];
    (destruct (recorder monitor) as [rec|]; [destruct (recorder.Close rec)|]);
    eexists _, _; cbn; repeat split.
Qed.

Lemma stopMonitor_returned (monitor monitor' : CameraMonitor Mat) e :
  running monitor = true ->
  stopMonitor monitor = Returned (monitor', e) ->
  stopChanClosed monitor = false.
Proof.
  intros Hrun. unfold stopMonitor. rewrite Hrun. cbn [negb].
  now destruct (stopChanClosed monitor).
Qed.

(** C7 (as amended): [StopCamera] answers "not found" for a name the
    registry does not hold and "is not running" for a name that is still
    registered with a monitor that is not running (as [Manager.Stop]
    leaves it), leaving the manager as it was in both cases; for a running
    monitor it succeeds, and every success has closed the monitor's stop
    channel (which ends its loop), cleared its running flag and deleted
    its name from the registry.  A camera that [StopCamera] has stopped is
    therefore unknown afterwards: stopping it again answers "not found",
    not "is not running". *)
Theorem StopCamera_outcomes (cameraName : string) (m : Manager Mat) :
  (monitors m !! cameraName = None ->
     StopCamera cameraName m = Returned (m, [], Some (ErrNotFound cameraName)))
  /\ (forall p monitor,
        monitors m !! cameraName = Some p ->
        store m !! p = Some monitor ->
        running monitor = false ->
        StopCamera cameraName m
        = Returned (m, [], Some (ErrNotRunning cameraName)))
  /\ (forall p monitor,
        monitors m !! cameraName = Some p ->
        store m !! p = Some monitor ->
        running monitor = true ->
        stopChanClosed monitor = false ->
        exists m' e, StopCamera cameraName m = Returned (m', e, None))
  /\ (forall m' e,
        StopCamera cameraName m = Returned (m', e, None) ->
        exists p monitor monitor',
          monitors m !! cameraName = Some p
          /\ store m !! p = Some monitor
          /\ running monitor = true
          /\ monitors m' = delete cameraName (monitors m)
          /\ monitors m' !! cameraName = None
          /\ store m' !! p = Some monitor'
          /\ stopChanClosed monitor' = true
          /\ running monitor' = false
          /\ In (ChanClose (Name monitor)) e)
  /\ (forall m' e,
        StopCamera cameraName m = Returned (m', e, None) ->
        StopCamera cameraName m'
        = Returned (m', [], Some (ErrNotFound cameraName))).
Proof.
  split; [|split; [|split; [|split]]].
  - intros Hnone. unfold StopCamera. now rewrite Hnone.
  - intros p monitor Hp Hmon Hrun. unfold StopCamera.
    now rewrite Hp, Hmon, Hrun.
  - intros p monitor Hp Hmon Hrun Hopen. unfold StopCamera.
    rewrite Hp, Hmon, Hrun. cbn [negb].
    destruct (stopMonitor_running monitor Hrun Hopen) as (monitor' & e & -> & _).
    cbn [obind]. eauto.
  - intros m' e. unfold StopCamera.
    destruct (monitors m !! cameraName) as [p|] eqn:Hp; [|discriminate].
    destruct (store m !! p) as [monitor|] eqn:Hmon; [|discriminate].
    destruct (running monitor) eqn:Hrun; [|discriminate]. cbn [negb].
    destruct (stopMonitor monitor) as [[monitor' e']|] eqn:Hstop; [|discriminate].
    cbn [obind fst snd]. intros [= <- <-].
    pose proof (stopMonitor_returned _ _ _ Hrun Hstop) as Hopen.
    destruct (stopMonitor_running monitor Hrun Hopen) as (mon2 & e2 & Hstop2 & Hc & Hr).
    rewrite Hstop in Hstop2. injection Hstop2 as -> ->.
    exists p, monitor, mon2. cbn [monitors store].
    repeat split; try assumption.
    + apply lookup_delete_eq.
    + apply lookup_insert_eq.
    + rewrite in_app_iff. left. now left.
  - intros m' e. unfold StopCamera at 1.
    destruct (monitors m !! cameraName) as [p|] eqn:Hp; [|discriminate].
    destruct (store m !! p) as [monitor|] eqn:Hmon; [|discriminate].
    destruct (running monitor) eqn:Hrun; [|discriminate]. cbn [negb].
    destruct (stopMonitor monitor) as [[monitor' e']|] eqn:Hstop; [|discriminate].
    cbn [obind fst snd]. intros [= <- <-].
    unfold StopCamera. cbn [monitors]. now rewrite lookup_delete_eq.
Qed.

End Fleet.

(** * The properties on concrete recorders *)

Section Examples.
Import recorder api testbed.



Lemma post_roll_witness :
  (FPS armed == 30)%Q
  /\ PostBufferSeconds armed = 2
  /\ isRecording armed = false
  /\ snd (StartRecording calmEnv armed) = None
  /\ isRecording (fst (fst (updates 59 (started armed)))) = true
  /\ isRecording (fst (fst (updates 60 (started armed)))) = false
  /\ snd (updates 61 (started armed)) = replicate 59 false ++ [true; false].
Proof.
  assert (Hs : StartRecording calmEnv armed
               = (started armed, snd (fst (StartRecording calmEnv armed)), None))
    by (vm_compute; reflexivity).
  assert (Hf : (FPS armed == 30)%Q) by reflexivity.
  destruct (post_roll_expires_on_60th_update calmEnv armed _ _ Hf eq_refl eq_refl Hs)
    as (_ & Hbelow & w & r60 & e60 & _ & H60 & Hidle & _ & _ & Hlater).
  split; [exact Hf|]. split; [reflexivity|]. split; [reflexivity|].
  split; [vm_compute; reflexivity|]. split; [|split].
  - destruct (Hbelow 59%nat (le_n _)) as (rk & -> & Hrec). exact Hrec.
  - rewrite H60. exact Hidle.
  - exact (f_equal snd (Hlater 1%nat)).
Defined.

Lemma StartRecording_twice_witness :
  snd (StartRecording calmEnv armed) = None
  /\ StartRecording calmEnv (started armed) = (started armed, [], None).
Proof.
  split; [vm_compute; reflexivity|].
  apply (StartRecording_twice_is_idempotent calmEnv calmEnv armed (started armed)
           (snd (fst (StartRecording calmEnv armed)))).
  vm_compute. reflexivity.
Defined.

Lemma alternating_has_motion (i : nat) :
  exists j : nat,
    (i <= j)%nat /\ Z.of_nat j < Z.of_nat i + 60
    /\ alternating j = TickOnMotion.
Proof.
  unfold alternating. destruct (Nat.even i) eqn:Hi.
  - exists (S i). rewrite Nat.even_succ, <- Nat.negb_even, Hi.
    repeat split; lia.
  - exists i. rewrite Hi. repeat split; lia.
Defined.

Lemma motion_witness :
  isRecording (started armed) = true
  /\ framesSinceMotion (started armed) = 0
  /\ maxFrames (started armed) = 60
  /\ forall n, isRecording (fst (after alternating n (started armed))) = true.
Proof.
  split; [reflexivity|]. split; [reflexivity|]. split; [reflexivity|].
  intros n.
  destruct (motion_keeps_recording (started armed) alternating eq_refl eq_refl
              alternating_has_motion) as (_ & Hall).
  exact (proj1 (Hall n)).
Defined.

(** The statement of C5 fails for a fractional frame rate: at 2.5 fps and
    2 s of post-roll, runs of four [Update]s are shorter than
    fps * postBufferSeconds = 5, yet the fourth [Update] stops the
    recording, because the code compares with int(2.5) * 2 = 4. *)
Lemma fractional_fps_stops_early :
  isRecording (started slow) = true
  /\ framesSinceMotion (started slow) = 0
  /\ (forall i : nat, exists j : nat,
        (i <= j)%nat
        /\ (inject_Z (Z.of_nat j)
            < inject_Z (Z.of_nat i)
              + FPS (started slow) * inject_Z (PostBufferSeconds (started slow)))%Q
        /\ fourQuiet j = TickOnMotion)
  /\ isRecording (fst (after fourQuiet 4 (started slow))) = false.
Proof.
  split; [reflexivity|]. split; [reflexivity|]. split; [|reflexivity].
  intros i. exists (Nat.max i 4). split; [lia|]. split.
  - change (FPS (started slow)) with (5 # 2)%Q.
    change (PostBufferSeconds (started slow)) with 2.
    unfold Qlt, Qplus, Qmult, inject_Z. cbn [Qnum Qden]. lia.
  - unfold fourQuiet. destruct (Nat.ltb_spec (Nat.max i 4) 4); [lia|reflexivity].
Qed.

Lemma Stop_again_witness :
  let r := fst (Stop (started armed)) in
  currentFile r <> ""
  /\ isRecording r = false /\ writer r = None
  /\ Stop r = (r, [LogPrintf (LogStopped 1000 "out/cam_20240102_030405.avi");
                    GoConvertAVItoMP4 "out/cam_20240102_030405.avi"]).
Proof.
  intros r.
  assert (Hfile : currentFile r <> "") by (vm_compute; discriminate).
  split; [exact Hfile|]. split; [reflexivity|]. split; [reflexivity|].
  exact (proj1 (Stop_when_idle_converts_again r Hfile) eq_refl eq_refl).
Defined.

(** A ring of 30 free slots: no recording can start, and all the call
    does is to ask for the directory. *)
Lemma needs_frame_witness :
  isRecording (fresh 30 1 2) = false
  /\ Forall (fun v => v = None) (preBuffer (fresh 30 1 2))
  /\ snd (StartRecording calmEnv (fresh 30 1 2)) = Some ErrNoValidFrames
  /\ snd (fst (StartRecording calmEnv (fresh 30 1 2))) = [MkdirAll "out"].
Proof.
  assert (Hfree : Forall (fun v => v = None) (preBuffer (fresh 30 1 2))).
  { vm_compute. repeat constructor. }
  split; [reflexivity|]. split; [exact Hfree|].
  destruct (StartRecording_needs_a_buffered_frame calmEnv (fresh 30 1 2) Hfree
              (or_introl eq_refl))
    as (r' & e & err & Hs & _ & _ & _ & _ & Herr & He & _).
  rewrite Hs. cbn [fst snd]. split; [|exact He]. f_equal. now apply Herr.
Defined.

(** The statement of C3 fails at capacity 0: with preBufferSeconds = 0 the
    ring is nil, and [StartRecording] still reports that the pre-buffer
    holds no valid frame, although directory and writer would open. *)
Lemma capacity_zero_cannot_start :
  ring.Len (preBuffer (fresh 30 0 2)) = 0%nat
  /\ mkdirAllFails calmEnv = false
  /\ openResult calmEnv = Opened
  /\ snd (StartRecording calmEnv (fresh 30 0 2)) = Some ErrNoValidFrames
  /\ snd (StartRecording calmEnv (fresh 30 0 2)) <> None
  /\ isRecording (fst (fst (StartRecording calmEnv (fresh 30 0 2)))) = false
  /\ writer (fst (fst (StartRecording calmEnv (fresh 30 0 2)))) = None
  /\ snd (fst (StartRecording calmEnv (fresh 30 0 2))) = [MkdirAll "out"].
Proof.
  repeat split; try reflexivity. vm_compute. discriminate.
Qed.

Lemma sink_failures_witness :
  isRecording (started armed) = true
  /\ (exists e, AddFrame (frame 2) true (started armed)
                = Returned (fed [frame 2] (started armed), e))
  /\ isRecording (fed [frame 2] (started armed)) = true
  /\ writer (fed [frame 2] (started armed)) = writer (started armed).
Proof.
  assert (Hadd : AddFrame (frame 2) true (started armed)
                 = Returned (fed [frame 2] (started armed),
                             [WriterWrite
                                {| vw_name := "out/cam_20240102_030405.avi";
                                   vw_fps := 30; vw_width := 640; vw_height := 480 |}
                                (frame 2) true]))
    by (vm_compute; reflexivity).
  destruct (proj1 (sink_failures (started armed)) (frame 2) true _ _ Hadd)
    as (Hrec & Hw & _).
  split; [reflexivity|]. split; [eauto|]. split; [|exact Hw].
  rewrite Hrec. reflexivity.
Defined.

(** The statement of C6 fails for a failing write: the recorder is
    recording, the sink answers the write of a frame with an error, and
    after [AddFrame] the recorder is still recording on the same writer;
    the only effect is that write -- nothing is logged, nothing closed. *)
Lemma write_failure_is_ignored :
  isRecording (started armed) = true
  /\ AddFrame (frame 2) true (started armed)
     = Returned (fed [frame 2] (started armed),
                 [WriterWrite
                    {| vw_name := "out/cam_20240102_030405.avi";
                       vw_fps := 30; vw_width := 640; vw_height := 480 |}
                    (frame 2) true])
  /\ isRecording (fed [frame 2] (started armed)) = true
  /\ writer (fed [frame 2] (started armed)) = writer (started armed)
  /\ writer (started armed) <> None.
Proof.
  repeat split; try (vm_compute; reflexivity). vm_compute. discriminate.
Qed.

Lemma capacity_witness :
  (30 == inject_Z 30)%Q
  /\ ring.Len (preBuffer (fresh 30 5 10)) = 150%nat
  /\ ring.Len (preBuffer (fed [frame 1; frame 2] (fresh 30 5 10))) = 150%nat
  /\ Z.to_nat (specRound (30 * inject_Z 5)) = 150%nat.
Proof.
  destruct (capacity_is_truncated_product (Mat:=Img) "cam" "out" 30 5 10)
    as (Hlen & Hkeep & Hround).
  assert (Hq : (30 == inject_Z 30)%Q) by reflexivity.
  split; [exact Hq|]. split; [|split].
  - unfold fresh. rewrite Hlen. reflexivity.
  - unfold fed, fresh.
    destruct (addFrames [frame 1; frame 2] (NewRecorder "cam" "out" 30 5 10))
      as [[r e]|] eqn:Hrun; cbn [fst].
    + rewrite (Hkeep _ r e Hrun), Hlen. reflexivity.
    + rewrite Hlen. reflexivity.
  - rewrite <- (Hround 30 Hq); [rewrite Hlen; reflexivity| | |];
      unfold GoInt.max_int; lia.
Defined.

(** The statement of C8 fails for a fractional frame rate: at 2.5 fps and
    2 s of pre-buffer the ring has int(2.5) * 2 = 4 slots, while
    round(2.5 * 2) = 5. *)
Lemma capacity_is_not_the_rounded_product :
  ring.Len (preBuffer (fresh (5 # 2) 2 2)) = 4%nat
  /\ specRound ((5 # 2) * inject_Z 2) = 5
  /\ ring.Len (preBuffer (fresh (5 # 2) 2 2))
     <> Z.to_nat (specRound ((5 # 2) * inject_Z 2)).
Proof.
  repeat split; try reflexivity. vm_compute. discriminate.
Qed.

Lemma nil_ring_witness :
  GoInt.mul (GoInt.of_float64 30) 0 <= 0
  /\ preBuffer (fresh 30 0 2) = []
  /\ AddFrame (frame 1) false (fresh 30 0 2) = Panicked
  /\ (exists r' e, step CallClose (fresh 30 0 2) = Returned (r', e))
  /\ (exists r' e, step CallUpdate (fresh 30 0 2) = Returned (r', e)).
Proof.
  assert (Hle : GoInt.mul (GoInt.of_float64 30) 0 <= 0) by (vm_compute; discriminate).
  destruct (nil_ring_panics_only_in_AddFrame (Mat:=Img) "cam" "out" 30 0 2 Hle)
    as (Hnil & Hpanic & Htotal & _).
  split; [exact Hle|]. split; [exact Hnil|]. split; [apply Hpanic|].
  split; apply Htotal; discriminate.
Defined.

Lemma StopCamera_witness :
  surveillance.monitors fleet !! "attic" = None
  /\ surveillance.StopCamera "attic" fleet
     = Returned (fleet, [], Some (surveillance.ErrNotFound "attic"))
  /\ surveillance.StopCamera "porch" fleet
     = Returned (fleet, [], Some (surveillance.ErrNotRunning "porch"))
  /\ exists m' e,
       surveillance.StopCamera "garage" fleet = Returned (m', e, None)
       /\ surveillance.monitors m' !! "garage" = None
       /\ In (surveillance.ChanClose "garage") e
       /\ surveillance.StopCamera "garage" m'
          = Returned (m', [], Some (surveillance.ErrNotFound "garage")).
Proof.
  destruct (StopCamera_outcomes (Mat:=Img) "attic" fleet) as (Hnf & _).
  destruct (StopCamera_outcomes (Mat:=Img) "porch" fleet) as (_ & Hnr & _).
  destruct (StopCamera_outcomes (Mat:=Img) "garage" fleet)
    as (_ & _ & Hok & Hpost & Hagain).
  assert (Hattic : surveillance.monitors fleet !! "attic" = None)
    by (vm_compute; reflexivity).
  split; [exact Hattic|]. split; [exact (Hnf Hattic)|]. split.
  - apply (Hnr 2%positive (monitorOf "porch" false)); vm_compute; reflexivity.
  - destruct (Hok 1%positive (monitorOf "garage" true)) as (m' & e & Hstop);
      try (vm_compute; reflexivity).
    exists m', e. split; [exact Hstop|].
    destruct (Hpost m' e Hstop) as (p & monitor & monitor' & Hp & Hmon & _ & _ & Hgone & _ & _ & _ & Hsig).
    split; [exact Hgone|].
    assert (Hg : surveillance.monitors fleet !! "garage" = Some 1%positive)
      by (vm_compute; reflexivity).
    rewrite Hg in Hp. injection Hp as <-.
    assert (Hl : surveillance.store fleet !! 1%positive = Some (monitorOf "garage" true))
      by (vm_compute; reflexivity).
    rewrite Hl in Hmon. injection Hmon as <-.
    split; [exact Hsig|exact (Hagain m' e Hstop)].
Defined.

(** The statement of C7 fails for a camera that [StopCamera] has stopped:
    the name was deleted with the stop, so the monitor is not "known but
    stopped" any more, and stopping it again answers "not found" where
    the statement promises "is not running". *)
Lemma stopped_camera_is_not_found :
  exists m' e,
    surveillance.monitors fleet !! "garage" <> None
    /\ surveillance.StopCamera "garage" fleet = Returned (m', e, None)
    /\ surveillance.StopCamera "garage" m'
       = Returned (m', [], Some (surveillance.ErrNotFound "garage"))
    /\ surveillance.StopCamera "garage" m'
       <> Returned (m', [], Some (surveillance.ErrNotRunning "garage")).
Proof.
  eexists _, _. split; [vm_compute; discriminate|].
  split; [vm_compute; reflexivity|].
  match goal with
  | |- ?a = ?b /\ _ =>
      assert (Hagain : a = b) by (vm_compute; reflexivity);
      split; [exact Hagain|rewrite Hagain; discriminate]
  end.
Qed.

End Examples.

(** * Further properties of the recorder *)

Section Sessions.
Context {Mat : Type} `{Platform Mat}.
Import recorder api trace.

Implicit Types (r : VideoRecorder Mat) (fs : list Mat).

Lemma heldFrames_app (a b : ring.Ring Mat) :
  heldFrames (a ++ b) = heldFrames a ++ heldFrames b.
Proof. unfold heldFrames. now rewrite omap_app, List.filter_app. Qed.

Lemma heldFrames_Some fs : heldFrames (map Some fs) = List.filter nonEmpty fs.
Proof.
  unfold heldFrames. f_equal. induction fs as [|m fs IH]; [reflexivity|].
  cbn. now rewrite IH.
Qed.

Lemma heldFrames_nil_cons (v : option Mat) (l : ring.Ring Mat) :
  heldFrames (v :: l) = [] ->
  (v = None \/ exists m, v = Some m /\ Empty m = true) /\ heldFrames l = [].
Proof.
  unfold heldFrames. destruct v as [m|]; cbn; [|auto].
  unfold nonEmpty at 1. destruct (Empty m) eqn:Hm; cbn; [eauto|discriminate].
Qed.

(** What one [AddFrame] does on a ring that is not nil. *)
Lemma AddFrame_effects frame wf r v rest :
  preBuffer r = v :: rest ->
  exists e,
    AddFrame frame wf r = Returned (with_preBuffer (rest ++ [Some frame]) r, e)
    /\ releasedFrames e = heldFrames [v]
    /\ sinkFrames e
       = (if isRecording r && bool_decide (writer r <> None) && nonEmpty frame
          then [frame] else [])
    /\ Forall (fun w => writer r = Some w) (writeTargets e)
    /\ List.filter isLog e = []
    /\ List.filter isWriterClose e = []
    /\ List.filter isStarted e = [].
Proof.
  intros Hrb. unfold AddFrame. rewrite Hrb. cbn.
  eexists. split; [reflexivity|].
  unfold releasedFrames, sinkFrames, writeTargets, heldFrames, nonEmpty.
  destruct v as [m|], (writer r) as [w|], (isRecording r), (Empty frame);
    cbn; try destruct (Empty m); cbn; repeat split; auto.
Qed.

Lemma addFramesWith_effects (fws : list (Mat * bool)) : forall r,
  preBuffer r <> [] ->
  exists e,
    addFramesWith fws r
    = Returned
        (with_preBuffer
           (drop (length fws) (preBuffer r ++ map Some (map fst fws))) r, e)
    /\ releasedFrames e
         ++ heldFrames (drop (length fws) (preBuffer r ++ map Some (map fst fws)))
       = heldFrames (preBuffer r) ++ List.filter nonEmpty (map fst fws)
    /\ sinkFrames e
       = (if isRecording r && bool_decide (writer r <> None)
          then List.filter nonEmpty (map fst fws) else [])
    /\ Forall (fun w => writer r = Some w) (writeTargets e)
    /\ List.filter isLog e = []
    /\ List.filter isWriterClose e = []
    /\ List.filter isStarted e = [].
Proof.
  induction fws as [|[f wf] fws IH]; intros r Hne.
  - exists []. unfold addFramesWith. cbn [map run length].
    rewrite app_nil_r, drop_0, with_preBuffer_same.
    cbn. rewrite app_nil_r. repeat split; auto.
    now destruct (isRecording r && _).
  - destruct (preBuffer r) as [|v rest] eqn:Hrb; [congruence|].
    destruct (AddFrame_effects f wf r v rest Hrb)
      as (e1 & Hadd & Hrel1 & Hsink1 & Htgt1 & Hlog1 & Hcl1 & Hst1).
    set (r1 := with_preBuffer (rest ++ [Some f]) r).
    destruct (IH r1) as (e2 & Hrun & Hrel2 & Hsink2 & Htgt2 & Hlog2 & Hcl2 & Hst2).
    { cbn. now destruct rest. }
    change (preBuffer r1) with (rest ++ [Some f]) in *.
    change (isRecording r1) with (isRecording r) in *.
    change (writer r1) with (writer r) in *.
    subst r1.
    assert (Hdrop : drop (length ((f, wf) :: fws))
                      ((v :: rest) ++ map Some (map fst ((f, wf) :: fws)))
                    = drop (length fws)
                        ((rest ++ [Some f]) ++ map Some (map fst fws))).
    { cbn. now rewrite <- app_assoc. }
    rewrite Hdrop.
    exists (e1 ++ e2). split; [|split; [|split; [|split; [|split; [|split]]]]].
    + unfold addFramesWith in *. cbn [map run step obind fst snd].
      rewrite Hadd. cbn [obind fst snd]. rewrite Hrun. reflexivity.
    + unfold releasedFrames in *. rewrite omap_app, <- app_assoc, Hrel2.
      rewrite heldFrames_app, app_assoc.
      change (v :: rest) with ([v] ++ rest).
      rewrite heldFrames_app, Hrel1, <- !app_assoc. f_equal. f_equal.
      unfold heldFrames. cbn. unfold nonEmpty at 1 3.
      now destruct (Empty f).
    + unfold sinkFrames in *. rewrite omap_app, Hsink1, Hsink2.
      cbn [map fst List.filter].
      destruct (isRecording r && bool_decide (writer r <> None)); cbn [andb];
        [|reflexivity].
      now destruct (nonEmpty f).
    + unfold writeTargets in *. rewrite omap_app. now apply Forall_app.
    + now rewrite List.filter_app, Hlog1, Hlog2.
    + now rewrite List.filter_app, Hcl1, Hcl2.
    + now rewrite List.filter_app, Hst1, Hst2.
Qed.

Lemma stopRecording_releases_nothing r :
  releasedFrames (snd (stopRecording r)) = [].
Proof.
  unfold stopRecording. cbn [snd]. unfold releasedFrames.
  rewrite !omap_app.
  destruct (writer r), (negb _); reflexivity.
Qed.

Lemma closeBuffered_releases (l : ring.Ring Mat) : forall eff,
  releasedFrames (fold_left closeBuffered l eff)
  = releasedFrames eff ++ heldFrames l.
Proof.
  induction l as [|v l IH]; intros eff; cbn [fold_left].
  - unfold heldFrames. cbn. now rewrite app_nil_r.
  - rewrite IH. change (v :: l) with ([v] ++ l). rewrite heldFrames_app, app_assoc.
    f_equal. unfold closeBuffered, heldFrames, nonEmpty, releasedFrames.
    destruct v as [m|]; cbn; [|now rewrite app_nil_r].
    destruct (Empty m); cbn; [now rewrite app_nil_r|].
    now rewrite omap_app.
Qed.

Lemma Close_releases_held r :
  releasedFrames (snd (Close r)) = heldFrames (preBuffer r).
Proof.
  unfold Close, Stop. pose proof (stopRecording_releases_nothing r) as Hs.
  destruct (stopRecording r) as [r1 e1] eqn:Hstop. cbn [snd] in *.
  unfold ring.Do. rewrite closeBuffered_releases, Hs. cbn [app].
  unfold stopRecording in Hstop. now injection Hstop as <- _.
Qed.

(** X1: every non-empty frame given to a new recorder is released exactly
    once: the frames [AddFrame] evicts, followed by the frames [Close]
    finds in the ring, are the non-empty frames that were added, each once
    and in the order of arrival. *)
Theorem frames_are_released_exactly_once
    (name path : string) (fps : Q) (pre post : Z) fs :
  let r0 := NewRecorder name path fps pre post in
  (1 <= ring.Len (preBuffer r0))%nat ->
  exists r e,
    addFrames fs r0 = Returned (r, e)
    /\ releasedFrames e ++ releasedFrames (snd (Close r))
       = List.filter nonEmpty fs
    /\ sinkFrames e = [].
Proof.
  intros r0 HC.
  assert (Hne : preBuffer r0 <> []).
  { intros E. rewrite E in HC. cbn in HC. lia. }
  destruct (addFramesWith_effects (map (fun f => (f, false)) fs) r0 Hne)
    as (e & Hrun & Hrel & Hsink & _).
  assert (Hfst : map fst (map (fun f : Mat => (f, false)) fs) = fs).
  { rewrite map_map. cbn. apply map_id. }
  rewrite Hfst in *. rewrite length_map in *.
  assert (Hfresh : heldFrames (preBuffer r0) = []).
  { unfold r0, NewRecorder, ring.New. cbn [preBuffer].
    destruct (_ <=? 0); [reflexivity|].
    unfold heldFrames. generalize (Z.to_nat (GoInt.mul (GoInt.of_float64 fps) pre)).
    intros n. induction n as [|n IH]; [reflexivity|exact IH]. }
  eexists _, e. split; [|split].
  - unfold addFrames. unfold addFramesWith in Hrun.
    rewrite map_map in Hrun. exact Hrun.
  - rewrite Close_releases_held. cbn [preBuffer with_preBuffer].
    now rewrite Hrel, Hfresh.
  - exact Hsink.
Qed.

End Sessions.

Section Clips.
Context {Mat : Type} `{Platform Mat}.
Import recorder api trace.

Implicit Types (r : VideoRecorder Mat) (fs : list Mat).

(** The second walk of [StartRecording] over any ring. *)
Lemma writeBuffered_held w env (l : ring.Ring Mat) : forall st,
  sinkFrames (snd (fold_left (writeBuffered w env) l st))
  = sinkFrames (snd st) ++ heldFrames l
  /\ writeTargets (snd (fold_left (writeBuffered w env) l st))
     = writeTargets (snd st) ++ map (fun _ => w) (heldFrames l)
  /\ List.filter (fun e => negb (isWrite e)) (snd (fold_left (writeBuffered w env) l st))
     = List.filter (fun e => negb (isWrite e)) (snd st).
Proof.
  induction l as [|v l IH]; intros st; cbn [fold_left].
  - unfold heldFrames. cbn. now rewrite !app_nil_r.
  - destruct (IH (writeBuffered w env st v)) as (-> & -> & ->).
    change (v :: l) with ([v] ++ l). rewrite heldFrames_app, map_app, !app_assoc.
    assert (Hone : sinkFrames (snd (writeBuffered w env st v))
                   = sinkFrames (snd st) ++ heldFrames [v]
                   /\ writeTargets (snd (writeBuffered w env st v))
                      = writeTargets (snd st) ++ map (fun _ => w) (heldFrames [v])
                   /\ List.filter (fun e => negb (isWrite e)) (snd (writeBuffered w env st v))
                      = List.filter (fun e => negb (isWrite e)) (snd st)).
    { unfold writeBuffered, sinkFrames, writeTargets.
      destruct v as [m|]; [|unfold heldFrames; cbn; now rewrite !app_nil_r].
      unfold heldFrames, nonEmpty.
      destruct (Empty m) eqn:Hm; cbn [negb snd fst].
      - cbn. rewrite Hm. cbn. now rewrite !app_nil_r.
      - rewrite !omap_app, List.filter_app. cbn. rewrite Hm. cbn.
        now rewrite app_nil_r. }
    destruct Hone as (-> & -> & ->). auto.
Qed.

(** A [StartRecording] that takes an idle recorder into a session. *)
Lemma StartRecording_started env r r1 e1 :
  isRecording r = false ->
  StartRecording env r = (r1, e1, None) ->
  exists w,
    writer r1 = Some w /\ isRecording r1 = true
    /\ preBuffer r1 = preBuffer r /\ preBuffer r <> []
    /\ sinkFrames e1 = heldFrames (preBuffer r)
    /\ Forall (fun w' => w' = w) (writeTargets e1)
    /\ List.filter isWriterClose e1 = []
    /\ length (List.filter isStarted e1) = 1%nat.
Proof.
  unfold StartRecording. intros ->.
  destruct (mkdirAllFails env); [discriminate|].
  cbn [preBuffer with_currentFile].
  destruct (ring.Do probeDims (preBuffer r) (0, 0)) as [width height] eqn:Hprobe.
  destruct ((width =? 0) || (height =? 0)) eqn:Hdims; [discriminate|].
  destruct (openResult env); try discriminate.
  cbn [preBuffer with_session with_currentFile FPS].
  match goal with |- context [ring.Do (writeBuffered ?w0 env) _ _] => set (w := w0) end.
  destruct (writeBuffered_held w env (preBuffer r) (0, [])) as (Hsink & Htgt & Hrest).
  unfold ring.Do in *.
  destruct (fold_left (writeBuffered w env) (preBuffer r) (0, []))
    as [frameCount writes].
  cbn [snd] in Hsink, Htgt, Hrest.
  intros [= <- <-]. exists w. cbn [writer isRecording preBuffer with_session with_currentFile].
  split; [reflexivity|]. split; [reflexivity|]. split; [reflexivity|].
  split.
  { intros E. rewrite E in Hprobe. cbn in Hprobe. injection Hprobe as <- <-.
    discriminate. }
  split; [|split; [|split]].
  - unfold sinkFrames in *. cbn. rewrite omap_app, Hsink. cbn. now rewrite app_nil_r.
  - unfold writeTargets in *. cbn. rewrite omap_app, Htgt. cbn. rewrite app_nil_r.
    clear. induction (heldFrames (preBuffer r)) as [|m l IHl]; cbn; constructor; auto.
  - cbn. rewrite List.filter_app. cbn [List.filter isWriterClose app].
    assert (Hw : List.filter isWriterClose writes = []).
    { assert (Hsub : forall l : list (Effect Mat),
                List.filter (fun e => negb (isWrite e)) l = [] ->
                List.filter isWriterClose l = []).
      { induction l as [|x l IHl]; [reflexivity|].
        cbn. destruct x; cbn; try discriminate. exact IHl. }
      apply Hsub. exact Hrest. }
    now rewrite Hw.
  - cbn. rewrite List.filter_app. cbn [List.filter isStarted app length].
    assert (Hw : List.filter isStarted writes = []).
    { assert (Hsub : forall l : list (Effect Mat),
                List.filter (fun e => negb (isWrite e)) l = [] ->
                List.filter isStarted l = []).
      { induction l as [|x l IHl]; [reflexivity|].
        cbn. destruct x; cbn; try discriminate. exact IHl. }
      apply Hsub. exact Hrest. }
    now rewrite Hw.
Qed.

(** X2: the clip of a session.  From a [StartRecording] that succeeded on
    an idle recorder to the [Stop] that ends the session, with any frames
    added in between and whatever the sink answered to each write: the
    sink received the non-empty frames the ring held at the start, oldest
    first, followed by the non-empty frames added since, in arrival order,
    each exactly once; every write went to the one writer of the session,
    which was closed once, at the end; and the post-roll counter was not
    moved by the frames. *)
Theorem session_clip_is_prebuffer_then_arrivals env r r1 e1 (fws : list (Mat * bool)) :
  isRecording r = false ->
  StartRecording env r = (r1, e1, None) ->
  exists w r2 e2,
    writer r1 = Some w
    /\ addFramesWith fws r1 = Returned (r2, e2)
    /\ isRecording r2 = true
    /\ framesSinceMotion r2 = 0
    /\ sinkFrames (e1 ++ e2 ++ snd (Stop r2))
       = heldFrames (preBuffer r) ++ List.filter nonEmpty (map fst fws)
    /\ Forall (fun w' => w' = w) (writeTargets (e1 ++ e2 ++ snd (Stop r2)))
    /\ List.filter isWriterClose (e1 ++ e2 ++ snd (Stop r2)) = [WriterClose w]
    /\ isRecording (fst (Stop r2)) = false
    /\ writer (fst (Stop r2)) = None.
Proof.
  intros Hidle Hstart.
  destruct (StartRecording_started env r r1 e1 Hidle Hstart)
    as (w & Hw & Hrec & Hrb & Hne & Hsink1 & Htgt1 & Hcl1 & _).
  destruct (StartRecording_success env r r1 e1 Hidle Hstart) as (w0 & _ & _ & Hzero & _).
  assert (Hne1 : preBuffer r1 <> []) by now rewrite Hrb.
  destruct (addFramesWith_effects fws r1 Hne1)
    as (e2 & Hrun & _ & Hsink2 & Htgt2 & _ & Hcl2 & _).
  rewrite Hrec, Hw in Hsink2. cbn in Hsink2.
  eexists w, _, e2. split; [exact Hw|]. split; [exact Hrun|].
  cbn [isRecording framesSinceMotion with_preBuffer].
  split; [exact Hrec|]. split; [exact Hzero|].
  unfold Stop, stopRecording.
  cbn [writer with_preBuffer currentFile recordingStart fst snd with_stopped isRecording].
  rewrite Hw.
  split; [|split; [|split; [|split]]]; try reflexivity.
  - unfold sinkFrames in *. rewrite !omap_app, Hsink1, Hsink2.
    destruct (negb _); cbn; now rewrite ?app_nil_r.
  - unfold writeTargets in *. rewrite !omap_app.
    apply Forall_app. split; [exact Htgt1|].
    apply Forall_app. split.
    + eapply Forall_impl; [exact Htgt2|]. cbn. intros w' Hw'. congruence.
    + destruct (negb _); cbn; constructor.
  - rewrite !List.filter_app, Hcl1, Hcl2. now destruct (negb _).
Qed.

End Clips.

Section StartAndStop.
Context {Mat : Type} `{Platform Mat}.
Import recorder api trace.

Implicit Types (r : VideoRecorder Mat).

Lemma probeDims_skips (l : ring.Ring Mat) :
  heldFrames l = [] -> fold_left probeDims l (0, 0) = (0, 0).
Proof.
  induction l as [|v l IH]; intros Hheld; [reflexivity|].
  destruct (heldFrames_nil_cons v l Hheld) as ([->|(m & -> & Hm)] & Hl);
    cbn [fold_left probeDims]; [now apply IH|].
  rewrite Hm. cbn. now apply IH.
Qed.

Lemma probeDims_settled (l : ring.Ring Mat) (w h : Z) :
  w <> 0 -> fold_left probeDims l (w, h) = (w, h).
Proof.
  intros Hw. induction l as [|v l IH]; [reflexivity|].
  cbn [fold_left]. unfold probeDims at 2. cbn [fst].
  destruct (Z.eqb_spec w 0); [contradiction|].
  destruct v as [m|]; [|exact IH]. now rewrite andb_false_r.
Qed.

(** X3: the writer of a session is opened on the file named after the
    recorder and the clock, at the recorder's frame rate, with the width
    and height of the oldest non-empty frame in the ring; the recorder
    remembers that file and the start time, and the ring's frames are
    written to that writer. *)
Theorem writer_takes_dimensions_of_oldest_frame env r
    (older newer : ring.Ring Mat) (m : Mat) :
  isRecording r = false ->
  preBuffer r = older ++ Some m :: newer ->
  heldFrames older = [] ->
  Empty m = false -> Cols m <> 0 -> Rows m <> 0 ->
  mkdirAllFails env = false ->
  openResult env = Opened ->
  let filename :=
    filepath_Join (OutputPath r) (Name r +:+ "_" +:+ timestamp env +:+ ".avi") in
  let w := {| vw_name := filename; vw_fps := FPS r;
              vw_width := Cols m; vw_height := Rows m |} in
  exists r1 e1,
    StartRecording env r = (r1, e1, None)
    /\ writer r1 = Some w
    /\ currentFile r1 = filename
    /\ recordingStart r1 = startTime env
    /\ In (VideoWriterFile w) e1
    /\ sinkFrames e1 = m :: heldFrames newer
    /\ Forall (fun w' => w' = w) (writeTargets e1).
Proof.
  intros Hidle Hrb Hold Hm Hc Hr Hmk Hop filename w.
  assert (Hprobe : ring.Do probeDims (preBuffer r) (0, 0) = (Cols m, Rows m)).
  { unfold ring.Do. rewrite Hrb, fold_left_app, (probeDims_skips older Hold).
    cbn [fold_left]. unfold probeDims at 2. rewrite Hm. cbn.
    now apply probeDims_settled. }
  destruct (StartRecording env r) as [[r1 e1] err] eqn:Hstart.
  assert (Herr : err = None /\ writer r1 = Some w /\ currentFile r1 = filename
                 /\ recordingStart r1 = startTime env /\ In (VideoWriterFile w) e1).
  { revert Hstart. unfold StartRecording. rewrite Hidle, Hmk.
    cbn [preBuffer with_currentFile]. rewrite Hprobe.
    destruct (Z.eqb_spec (Cols m) 0); [contradiction|].
    destruct (Z.eqb_spec (Rows m) 0); [contradiction|].
    cbn [orb]. rewrite Hop.
    destruct (ring.Do (writeBuffered _ _) _ _) as [frameCount writes].
    intros [= <- <- <-]. cbn. repeat split. right. now left. }
  destruct Herr as (-> & Hw & Hfile & Htime & Hin).
  destruct (StartRecording_started env r r1 e1 Hidle Hstart)
    as (w' & Hw' & _ & _ & _ & Hsink & Htgt & _).
  assert (w' = w) by congruence. subst w'.
  exists r1, e1. repeat split; try assumption.
  rewrite Hsink, Hrb, heldFrames_app, Hold. cbn [app].
  change (Some m :: newer) with ([Some m] ++ newer). rewrite heldFrames_app.
  unfold heldFrames at 1. cbn. unfold nonEmpty. now rewrite Hm.
Qed.

(** X4: the post-roll for any frame rate and length.  A recording recorder
    whose counter stands at [c] is stopped by the [Update] numbered
    max(1, int(fps) * postBufferSeconds - c) and by none before it: so with
    a threshold of zero or less the first [Update] ends the session. *)
Theorem post_roll_length r :
  isRecording r = true ->
  0 <= framesSinceMotion r < GoInt.max_int ->
  let n := Z.to_nat (Z.max 1 (maxFrames r - framesSinceMotion r)) in
  (forall k, (k < n)%nat ->
     updates k r
     = (with_framesSinceMotion (framesSinceMotion r + Z.of_nat k) r, [],
        replicate k false))
  /\ exists rn en,
       updates n r = (rn, en, replicate (n - 1) false ++ [true])
       /\ isRecording rn = false /\ writer rn = None
       /\ framesSinceMotion rn = framesSinceMotion r + Z.of_nat n.
Proof.
  intros Hrec Hc n.
  assert (Hn : (1 <= n)%nat) by (unfold n; lia).
  assert (Hbelow : forall k, (k < n)%nat ->
            updates k r
            = (with_framesSinceMotion (framesSinceMotion r + Z.of_nat k) r, [],
               replicate k false)).
  { intros k Hk. destruct k as [|k].
    - cbn [updates replicate Z.of_nat]. now rewrite Z.add_0_r, with_framesSinceMotion_same.
    - apply updates_below; [exact Hrec|lia|]. unfold n in Hk. lia. }
  split; [exact Hbelow|].
  destruct n as [|k] eqn:Hnk; [lia|].
  rewrite updates_S, (Hbelow k) by lia.
  set (rk := with_framesSinceMotion (framesSinceMotion r + Z.of_nat k) r).
  pose proof (maxFrames_bounds r) as HM.
  assert (Hk : maxFrames r <= framesSinceMotion rk + 1).
  { cbn [rk framesSinceMotion with_framesSinceMotion]. unfold n in Hnk. lia. }
  assert (Hck : 0 <= framesSinceMotion rk < GoInt.max_int).
  { cbn [rk framesSinceMotion with_framesSinceMotion]. unfold n in Hnk.
    split; [lia|]. destruct k as [|k']; [lia|]. lia. }
  rewrite (Update_expires rk Hrec Hck Hk).
  eexists _, _. split.
  - cbn [app]. replace (S k - 1)%nat with k by lia. reflexivity.
  - cbn. repeat split. lia.
Qed.

(** X7: a [StartRecording] that fails for want of a frame has already
    stored the new file name: no writer was opened and the recorder is
    still idle, yet the next [Stop] starts the conversion of that file,
    which was never created. *)
Theorem failed_start_leaves_a_file_to_convert env r :
  isRecording r = false ->
  writer r = None ->
  heldFrames (preBuffer r) = [] ->
  mkdirAllFails env = false ->
  let filename :=
    filepath_Join (OutputPath r) (Name r +:+ "_" +:+ timestamp env +:+ ".avi") in
  filename <> "" ->
  exists r1,
    StartRecording env r = (r1, [MkdirAll (OutputPath r)], Some ErrNoValidFrames)
    /\ isRecording r1 = false /\ writer r1 = None
    /\ currentFile r1 = filename
    /\ Stop r1 = (r1, [LogPrintf (LogStopped (recordingStart r) filename);
                       GoConvertAVItoMP4 filename]).
Proof.
  intros Hidle Hw Hheld Hmk filename Hname.
  unfold StartRecording. rewrite Hidle, Hmk.
  cbn [preBuffer with_currentFile]. unfold ring.Do.
  rewrite (probeDims_skips _ Hheld). cbn [Z.eqb orb].
  eexists. split; [reflexivity|].
  cbn [isRecording writer currentFile with_currentFile].
  split; [exact Hidle|]. split; [exact Hw|]. split; [reflexivity|].
  unfold Stop, stopRecording.
  cbn [writer currentFile recordingStart with_stopped isRecording with_currentFile].
  rewrite Hw. fold filename.
  destruct (String.eqb_spec filename ""); [contradiction|]. cbn.
  f_equal. destruct r; cbn in *. now subst.
Qed.

End StartAndStop.

Section Invariants.
Context {Mat : Type} `{Platform Mat}.
Import recorder api trace.

Implicit Types (r : VideoRecorder Mat).

Lemma NewRecorder_consistent (name path : string) (fps : Q) (pre post : Z) :
  consistent (NewRecorder (Mat:=Mat) name path fps pre post).
Proof.
  red. cbn. unfold GoInt.max_int.
  repeat split; try discriminate; try congruence; try lia.
Qed.

(** One call keeps the recorder consistent and opens or closes at most the
    session it says it does. *)
Lemma step_consistent c r r' e :
  consistent r ->
  step c r = Returned (r', e) ->
  consistent r'
  /\ (length (List.filter isStarted e) + (if isRecording r then 1 else 0)
      = length (List.filter isWriterClose e) + (if isRecording r' then 1 else 0))%nat.
Proof.
  intros Hcons. pose proof Hcons as (Hw & Hc & Hlt).
  destruct c as [frame wf|env| | | |]; cbn [step].
  - intros Hadd. destruct (AddFrame_preBuffer _ _ _ _ _ Hadd) as (v & rest & Hrb & _).
    destruct (AddFrame_effects frame wf r v rest Hrb)
      as (e0 & Hadd' & _ & _ & _ & _ & Hcl & Hst).
    rewrite Hadd' in Hadd. injection Hadd as <- <-.
    rewrite Hcl, Hst. split; [|reflexivity]. exact Hcons.
  - destruct (isRecording r) eqn:Hr.
    + unfold StartRecording. rewrite Hr. intros [= <- <-].
      rewrite Hr. split; [|reflexivity]. exact Hcons.
    + destruct (StartRecording env r) as [[r1 e1] [err|]] eqn:Hs; intros [= <- <-].
      * assert (Hfail : isRecording r1 = false /\ writer r1 = writer r
                        /\ framesSinceMotion r1 = framesSinceMotion r
                        /\ List.filter isStarted e1 = []
                        /\ List.filter isWriterClose e1 = []).
        { revert Hs. unfold StartRecording. rewrite Hr.
          destruct (mkdirAllFails env); [intros [= <- <- _]; now cbn|].
          destruct (ring.Do probeDims _ _) as [width height].
          destruct ((width =? 0) || (height =? 0)); [intros [= <- <- _]; now cbn|].
          destruct (openResult env); try (intros [= <- <- _]; now cbn).
          destruct (ring.Do (writeBuffered _ _) _ _). discriminate. }
        destruct Hfail as (Hr1 & Hw1 & Hc1 & -> & ->). rewrite Hr1.
        split; [|reflexivity]. red. rewrite Hr1, Hw1, Hc1.
        repeat split; try tauto; try lia; try discriminate.
      * destruct (StartRecording_started env r r1 e1 Hr Hs)
          as (w & Hw1 & Hr1 & _ & _ & _ & _ & Hcl & Hst).
        destruct (StartRecording_success env r r1 e1 Hr Hs) as (_ & _ & _ & Hz & _).
        rewrite Hcl, Hst, Hr1. split; [|reflexivity].
        red. rewrite Hr1, Hw1, Hz. pose proof (maxFrames_bounds r1).
        unfold GoInt.max_int. repeat split; try discriminate; try lia.
  - intros [= <- <-]. split; [|cbn; lia].
    unfold OnMotion; red. cbn. change (maxFrames (with_framesSinceMotion 0 r)) with (maxFrames r).
    unfold GoInt.max_int. repeat split; try tauto; lia.
  - destruct (isRecording r) eqn:Hr.
    + assert (Hrange : framesSinceMotion r + 1 <= GoInt.max_int).
      { pose proof (maxFrames_bounds r). specialize (Hlt eq_refl).
        unfold GoInt.max_int in *. lia. }
      destruct (Z.lt_ge_cases (framesSinceMotion r + 1) (maxFrames r)) as [Hb|Hb].
      * rewrite (Update_below r Hr) by lia. intros [= <- <-].
        cbn [List.filter length isRecording with_framesSinceMotion]. rewrite Hr.
        split; [|reflexivity]. red.
        cbn [isRecording writer framesSinceMotion with_framesSinceMotion].
        change (maxFrames (with_framesSinceMotion _ r)) with (maxFrames r).
        repeat split; try tauto; lia.
      * rewrite (Update_expires r Hr) by (unfold GoInt.max_int in *; lia).
        intros [= <- <-]. unfold stopRecording.
        cbn [fst snd isRecording writer with_stopped with_framesSinceMotion
             framesSinceMotion currentFile recordingStart].
        destruct (writer r) as [w|] eqn:Hwr; [|now destruct (proj1 Hw eq_refl)].
        split.
        -- red. cbn. repeat split; try discriminate; try tauto; lia.
        -- rewrite !List.filter_app. now destruct (negb _).
    + rewrite (Update_idle r Hr). intros [= <- <-]. rewrite Hr.
      split; [|reflexivity]. exact Hcons.
  - intros [= <- <-]. unfold Stop, stopRecording.
    cbn [fst snd isRecording writer with_stopped framesSinceMotion].
    split.
    + red. cbn. repeat split; try discriminate; try tauto; lia.
    + rewrite !List.filter_app.
      destruct (writer r) as [w|] eqn:Hwr, (isRecording r) eqn:Hr, (negb _);
        cbn; try reflexivity.
      * pose proof (proj2 Hw ltac:(discriminate)); discriminate.
      * pose proof (proj2 Hw ltac:(discriminate)); discriminate.
      * now destruct (proj1 Hw eq_refl).
      * now destruct (proj1 Hw eq_refl).
  - intros [= <- <-]. unfold Close, Stop, stopRecording.
    cbn [fst snd isRecording writer with_stopped framesSinceMotion preBuffer].
    split.
    + red. cbn. repeat split; try discriminate; try tauto; lia.
    + assert (Hdo : forall (l : ring.Ring Mat) eff,
                List.filter isStarted (fold_left closeBuffered l eff)
                = List.filter isStarted eff
                /\ List.filter isWriterClose (fold_left closeBuffered l eff)
                   = List.filter isWriterClose eff).
      { induction l as [|v l IHl]; intros eff; [now cbn|].
        cbn [fold_left]. destruct (IHl (closeBuffered eff v)) as (-> & ->).
        unfold closeBuffered. destruct v as [m|]; [|auto].
        destruct (negb (Empty m)); [|auto].
        rewrite !List.filter_app. cbn. now rewrite !app_nil_r. }
      unfold ring.Do.
      match goal with
      | |- context [fold_left closeBuffered ?l ?eff] =>
          destruct (Hdo l eff) as (-> & ->)
      end.
      rewrite !List.filter_app.
      destruct (writer r) as [w|] eqn:Hwr, (isRecording r) eqn:Hr, (negb _);
        cbn; try reflexivity.
      * pose proof (proj2 Hw ltac:(discriminate)); discriminate.
      * pose proof (proj2 Hw ltac:(discriminate)); discriminate.
      * now destruct (proj1 Hw eq_refl).
      * now destruct (proj1 Hw eq_refl).
Qed.

Lemma run_consistent cs : forall r r' e,
  consistent r ->
  run cs r = Returned (r', e) ->
  consistent r'
  /\ (length (List.filter isStarted e) + (if isRecording r then 1 else 0)
      = length (List.filter isWriterClose e) + (if isRecording r' then 1 else 0))%nat.
Proof.
  induction cs as [|c cs IH]; intros r r' e Hr; cbn [run].
  - intros [= <- <-]. split; [exact Hr|reflexivity].
  - destruct (step c r) as [[r1 e1]|] eqn:Hstep; [|discriminate].
    cbn [obind fst snd].
    destruct (run cs r1) as [[r2 e2]|] eqn:Hrun; [|discriminate].
    cbn [obind fst snd]. intros [= <- <-].
    destruct (step_consistent c r r1 e1 Hr Hstep) as (Hr1 & Hb1).
    destruct (IH r1 r2 e2 Hr1 Hrun) as (Hr2 & Hb2).
    split; [exact Hr2|]. rewrite !List.filter_app, !length_app. lia.
Qed.

(** X5: whatever calls were made on a recorder since [NewRecorder], it
    holds a writer exactly while it is recording, its post-roll counter
    has never wrapped around (it is between 0 and the largest [int]), and
    while recording the counter is below the threshold
    int(fps) * postBufferSeconds (below 1 when that is not positive). *)
Theorem recorder_stays_consistent
    (name path : string) (fps : Q) (pre post : Z) cs r e :
  run cs (NewRecorder (Mat:=Mat) name path fps pre post) = Returned (r, e) ->
  (isRecording r = true <-> writer r <> None)
  /\ 0 <= framesSinceMotion r <= GoInt.max_int
  /\ (isRecording r = true -> framesSinceMotion r < Z.max 1 (maxFrames r)).
Proof.
  intros Hrun.
  exact (proj1 (run_consistent cs _ r e (NewRecorder_consistent name path fps pre post) Hrun)).
Qed.

(** X6: sessions are closed exactly once.  In the effects of any calls
    made since [NewRecorder], the writers closed are as many as the
    sessions started, less the one still open when the recorder is
    recording. *)
Theorem every_session_is_closed_once
    (name path : string) (fps : Q) (pre post : Z) cs r e :
  run cs (NewRecorder (Mat:=Mat) name path fps pre post) = Returned (r, e) ->
  length (List.filter isStarted e)
  = (length (List.filter isWriterClose e) + (if isRecording r then 1 else 0))%nat.
Proof.
  intros Hrun.
  pose proof (proj2 (run_consistent cs _ r e
                       (NewRecorder_consistent name path fps pre post) Hrun)) as Hb.
  cbn [isRecording NewRecorder] in Hb. lia.
Qed.

End Invariants.

(** * File names and the conversion to MP4 *)

Section Strings.

Lemma append_nil (b : string) : "" +:+ b = b.
Proof. reflexivity. Qed.

Lemma append_cons (c : Ascii.ascii) (a b : string) :
  String c a +:+ b = String c (a +:+ b).
Proof. reflexivity. Qed.

Lemma length_append (a b : string) :
  String.length (a +:+ b) = (String.length a + String.length b)%nat.
Proof.
  induction a as [|c a IH]; [reflexivity|].
  rewrite append_cons. cbn [String.length]. now rewrite IH.
Qed.

Lemma substring_all (s : string) : String.substring 0 (String.length s) s = s.
Proof. induction s as [|c s IH]; cbn; [reflexivity|now rewrite IH]. Qed.

Lemma substring_append_l (a b : string) :
  String.substring 0 (String.length a) (a +:+ b) = a.
Proof.
  induction a as [|c a IH].
  - rewrite append_nil. now destruct b.
  - rewrite append_cons. cbn. now rewrite IH.
Qed.

Lemma substring_append_r (a b : string) :
  String.substring (String.length a) (String.length b) (a +:+ b) = b.
Proof.
  induction a as [|c a IH].
  - rewrite append_nil. apply substring_all.
  - rewrite append_cons. cbn. exact IH.
Qed.

Lemma substring_split (s : string) : forall i : nat,
  (i <= String.length s)%nat ->
  s = String.substring 0 i s +:+ String.substring i (String.length s - i) s.
Proof.
  induction s as [|c s IH]; intros i Hi; cbn in Hi.
  - now destruct i.
  - destruct i as [|i]; cbn [String.substring String.length Nat.sub].
    + rewrite append_nil. now rewrite substring_all.
    + rewrite append_cons. f_equal. apply IH. lia.
Qed.

Lemma HasSuffix_append (stem suffix : string) :
  gostrings.HasSuffix (stem +:+ suffix) suffix = true.
Proof.
  unfold gostrings.HasSuffix. rewrite length_append.
  replace (String.length stem + String.length suffix - String.length suffix)%nat
    with (String.length stem) by lia.
  rewrite substring_append_r, String.eqb_refl, andb_true_r.
  apply Nat.leb_le. lia.
Qed.

Lemma TrimSuffix_append (stem suffix : string) :
  gostrings.TrimSuffix (stem +:+ suffix) suffix = stem.
Proof.
  unfold gostrings.TrimSuffix. rewrite HasSuffix_append, length_append.
  replace (String.length stem + String.length suffix - String.length suffix)%nat
    with (String.length stem) by lia.
  apply substring_append_l.
Qed.

Lemma HasSuffix_split (s suffix : string) :
  gostrings.HasSuffix s suffix = true ->
  s = gostrings.TrimSuffix s suffix +:+ suffix.
Proof.
  intros Hs. unfold gostrings.TrimSuffix. rewrite Hs.
  unfold gostrings.HasSuffix in Hs. apply andb_true_iff in Hs as [Hlen Heq].
  apply Nat.leb_le in Hlen. apply String.eqb_eq in Heq.
  rewrite (substring_split s (String.length s - String.length suffix)) at 1 by lia.
  f_equal. rewrite <- Heq at 3. f_equal. lia.
Qed.

Lemma HasPrefix_append (prefix rest : string) :
  gostrings.HasPrefix (prefix +:+ rest) prefix = true.
Proof.
  unfold gostrings.HasPrefix. rewrite length_append, substring_append_l.
  rewrite String.eqb_refl, andb_true_r. apply Nat.leb_le. lia.
Qed.

Lemma TrimPrefix_append (prefix rest : string) :
  gostrings.TrimPrefix (prefix +:+ rest) prefix = rest.
Proof.
  unfold gostrings.TrimPrefix. rewrite HasPrefix_append, length_append.
  replace (String.length prefix + String.length rest - String.length prefix)%nat
    with (String.length rest) by lia.
  apply substring_append_r.
Qed.


End Strings.

(** * The motion detector *)

Section Detection.
Context {Mat : Type} `{Platform Mat}.
Import detector.

Lemma wrap_add_idemp (a b : Z) : GoInt.wrap (GoInt.wrap a + b) = GoInt.wrap (a + b).
Proof.
  unfold GoInt.wrap.
  replace ((a + 2 ^ 63) mod 2 ^ 64 - 2 ^ 63 + b + 2 ^ 63)
    with ((a + 2 ^ 63) mod 2 ^ 64 + b) by lia.
  rewrite Zplus_mod_idemp_l. f_equal. f_equal. lia.
Qed.

Lemma add_swap (t x y : Z) :
  GoInt.add (GoInt.add t x) y = GoInt.add (GoInt.add t y) x.
Proof.
  unfold GoInt.add. rewrite !wrap_add_idemp. f_equal. lia.
Qed.

(** Only the contours larger than [MinArea] count. *)
Lemma addContour_filter (minArea : Z) (areas : list Q) : forall t,
  fold_left (addContour minArea) areas t
  = fold_left (fun t a => GoInt.add t (GoInt.of_float64 a))
      (List.filter (isLarge minArea) areas) t.
Proof.
  induction areas as [|a areas IH]; intros t; [reflexivity|].
  cbn [fold_left List.filter]. rewrite IH. unfold addContour.
  now destruct (isLarge minArea a).
Qed.

Lemma sum_permutation (l l' : list Q) :
  Permutation l l' ->
  forall t,
    fold_left (fun t a => GoInt.add t (GoInt.of_float64 a)) l t
    = fold_left (fun t a => GoInt.add t (GoInt.of_float64 a)) l' t.
Proof.
  induction 1 as [|a l l' _ IH|a b l|l l' l'' _ IH1 _ IH2]; intros t; cbn [fold_left].
  - reflexivity.
  - apply IH.
  - now rewrite add_swap.
  - now rewrite IH1, IH2.
Qed.

(** X9: detections are rate limited.  [Detect] reports motion exactly when
    it returns a detection.  A call made less than the detection interval
    after the last detection returns no motion at once: it does no work,
    the frame is not given to the background subtractor, and the detector
    is left wholly as it was.  Every other call gives the frame to the
    subtractor, whether it then reports motion or not, so a call that
    reports none may still have changed the detector: its subtractor has
    taken the frame in, and nothing else of it has changed.  After a call
    that reported motion at time [t], every call made less than the
    interval after [t] is of the first kind. *)
Theorem detections_are_rate_limited (frame : Mat) env d d' eff det b :
  Detect frame env d = (d', eff, det, b) ->
  (b = true <-> det <> None)
  /\ (Sub (now env) (lastDetection d) < detectionInterval d ->
      d' = d /\ eff = [] /\ b = false)
  /\ (detectionInterval d <= Sub (now env) (lastDetection d) ->
      mog2 d' = mog2 d ++ [frame]
      /\ List.filter (fun e => match e with Mog2Apply _ => true | _ => false end) eff
         = [Mog2Apply frame])
  /\ (b = false -> d' = d \/ d' = applied frame d)
  /\ (b = true ->
      lastDetection d' = now env
      /\ detectionInterval d' = detectionInterval d
      /\ mog2 d' = mog2 d ++ [frame]
      /\ In (Mog2Apply frame) eff
      /\ forall (frame' : Mat) env',
           Sub (now env') (now env) < detectionInterval d ->
           Detect frame' env' d' = (d', [], None, false)).
Proof.
  unfold Detect.
  destruct (Z.ltb_spec (Sub (now env) (lastDetection d)) (detectionInterval d))
    as [Hsoon|Hlate].
  { intros [= <- <- <- <-]. repeat split; try discriminate; try congruence;
      try lia. now left. }
  cbn [Threshold MinArea Name mog2 detectionInterval applied].
  destruct (GoInt.of_float64 (Threshold d) <? _).
  - intros [= <- <- <- <-]. repeat split; try discriminate; try congruence;
      try lia; try (now left).
    intros frame' env' Hsoon. cbn [lastDetection detectionInterval].
    apply Z.ltb_lt in Hsoon. now rewrite Hsoon.
  - intros [= <- <- <- <-]. repeat split; try discriminate; try congruence;
      try lia. now right.
Qed.

(** X10: what decides a detection.  The result of [Detect] depends on the
    contours only through those larger than [MinArea] as a [float64], and
    not on their order; and when no contour is larger than that, no
    motion is reported unless the truncated threshold is negative. *)
Theorem detection_counts_large_contours_in_any_order (frame : Mat) env env' d :
  now env' = now env ->
  Permutation (List.filter (isLarge (MinArea d)) (contourAreas env))
              (List.filter (isLarge (MinArea d)) (contourAreas env')) ->
  Detect frame env' d = Detect frame env d
  /\ (List.filter (isLarge (MinArea d)) (contourAreas env) = [] ->
      0 <= GoInt.of_float64 (Threshold d) ->
      snd (Detect frame env d) = false).
Proof.
  intros Hnow Hperm. split.
  - unfold Detect. cbn [Threshold MinArea Name mog2 detectionInterval applied].
    rewrite Hnow, !addContour_filter.
    now rewrite (sum_permutation _ _ Hperm).
  - intros Hnone Hthr. unfold Detect.
    cbn [Threshold MinArea Name mog2 detectionInterval applied].
    destruct (Sub _ _ <? _); [reflexivity|].
    rewrite addContour_filter, Hnone. cbn [fold_left].
    destruct (Z.ltb_spec (GoInt.of_float64 (Threshold d)) 0); [lia|reflexivity].
Qed.

End Detection.

(** * The health check *)

Section Health.
Import health.

Lemma append_nonempty (a b : string) : a <> "" -> a +:+ b <> "".
Proof.
  intros Ha E. apply (f_equal String.length) in E.
  rewrite length_append in E. destruct a; [now destruct Ha|]. cbn in E. lia.
Qed.

(** X11: a health result is coherent.  The host is reported reachable
    exactly when its error text is empty, and the URL accessible exactly
    when its error text is empty; the URL is accessible exactly when the
    URL parsed, the TCP connection was made and the response status was
    in 200..399; an unreachable host is never sent a request and has
    response time 0. *)
Theorem health_result_is_coherent (cameraURL : string) (env : Env) :
  let res := fst (Check cameraURL env) in
  let eff := snd (Check cameraURL env) in
  (HostReachable res = true <-> HostError res = "")
  /\ (URLAccessible res = true <-> URLError res = "")
  /\ (URLAccessible res = true <->
      exists host code,
        parse env = ParsedURL host /\ dial env = Connected
        /\ http env = Response code /\ 200 <= code < 400)
  /\ (HostReachable res = false ->
      URLAccessible res = false /\ ResponseTime res = 0
      /\ ~ In (ClientDo cameraURL) eff)
  /\ LastChecked res = nowRFC3339 env.
Proof.
  assert (Htext : forall a b : string, a <> "" -> a +:+ b = "" -> False)
    by (intros a b Ha E; exact (append_nonempty a b Ha E)).
  unfold Check, tcpPing, httpCheck.
  destruct (parse env) as [msg|host] eqn:Hparse;
    [|destruct (dial env) as [msg|] eqn:Hdial;
      [|destruct (http env) as [msg|msg|code] eqn:Hhttp;
        [| |destruct (Z.leb_spec 200 code), (Z.ltb_spec code 400)]]];
    cbn; repeat split;
    try solve
      [ discriminate
      | tauto
      | reflexivity
      | intros E; apply Htext in E; [destruct E|discriminate]
      | intros (h & c & Hp & Hd & Hh & Hr); try discriminate;
        injection Hh as <-; lia
      | intros [[=]|[]]
      | intros _; exists host, code; repeat split; auto; lia ].
Qed.

End Health.

(** * The camera stream *)

Section Streams.
Context {Mat : Type} `{Platform Mat}.

Lemma stream_reads_nonempty (reading : stream.ReadAnswer Mat)
    (s s' : camera.Stream) (frame : Mat) (e : list stream.Effect) :
  stream.ReadFrame reading s = (s', inl frame, e) -> Empty frame = false.
Proof.
  unfold stream.ReadFrame. destruct (negb _ || negb _); [discriminate|].
  destruct reading as [|tempFrame]; [discriminate|].
  destruct (Empty tempFrame) eqn:Hf; [discriminate|]. now intros [= _ <- _].
Qed.

(** X12: a stream is read only while it is open.  [ReadFrame] returns a
    frame only from an open stream, only a non-empty one, and counts it;
    any failure leaves the stream as it was.  [Reconnect] closes the old
    capture, once, if there was one, keeps the frame count, and leaves
    the stream open exactly when the new capture opened and was ready;
    after a failed [Reconnect] every [ReadFrame] fails with "stream not
    open" without asking the capture. *)
Theorem stream_is_read_only_while_open
    (reading : stream.ReadAnswer Mat) (reopening : stream.OpenAnswer)
    (s : camera.Stream) :
  (forall s' frame e,
      stream.ReadFrame reading s = (s', inl frame, e) ->
      Empty frame = false /\ camera.isOpen s = true
      /\ camera.frameCount s' = GoInt.add (camera.frameCount s) 1)
  /\ (forall s' err e,
        stream.ReadFrame reading s = (s', inr err, e) -> s' = s)
  /\ (let '(s2, e2, err) := stream.Reconnect reopening s in
      (camera.isOpen s2 = true <-> err = None)
      /\ (err = None <-> reopening = stream.OpenedReady)
      /\ camera.frameCount s2 = camera.frameCount s
      /\ stream.capturesClosed e2 = (if camera.capture s then 1 else 0)%nat
      /\ (err <> None ->
          forall again : stream.ReadAnswer Mat,
            stream.ReadFrame again s2 = (s2, inr stream.ErrNotOpen, []))).
Proof.
  split; [|split].
  - intros s' frame e. unfold stream.ReadFrame.
    destruct (camera.isOpen s), (camera.capture s); cbn; try discriminate.
    destruct reading as [|tempFrame]; [discriminate|].
    destruct (Empty tempFrame) eqn:Hf; [discriminate|].
    intros [= <- <- <-]. cbn. auto.
  - intros s' err e. unfold stream.ReadFrame.
    destruct (negb _ || negb _); [now intros [= <- _ _]|].
    destruct reading as [|tempFrame]; [now intros [= <- _ _]|].
    destruct (Empty tempFrame); [now intros [= <- _ _]|discriminate].
  - unfold stream.Reconnect, camera.Close, stream.Open, stream.capturesClosed.
    destruct reopening, (camera.capture s); cbn;
      repeat split; try discriminate; try congruence; try tauto.
Qed.

End Streams.

(** * The post-roll as the monitor loop drives it *)

Section QuietTicks.
Context {Mat : Type} `{Platform Mat}.
Import recorder api trace.

Implicit Types (r : VideoRecorder Mat).

Lemma run_app (cs1 cs2 : list (Call (Mat:=Mat))) : forall r,
  run (cs1 ++ cs2) r
  = (p <-! run cs1 r;
     q <-! run cs2 (fst p);
     Returned (fst q, snd p ++ snd q)).
Proof.
  induction cs1 as [|c cs1 IH]; intros r.
  - cbn [app run obind fst snd]. destruct (run cs2 r) as [[r2 e2]|]; reflexivity.
  - cbn [app run]. destruct (step c r) as [[r1 e1]|]; [|reflexivity].
    cbn [obind fst snd]. rewrite IH.
    destruct (run cs1 r1) as [[r2 e2]|]; [|reflexivity]. cbn [obind fst snd].
    destruct (run cs2 r2) as [[r3 e3]|]; [|reflexivity]. cbn [obind fst snd].
    now rewrite app_assoc.
Qed.

(** One tick without motion on a recorder that is recording. *)
Lemma quiet_tick_recording (f : Mat) (wf : bool) r w :
  isRecording r = true -> writer r = Some w -> preBuffer r <> [] ->
  0 <= framesSinceMotion r < GoInt.max_int ->
  exists r1 e,
    run [CallAddFrame f wf; CallUpdate] r = Returned (r1, e)
    /\ preBuffer r1 <> []
    /\ writer r1 = (if maxFrames r <=? framesSinceMotion r + 1 then None else Some w)
    /\ isRecording r1 = negb (maxFrames r <=? framesSinceMotion r + 1)
    /\ framesSinceMotion r1 = framesSinceMotion r + 1
    /\ maxFrames r1 = maxFrames r
    /\ sinkFrames e = List.filter nonEmpty [f]
    /\ List.filter isWriterClose e
       = (if maxFrames r <=? framesSinceMotion r + 1 then [WriterClose w] else []).
Proof.
  intros Hrec Hw Hne Hc.
  destruct (preBuffer r) as [|v rest] eqn:Hrb; [congruence|].
  destruct (AddFrame_effects f wf r v rest Hrb)
    as (e1 & Hadd & _ & Hsink & _ & _ & Hcl & _).
  rewrite Hrec, Hw in Hsink. cbn in Hsink.
  assert (Hs : sinkFrames e1 = List.filter nonEmpty [f])
    by (rewrite Hsink; cbn; now destruct (nonEmpty f)).
  set (r0 := with_preBuffer (rest ++ [Some f]) r) in *.
  cbn [run step obind fst snd]. rewrite Hadd. cbn [obind fst snd].
  assert (Hne0 : preBuffer r0 <> []) by (cbn; now destruct rest).
  assert (HM0 : maxFrames r0 = maxFrames r) by reflexivity.
  assert (Hc0 : framesSinceMotion r0 = framesSinceMotion r) by reflexivity.
  destruct (Z.leb_spec (maxFrames r) (framesSinceMotion r + 1)) as [Hexp|Hbel].
  - rewrite (Update_expires r0 Hrec Hc Hexp). cbn [obind fst snd].
    eexists _, _. split; [reflexivity|].
    unfold stopRecording.
    cbn [fst snd writer with_stopped with_framesSinceMotion isRecording
         framesSinceMotion preBuffer r0 with_preBuffer currentFile recordingStart].
    rewrite Hw. repeat split; try assumption; try reflexivity.
    + rewrite <- Hs. unfold sinkFrames. rewrite !omap_app.
      destruct (negb _); cbn; now rewrite ?app_nil_r.
    + rewrite !List.filter_app, Hcl. now destruct (negb _).
  - rewrite (Update_below r0 Hrec) by (rewrite ?HM0, ?Hc0; lia).
    cbn [obind fst snd].
    eexists _, _. split; [reflexivity|].
    cbn [writer with_framesSinceMotion isRecording framesSinceMotion preBuffer
         r0 with_preBuffer].
    repeat split; try assumption; try reflexivity.
    + now rewrite !app_nil_r.
    + now rewrite !List.filter_app, Hcl.
Qed.

Lemma quiet_ticks_idle (fws : list (Mat * bool)) : forall r,
  isRecording r = false -> preBuffer r <> [] ->
  exists r' e,
    run (loop.quietTicks fws) r = Returned (r', e)
    /\ isRecording r' = false
    /\ sinkFrames e = [] /\ List.filter isWriterClose e = [].
Proof.
  induction fws as [|[f wf] fws IH]; intros r Hidle Hne.
  - exists r, []. now cbn.
  - destruct (preBuffer r) as [|v rest] eqn:Hrb; [congruence|].
    destruct (AddFrame_effects f wf r v rest Hrb)
      as (e1 & Hadd & _ & Hsink & _ & _ & Hcl & _).
    rewrite Hidle in Hsink. cbn in Hsink.
    set (r0 := with_preBuffer (rest ++ [Some f]) r) in *.
    destruct (IH r0 Hidle) as (r' & e' & Hrun & Hidle' & Hsink' & Hcl').
    { cbn. now destruct rest. }
    exists r', (e1 ++ e'). split; [|split; [exact Hidle'|split]].
    + cbn [loop.quietTicks flat_map app fst snd]. fold (loop.quietTicks fws).
      cbn [run step obind fst snd]. rewrite Hadd. cbn [obind fst snd].
      rewrite (Update_idle r0 Hidle). cbn [obind fst snd].
      rewrite Hrun. cbn [obind fst snd]. reflexivity.
    + unfold sinkFrames in *. now rewrite omap_app, Hsink, Hsink'.
    + now rewrite List.filter_app, Hcl, Hcl'.
Qed.

Lemma quiet_ticks_recording (fws : list (Mat * bool)) : forall r w,
  isRecording r = true -> writer r = Some w -> preBuffer r <> [] ->
  0 <= framesSinceMotion r < maxFrames r ->
  exists r' e,
    run (loop.quietTicks fws) r = Returned (r', e)
    /\ sinkFrames e
       = List.filter nonEmpty
           (map fst (take (Z.to_nat (maxFrames r - framesSinceMotion r)) fws))
    /\ (isRecording r' = true
        <-> Z.of_nat (length fws) < maxFrames r - framesSinceMotion r)
    /\ length (List.filter isWriterClose e)
       = (if isRecording r' then 0 else 1)%nat.
Proof.
  induction fws as [|[f wf] fws IH]; intros r w Hrec Hw Hne Hc.
  - exists r, []. cbn [loop.quietTicks flat_map run]. rewrite Hrec.
    split; [reflexivity|]. rewrite take_nil. cbn. repeat split; auto; lia.
  - pose proof (maxFrames_bounds r) as HM.
    destruct (quiet_tick_recording f wf r w Hrec Hw Hne)
      as (r1 & e1 & Hrun1 & Hne1 & Hw1 & Hrec1 & Hc1 & HM1 & Hsink1 & Hcl1);
      [lia|].
    change (loop.quietTicks ((f, wf) :: fws))
      with ([CallAddFrame f wf; CallUpdate] ++ loop.quietTicks fws).
    rewrite run_app, Hrun1. cbn [obind fst snd].
    assert (Htake : take (Z.to_nat (maxFrames r - framesSinceMotion r)) ((f, wf) :: fws)
                    = (f, wf) :: take (Z.to_nat (maxFrames r - framesSinceMotion r - 1)) fws).
    { replace (Z.to_nat (maxFrames r - framesSinceMotion r))
        with (S (Z.to_nat (maxFrames r - framesSinceMotion r - 1))) by lia.
      reflexivity. }
    rewrite Htake. cbn [map fst length].
    destruct (Z.leb_spec (maxFrames r) (framesSinceMotion r + 1)) as [Hexp|Hbel];
      cbn [negb] in Hrec1.
    + destruct (quiet_ticks_idle fws r1 Hrec1 Hne1)
        as (r' & e' & Hrun & Hidle & Hsink & Hcl).
      rewrite Hrun. cbn [obind fst snd]. exists r', (e1 ++ e').
      split; [reflexivity|]. rewrite Hidle.
      replace (Z.to_nat (maxFrames r - framesSinceMotion r - 1)) with 0%nat by lia.
      rewrite take_0. split; [|split].
      * unfold sinkFrames in *. now rewrite omap_app, Hsink1, Hsink, app_nil_r.
      * split; [discriminate|lia].
      * now rewrite List.filter_app, Hcl1, Hcl.
    + destruct (IH r1 w Hrec1 Hw1 Hne1) as (r' & e' & Hrun & Hsink & Hiff & Hcl);
        [rewrite Hc1, HM1; lia|].
      rewrite Hrun. cbn [obind fst snd]. exists r', (e1 ++ e').
      split; [reflexivity|]. rewrite HM1, Hc1 in *. split; [|split].
      * unfold sinkFrames in *. rewrite omap_app, Hsink1, Hsink.
        replace (maxFrames r - (framesSinceMotion r + 1))
          with (maxFrames r - framesSinceMotion r - 1) by lia.
        cbn [List.filter]. now destruct (nonEmpty f).
      * rewrite Hiff. lia.
      * now rewrite List.filter_app, length_app, Hcl1, Hcl.
Qed.

(** X13: how long a clip runs on after the last motion.  On a recording
    recorder, after the [OnMotion] and the [Update] of the last tick that
    saw motion, the loop adds a frame and calls [Update] on every tick:
    exactly the first int(fps) * postBufferSeconds - 1 of those frames
    reach the sink (none when that threshold is 1 or less), in order;
    the recorder is still recording only if fewer ticks than that have
    passed, and otherwise the writer was closed exactly once. *)
Theorem clip_runs_on_for_threshold_minus_one_frames
    (fws : list (Mat * bool)) r w :
  isRecording r = true -> writer r = Some w -> preBuffer r <> [] ->
  let more := Z.max 1 (maxFrames r) - 1 in
  exists r' e,
    run (CallOnMotion :: CallUpdate :: loop.quietTicks fws) r = Returned (r', e)
    /\ sinkFrames e = List.filter nonEmpty (map fst (take (Z.to_nat more) fws))
    /\ (isRecording r' = true <-> Z.of_nat (length fws) < more)
    /\ length (List.filter isWriterClose e) = (if isRecording r' then 0 else 1)%nat.
Proof.
  intros Hrec Hw Hne more. pose proof (maxFrames_bounds r) as HM.
  change (CallOnMotion :: CallUpdate :: loop.quietTicks fws)
    with ([CallOnMotion; CallUpdate] ++ loop.quietTicks fws).
  rewrite run_app. cbn [run step obind fst snd].
  set (r0 := OnMotion r).
  assert (Hc0 : 0 <= framesSinceMotion r0 < GoInt.max_int)
    by (cbn; unfold GoInt.max_int; lia).
  assert (HM0 : maxFrames r0 = maxFrames r) by reflexivity.
  destruct (Z.lt_ge_cases 1 (maxFrames r)) as [Hbig|Hsmall].
  - rewrite (Update_below r0 Hrec) by (rewrite ?HM0; cbn; lia).
    cbn [obind fst snd app].
    set (r1 := with_framesSinceMotion (framesSinceMotion r0 + 1) r0).
    destruct (quiet_ticks_recording fws r1 w Hrec Hw Hne) as (r' & e' & Hrun & Hsink & Hiff & Hcl).
    { change (maxFrames r1) with (maxFrames r). cbn. lia. }
    change (maxFrames r1) with (maxFrames r) in *.
    change (framesSinceMotion r1) with (0 + 1) in *.
    rewrite Hrun. cbn [obind fst snd app]. exists r', e'.
    split; [reflexivity|]. unfold more.
    replace (Z.max 1 (maxFrames r) - 1) with (maxFrames r - (0 + 1)) by lia.
    auto.
  - rewrite (Update_expires r0 Hrec Hc0) by (rewrite HM0; cbn; lia).
    cbn [obind fst snd app].
    set (r1 := fst (stopRecording (with_framesSinceMotion (framesSinceMotion r0 + 1) r0))).
    destruct (quiet_ticks_idle fws r1 eq_refl) as (r' & e' & Hrun & Hidle & Hsink & Hcl).
    { exact Hne. }
    rewrite Hrun. cbn [obind fst snd]. eexists r', _.
    split; [reflexivity|]. rewrite Hidle. unfold more.
    replace (Z.max 1 (maxFrames r) - 1) with 0 by lia.
    cbn [Z.to_nat]. rewrite take_0. split; [|split].
    + unfold sinkFrames in *. rewrite omap_app, Hsink, app_nil_r.
      unfold stopRecording. cbn [snd writer with_framesSinceMotion r0 OnMotion].
      rewrite Hw. rewrite !omap_app. now destruct (negb _).
    + split; [discriminate|lia].
    + rewrite List.filter_app, Hcl, app_nil_r.
      unfold stopRecording. cbn [snd writer with_framesSinceMotion r0 OnMotion].
      rewrite Hw. rewrite !List.filter_app. now destruct (negb _).
Qed.

End QuietTicks.

(** * Starting and stopping cameras *)

Section Cameras.
Context {Mat : Type} `{Platform Mat}.
Import surveillance fleet.

Lemma findCamera_name (cameraName : string) cameras camCfg :
  findCamera cameraName cameras = Some camCfg ->
  config.Name camCfg = cameraName /\ In camCfg cameras.
Proof.
  unfold findCamera. intros Hfind. apply List.find_some in Hfind as [Hin Heq].
  apply String.eqb_eq in Heq. auto.
Qed.

Lemma notRunning_lookup (cameraName : string) (m : Manager Mat) :
  notRunning cameraName m ->
  match monitors m !! cameraName with
  | None => Returned false
  | Some p =>
      match store m !! p with
      | None => Panicked
      | Some monitor => Returned (running monitor)
      end
  end = Returned false.
Proof.
  intros [->|(p & monitor & -> & -> & ->)]; reflexivity.
Qed.

(** X14: when [StartCamera] declines.  A camera that is registered and
    running is refused as already running; otherwise a name that no
    configured camera bears is refused as not found in the configuration,
    and a stream that does not open (or opens but is not ready) is
    reported as the error of the stream.  In all three cases the registry
    and the monitors are left as they were, and no monitor loop is
    started. *)
Theorem StartCamera_declines (cameraName : string) (cfg cfg' : config.Snapshot)
    (opening : stream.OpenAnswer) (m : Manager Mat) :
  (forall p monitor,
      monitors m !! cameraName = Some p -> store m !! p = Some monitor ->
      running monitor = true ->
      StartCamera cameraName cfg cfg' opening m
      = Returned (m, [], Some (ErrAlreadyRunning cameraName)))
  /\ (notRunning cameraName m ->
      findCamera cameraName (config.Cameras cfg) = None ->
      StartCamera cameraName cfg cfg' opening m
      = Returned (m, [], Some (ErrNotInConfiguration cameraName)))
  /\ (notRunning cameraName m ->
      forall camCfg,
        findCamera cameraName (config.Cameras cfg) = Some camCfg ->
        opening <> stream.OpenedReady ->
        exists e err,
          StartCamera cameraName cfg cfg' opening m
          = Returned (m, e, Some (ErrStream err))
          /\ (forall p, ~ In (GoMonitorLoop p) e)).
Proof.
  split; [|split].
  - intros p monitor Hp Hmon Hrun. unfold StartCamera.
    rewrite Hp, Hmon, Hrun. reflexivity.
  - intros Hnot Hfind. unfold StartCamera.
    rewrite (notRunning_lookup _ _ Hnot). cbn [obind]. now rewrite Hfind.
  - intros Hnot camCfg Hfind Hopen. unfold StartCamera.
    rewrite (notRunning_lookup _ _ Hnot). cbn [obind]. rewrite Hfind.
    unfold startMonitor, stream.Open.
    destruct opening; [| |contradiction]; cbn; eexists _, _;
      (split; [reflexivity|]); intros p Hin;
      repeat (destruct Hin as [Hin|Hin]; [discriminate|]); destruct Hin.
Qed.

(** X15: a camera that was started can be stopped, and the registry is
    then as if the name had never been there.  When no running monitor
    bears the name, the name is configured and the stream opens,
    [StartCamera] registers a new, running monitor with motion detection
    on, no subscriber, and an idle recorder of 30 fps with the configured
    buffers, under a pointer that was not in use; a second [StartCamera]
    is refused as already running; and [StopCamera] then succeeds and
    leaves the registry equal to the old one without the name. *)
Theorem StartCamera_then_StopCamera (cameraName : string)
    (cfg cfg' again again' : config.Snapshot) (opening : stream.OpenAnswer)
    (camCfg : config.CameraConfig) (m : Manager Mat) :
  notRunning cameraName m ->
  findCamera cameraName (config.Cameras cfg) = Some camCfg ->
  exists m1 e1 p monitor,
    StartCamera cameraName cfg cfg' stream.OpenedReady m = Returned (m1, e1, None)
    /\ store m !! p = None
    /\ monitors m1 = <[cameraName := p]> (monitors m)
    /\ store m1 = <[p := monitor]> (store m)
    /\ running monitor = true /\ MotionDetectEnabled monitor = true
    /\ subscribers monitor = []
    /\ recorder monitor
       = Some (recorder.NewRecorder cameraName
                 (config.Path (config.Recording camCfg)) 30
                 (config.PreBufferSeconds (config.Recording camCfg))
                 (config.PostBufferSeconds (config.Recording camCfg)))
    /\ In (GoMonitorLoop p) e1
    /\ StartCamera cameraName again again' opening m1
       = Returned (m1, [], Some (ErrAlreadyRunning cameraName))
    /\ exists m2 e2,
         StopCamera cameraName m1 = Returned (m2, e2, None)
         /\ monitors m2 = delete cameraName (monitors m).
Proof.
  intros Hnot Hfind.
  destruct (findCamera_name _ _ _ Hfind) as [Hname _].
  set (p := fresh (dom (store m))).
  assert (Hfresh : store m !! p = None).
  { apply not_elem_of_dom. apply is_fresh. }
  unfold StartCamera. rewrite (notRunning_lookup _ _ Hnot). cbn [obind].
  rewrite Hfind. unfold startMonitor, stream.Open, stream.NewStream.
  cbn -[fresh]. rewrite Hname. fold p.
  eexists _, _, p, _. split; [reflexivity|].
  split; [exact Hfresh|]. cbn [monitors store running MotionDetectEnabled
                                 subscribers recorder].
  repeat (split; [reflexivity|]).
  split; [cbn -[fresh]; tauto|].
  split.
  - rewrite lookup_insert_eq. cbn [obind]. now rewrite lookup_insert_eq.
  - unfold StopCamera. cbn [monitors store].
    rewrite !lookup_insert_eq. cbn [running negb].
    match goal with
    | |- context [stopMonitor ?mon] =>
        destruct (stopMonitor_running mon eq_refl eq_refl) as (mon' & e' & -> & _)
    end.
    cbn [obind fst snd]. eexists _, _. split; [reflexivity|].
    cbn [monitors]. now rewrite delete_insert_eq.
Qed.

End Cameras.

Section MotionSwitch.
Context {Mat : Type} `{Platform Mat}.
Import surveillance fleet.

(** X16: switching motion detection.  Both switches answer "not found"
    for an unregistered name and "is not running" for a stopped monitor,
    leaving the manager as it was.  On a running monitor
    [DisableMotionDetection] clears the flag and, when the recorder is
    recording, stops it: the recorder is idle afterwards and its effects
    are those of [Stop]; the registry and every other monitor are
    untouched.  [EnableMotionDetection] afterwards sets the flag again
    and leaves the recorder idle: the stopped recording is not resumed. *)
Theorem DisableMotionDetection_stops_the_recording
    (cameraName : string) (m : Manager Mat) :
  (monitors m !! cameraName = None ->
     DisableMotionDetection cameraName m
     = Returned (m, [], Some (ErrNotFound cameraName))
     /\ EnableMotionDetection cameraName m
        = Returned (m, [], Some (ErrNotFound cameraName)))
  /\ (forall p monitor,
        monitors m !! cameraName = Some p -> store m !! p = Some monitor ->
        running monitor = false ->
        DisableMotionDetection cameraName m
        = Returned (m, [], Some (ErrNotRunning cameraName))
        /\ EnableMotionDetection cameraName m
           = Returned (m, [], Some (ErrNotRunning cameraName)))
  /\ (forall p monitor rec,
        monitors m !! cameraName = Some p -> store m !! p = Some monitor ->
        running monitor = true -> recorder monitor = Some rec ->
        let stopped :=
          if recorder.isRecording rec then recorder.Stop rec else (rec, []) in
        let monitor' :=
          with_recorder (Some (fst stopped))
            (with_MotionDetectEnabled false monitor) in
        let m' := {| monitors := monitors m;
                     store := <[p := monitor']> (store m) |} in
        DisableMotionDetection cameraName m
        = Returned (m', map Recorder (snd stopped) ++ [LogMotionDisabled cameraName],
                    None)
        /\ recorder.isRecording (fst stopped) = false
        /\ (forall q, q <> p -> store m' !! q = store m !! q)
        /\ EnableMotionDetection cameraName m'
           = Returned
               ({| monitors := monitors m;
                   store := <[p := with_MotionDetectEnabled true monitor']> (store m) |},
                [LogMotionEnabled cameraName], None)).
Proof.
  split; [|split].
  - intros Hnone. unfold DisableMotionDetection, EnableMotionDetection.
    now rewrite Hnone.
  - intros p monitor Hp Hmon Hrun.
    unfold DisableMotionDetection, EnableMotionDetection.
    now rewrite Hp, Hmon, Hrun.
  - intros p monitor rec Hp Hmon Hrun Hrec stopped monitor' m'.
    split; [|split; [|split]].
    + unfold DisableMotionDetection. rewrite Hp, Hmon, Hrun. cbn [negb].
      cbn [recorder with_MotionDetectEnabled]. rewrite Hrec.
      unfold recorder.IsRecording. fold stopped.
      now destruct stopped as [rec' eStop].
    + unfold stopped. destruct (recorder.isRecording rec) eqn:Hr; [reflexivity|exact Hr].
    + intros q Hq. cbn [store m']. now rewrite lookup_insert_ne.
    + unfold EnableMotionDetection. cbn [monitors store m'].
      rewrite Hp, lookup_insert_eq. cbn [running monitor' with_recorder
                                           with_MotionDetectEnabled].
      rewrite Hrun. cbn [negb]. now rewrite insert_insert_eq.
Qed.

End MotionSwitch.

Section Viewers.
Context {Mat : Type} `{Platform Mat}.
Import surveillance fleet.

Lemma removeFirst_absent (ch : nat) (subs : list nat) :
  ~ In ch subs -> removeFirst ch subs = None.
Proof.
  induction subs as [|sub subs IH]; intros Hnin; [reflexivity|].
  cbn [removeFirst]. destruct (Nat.eqb_spec sub ch) as [->|Hne].
  - destruct Hnin. now left.
  - rewrite IH; [reflexivity|]. intros Hin. apply Hnin. now right.
Qed.

Lemma removeFirst_appended (ch : nat) (subs : list nat) :
  ~ In ch subs -> removeFirst ch (subs ++ [ch]) = Some subs.
Proof.
  induction subs as [|sub subs IH]; intros Hnin; cbn [app removeFirst].
  - now rewrite Nat.eqb_refl.
  - destruct (Nat.eqb_spec sub ch) as [->|Hne].
    + destruct Hnin. now left.
    + rewrite IH; [reflexivity|]. intros Hin. apply Hnin. now right.
Qed.


End Viewers.

Section Shutdown.
Context {Mat : Type} `{Platform Mat}.
Import surveillance fleet.

(** [stopMonitor] returns whenever a running monitor's stop channel is
    open, and leaves a stopped monitor as it is. *)
Lemma stopMonitor_total (monitor : CameraMonitor Mat) :
  (running monitor = true -> stopChanClosed monitor = false) ->
  exists monitor' e,
    stopMonitor monitor = Returned (monitor', e)
    /\ running monitor' = false
    /\ (running monitor = false -> monitor' = monitor).
Proof.
  intros Hopen. destruct (running monitor) eqn:Hrun.
  - destruct (stopMonitor_running monitor Hrun (Hopen eq_refl))
      as (monitor' & e & Hstop & _ & Hr).
    exists monitor', (ChanClose (Name monitor) :: e).
    split; [exact Hstop|]. split; [exact Hr|discriminate].
  - exists monitor, []. unfold stopMonitor. rewrite Hrun. now cbn.
Qed.

Lemma Stop_spec (order : list string) : forall m : Manager Mat,
  registryOk m ->
  exists m' eff,
    Stop order m = Returned (m', eff)
    /\ monitors m' = monitors m
    /\ registryOk m'
    /\ (forall name p, In name order -> monitors m !! name = Some p ->
          exists monitor', store m' !! p = Some monitor' /\ running monitor' = false)
    /\ (forall q, (forall name, In name order -> monitors m !! name <> Some q) ->
          store m' !! q = store m !! q)
    /\ (forall q monitor, store m !! q = Some monitor -> running monitor = false ->
          store m' !! q = Some monitor).
Proof.
  induction order as [|name rest IH]; intros m Hok.
  - exists m, []. cbn. repeat split; auto. intros ? ? [].
  - cbn [Stop]. destruct (monitors m !! name) as [p|] eqn:Hp.
    + destruct (Hok name p Hp) as (monitor & Hmon & Hopen). rewrite Hmon.
      destruct (stopMonitor_total monitor Hopen) as (monitor' & e & Hstop & Hr & Hsame).
      rewrite Hstop. cbn [obind fst snd].
      set (m1 := {| monitors := monitors m; store := <[p := monitor']> (store m) |}).
      assert (Hok1 : registryOk m1).
      { intros n q Hn. cbn [monitors store m1] in *.
        destruct (decide (q = p)) as [->|Hne].
        - exists monitor'. rewrite lookup_insert_eq. split; [reflexivity|congruence].
        - rewrite lookup_insert_ne by congruence. exact (Hok n q Hn). }
      destruct (IH m1 Hok1) as (m' & eff & Hrun & Hreg & Hok' & Hstopped & Hout & Hstay).
      rewrite Hrun. cbn [obind fst snd]. eexists m', _.
      split; [reflexivity|]. split; [exact Hreg|]. split; [exact Hok'|].
      split; [|split].
      * intros n q [<-|Hin] Hn.
        -- assert (q = p) as -> by congruence.
           exists monitor'. split; [|exact Hr].
           apply Hstay; [|exact Hr]. cbn [store m1]. apply lookup_insert_eq.
        -- exact (Hstopped n q Hin Hn).
      * intros q Hq. rewrite Hout.
        -- cbn [store m1]. apply lookup_insert_ne. intros <-.
           exact (Hq name (or_introl eq_refl) Hp).
        -- intros n Hin. apply Hq. now right.
      * intros q mon Hq Hqr. apply Hstay; [|exact Hqr]. cbn [store m1].
        destruct (decide (q = p)) as [->|Hne].
        -- rewrite lookup_insert_eq. rewrite Hmon in Hq. injection Hq as ->.
           now rewrite (Hsame Hqr).
        -- now rewrite lookup_insert_ne by congruence.
    + destruct (IH m Hok) as (m' & eff & Hrun & Hreg & Hok' & Hstopped & Hout & Hstay).
      exists m', eff. split; [exact Hrun|]. split; [exact Hreg|].
      split; [exact Hok'|]. split; [|split].
      * intros n q [<-|Hin] Hn; [congruence|]. exact (Hstopped n q Hin Hn).
      * intros q Hq. apply Hout. intros n Hin. apply Hq. now right.
      * exact Hstay.
Qed.


End Shutdown.

(** * One tick of the monitor loop *)

Section Ticks.
Context {Mat : Type} `{Platform Mat}.
Import recorder api trace.

Lemma recorderEffects_app (a b : list (loop.Effect Mat)) :
  loop.recorderEffects (a ++ b) = loop.recorderEffects a ++ loop.recorderEffects b.
Proof. apply omap_app. Qed.

Lemma recorderEffects_OfStream (l : list stream.Effect) :
  loop.recorderEffects (Mat:=Mat) (map loop.OfStream l) = [].
Proof. induction l as [|e l IH]; [reflexivity|exact IH]. Qed.

Lemma recorderEffects_OfRecorder (l : list (Effect Mat)) :
  loop.recorderEffects (map loop.OfRecorder l) = l.
Proof.
  induction l as [|e l IH]; [reflexivity|].
  cbn [map]. unfold loop.recorderEffects in *. cbn. now rewrite IH.
Qed.

Lemma recorderEffects_cons (e : loop.Effect Mat) (l : list (loop.Effect Mat)) :
  loop.recorderEffects (e :: l)
  = match e with loop.OfRecorder x => [x] | _ => [] end ++ loop.recorderEffects l.
Proof. now destruct e. Qed.

Lemma recorderEffects_nil : loop.recorderEffects (Mat:=Mat) [] = [].
Proof. reflexivity. Qed.

Lemma startFailures_app (a b : list (loop.Effect Mat)) :
  loop.startFailures (a ++ b) = loop.startFailures a ++ loop.startFailures b.
Proof. apply omap_app. Qed.

Lemma startFailures_OfStream (l : list stream.Effect) :
  loop.startFailures (Mat:=Mat) (map loop.OfStream l) = [].
Proof. induction l as [|e l IH]; [reflexivity|exact IH]. Qed.

Lemma startFailures_OfRecorder (l : list (Effect Mat)) :
  loop.startFailures (map loop.OfRecorder l) = [].
Proof. induction l as [|e l IH]; [reflexivity|exact IH]. Qed.

Lemma startFailures_cons (e : loop.Effect Mat) (l : list (loop.Effect Mat)) :
  loop.startFailures (e :: l)
  = match e with loop.LogStartFailed _ x => [x] | _ => [] end ++ loop.startFailures l.
Proof. now destruct e. Qed.

Lemma startFailures_nil : loop.startFailures (Mat:=Mat) [] = [].
Proof. reflexivity. Qed.

Ltac start_failures :=
  repeat first
    [ rewrite startFailures_app | rewrite startFailures_OfStream
    | rewrite startFailures_OfRecorder | rewrite startFailures_cons
    | rewrite startFailures_nil ];
  cbn [app]; rewrite ?app_nil_r.

Ltac recorder_effects :=
  repeat first
    [ rewrite recorderEffects_app | rewrite recorderEffects_OfStream
    | rewrite recorderEffects_OfRecorder | rewrite recorderEffects_cons
    | rewrite recorderEffects_nil ];
  cbn [app]; rewrite ?app_nil_r.

Lemma offered_open (bytes : string) (c : fleet.Chan) :
  fleet.chanClosed c = false -> fleet.chanClosed (loop.offered bytes c) = false.
Proof. intros Hc. unfold loop.offered. now destruct (_ <? _)%nat. Qed.

Lemma offer_open (bytes : string) (sub : nat) (cs : gmap nat fleet.Chan) c :
  cs !! sub = Some c -> fleet.chanClosed c = false ->
  loop.offer (Mat:=Mat) bytes sub cs
  = Returned (<[sub := loop.offered bytes c]> cs,
              [if (length (fleet.queue c) <? fleet.chanCap)%nat
               then loop.ChanSend sub bytes else loop.ChanSkip sub]).
Proof.
  intros Hsub Hc. unfold loop.offer, loop.offered. rewrite Hsub, Hc.
  destruct (_ <? _)%nat; [reflexivity|]. now rewrite insert_id.
Qed.

(** The sends of one frame return while every subscriber is open, and
    close or remove no channel. *)
Lemma broadcast_total (bytes : string) (subs : list nat) :
  forall cs : gmap nat fleet.Chan,
  (forall ch, In ch subs ->
     exists c, cs !! ch = Some c /\ fleet.chanClosed c = false) ->
  exists cs' e,
    loop.broadcast (Mat:=Mat) bytes subs cs = Returned (cs', e)
    /\ loop.recorderEffects e = []
    /\ loop.startFailures e = []
    /\ length e = length subs.
Proof.
  induction subs as [|sub rest IH]; intros cs Hopen.
  - exists cs, []. now cbn.
  - destruct (Hopen sub (or_introl eq_refl)) as (c & Hsub & Hc).
    cbn [loop.broadcast]. rewrite (offer_open bytes sub cs c Hsub Hc).
    cbn [obind fst snd].
    destruct (IH (<[sub := loop.offered bytes c]> cs)) as (cs' & e & Hrun & Hrec & Hch & Hlen).
    { intros ch Hin. destruct (decide (ch = sub)) as [->|Hne].
      - exists (loop.offered bytes c). rewrite lookup_insert_eq.
        split; [reflexivity|now apply offered_open].
      - rewrite lookup_insert_ne by congruence. apply Hopen. now right. }
    rewrite Hrun. cbn [obind fst snd]. eexists cs', _. split; [reflexivity|].
    split; [|split].
    + rewrite recorderEffects_app, Hrec. now destruct (_ <? _)%nat.
    + rewrite startFailures_app, Hch. now destruct (_ <? _)%nat.
    + cbn. now rewrite Hlen.
Qed.

Lemma fanOut_total (env : loop.TickEnv Mat) (frame : Mat)
    (monitor : surveillance.CameraMonitor Mat) (cs : gmap nat fleet.Chan) :
  fleet.subscribersOpen monitor cs ->
  exists cs' e,
    loop.fanOut env frame monitor cs = Returned (cs', e)
    /\ loop.recorderEffects e = []
    /\ loop.startFailures e = [].
Proof.
  intros Hopen. unfold loop.fanOut.
  destruct (_ && _); [|now exists cs, []].
  destruct (loop.encoded env) as [bytes|]; [|now eexists cs, _].
  destruct (_ <? _)%nat; [|now eexists cs, _].
  destruct (broadcast_total bytes _ cs Hopen) as (cs' & e & Hrun & Hrec & Hsf & _).
  rewrite Hrun. cbn [obind fst snd]. eexists cs', _. split; [reflexivity|].
  split; [recorder_effects; now rewrite Hrec|start_failures; now rewrite Hsf].
Qed.

(** X19: what a tick of the loop does to the recorder.  When the stream
    yields a frame, the tick returns (given a ring that is not nil, a
    detector, and open subscriber channels) and the recorder goes through
    [AddFrame], then, if motion detection is on and motion was seen,
    [StartRecording] unless it is recording already and [OnMotion], and
    last [Update]: the monitor holds the recorder those calls leave, and
    the recorder's effects within the tick are theirs, in that order.
    When the read fails, the recorder, the subscribers and the channels
    are not touched. *)
Theorem tick_drives_the_recorder (env : loop.TickEnv Mat)
    (monitor : surveillance.CameraMonitor Mat) (cs : gmap nat fleet.Chan)
    (s : camera.Stream) (rec : VideoRecorder Mat) :
  surveillance.stream monitor = Some s ->
  surveillance.recorder monitor = Some rec ->
  is_Some (surveillance.detector monitor) ->
  preBuffer rec <> [] ->
  fleet.subscribersOpen monitor cs ->
  match stream.ReadFrame (loop.reading env) s with
  | (s1, inl frame, _) =>
      exists rec' e' cs' eff,
        run (loop.callsOf env monitor rec frame) rec = Returned (rec', e')
        /\ loop.tick env monitor cs
           = Returned (fleet.with_recorder (Some rec')
                         (fleet.with_stream (Some s1) monitor), cs', eff)
        /\ loop.recorderEffects eff = e'
  | (s1, inr _, _) =>
      exists s2 eff,
        loop.tick env monitor cs
        = Returned (fleet.with_stream (Some s2) monitor, cs, eff)
        /\ loop.recorderEffects eff = []
  end.
Proof.
  intros Hs Hrec [d Hd] Hring Hopen. unfold loop.tick. rewrite Hs.
  destruct (stream.ReadFrame (loop.reading env) s) as [[s1 [frame|err]] eRead].
  - rewrite Hrec. destruct (preBuffer rec) as [|v rest] eqn:Hrb; [contradiction|].
    destruct (AddFrame_effects frame (loop.writeFailed env) rec v rest Hrb)
      as (ea & Hadd & _).
    set (rec1 := with_preBuffer (rest ++ [Some frame]) rec) in *.
    destruct (fanOut_total env frame monitor cs Hopen) as (cs' & eb & Hfan & Hfrec & _).
    unfold loop.callsOf. cbn [run step]. rewrite Hadd, Hfan. cbn [obind fst snd].
    unfold loop.onDetection. rewrite Hd.
    change (IsRecording rec1) with (isRecording rec).
    destruct (surveillance.MotionDetectEnabled monitor);
      [destruct (loop.detected env) as [detection|];
       [destruct (isRecording rec) eqn:Hr|]|];
      cbn [negb app run step obind fst snd].
    + destruct (Update (OnMotion rec1)) as [[rec3 eu] b].
      cbn [obind fst snd]. eexists _, _, _, _.
      split; [reflexivity|]. split; [reflexivity|].
      destruct (negb (Empty (detector.Frame detection))), (negb (Empty frame));
        recorder_effects; now rewrite Hfrec.
    + destruct (StartRecording (loop.starting env) rec1) as [[r1 e1] err].
      cbn [negb app run step obind fst snd].
      destruct (Update (OnMotion r1)) as [[rec3 eu] b].
      cbn [obind fst snd]. eexists _, _, _, _.
      split; [reflexivity|]. split; [reflexivity|].
      destruct err, (negb (Empty (detector.Frame detection))), (negb (Empty frame));
        recorder_effects; now rewrite Hfrec.
    + destruct (Update rec1) as [[rec3 eu] b].
      cbn [obind fst snd]. eexists _, _, _, _.
      split; [reflexivity|]. split; [reflexivity|].
      destruct (negb (Empty frame)); recorder_effects; now rewrite Hfrec.
    + destruct (Update rec1) as [[rec3 eu] b].
      cbn [obind fst snd]. eexists _, _, _, _.
      split; [reflexivity|]. split; [reflexivity|].
      destruct (negb (Empty frame)); recorder_effects; now rewrite Hfrec.
  - destruct (stream.Reconnect (loop.reopening env) s1) as [[s2 eRe] e].
    eexists s2, _. split; [reflexivity|].
    destruct e; now recorder_effects.
Qed.

Lemma broadcast_spec (bytes : string) (subs : list nat) :
  forall cs : gmap nat fleet.Chan,
  NoDup subs ->
  (forall ch, In ch subs ->
     exists c, cs !! ch = Some c /\ fleet.chanClosed c = false) ->
  exists cs' e,
    loop.broadcast (Mat:=Mat) bytes subs cs = Returned (cs', e)
    /\ (forall ch c, In ch subs -> cs !! ch = Some c ->
          cs' !! ch = Some (loop.offered bytes c))
    /\ (forall ch, ~ In ch subs -> cs' !! ch = cs !! ch).
Proof.
  induction subs as [|sub rest IH]; intros cs Hnd Hopen.
  - exists cs, []. split; [reflexivity|]. split; [intros ? ? []|reflexivity].
  - inversion Hnd as [|? ? Hnin Hnd']; subst.
    rewrite list_elem_of_In in Hnin.
    destruct (Hopen sub (or_introl eq_refl)) as (c & Hsub & Hc).
    cbn [loop.broadcast]. rewrite (offer_open bytes sub cs c Hsub Hc).
    cbn [obind fst snd].
    destruct (IH (<[sub := loop.offered bytes c]> cs) Hnd')
      as (cs' & e & Hrun & Hin' & Hout').
    { intros ch Hin. rewrite lookup_insert_ne by (intros ->; contradiction).
      apply Hopen. now right. }
    rewrite Hrun. cbn [obind fst snd]. eexists cs', _. split; [reflexivity|].
    split.
    + intros ch c' [<-|Hin] Hch.
      * rewrite (Hout' sub Hnin), lookup_insert_eq. congruence.
      * apply Hin'; [exact Hin|].
        rewrite lookup_insert_ne by (intros ->; contradiction). exact Hch.
    + intros ch Hnin'. rewrite Hout' by (intros Hin; apply Hnin'; now right).
      apply lookup_insert_ne. intros ->. apply Hnin'. now left.
Qed.

(** X20: the live view.  With every subscriber channel open and no
    channel subscribed twice, step 3 of a tick returns.  A non-empty frame
    whose JPEG encoding succeeded with at least one byte is appended to
    the queue of every subscriber that holds fewer than five images, and
    dropped for a subscriber whose queue is full: that channel is left as
    it is, so no sender ever blocks and no queue grows beyond five.  An
    empty frame, a failed encoding or an encoding of no bytes reaches no
    channel, and channels that are not subscribed are never touched. *)
Theorem live_frames_are_delivered_or_dropped (env : loop.TickEnv Mat)
    (frame : Mat) (monitor : surveillance.CameraMonitor Mat)
    (cs : gmap nat fleet.Chan) :
  fleet.subscribersOpen monitor cs ->
  NoDup (surveillance.subscribers monitor) ->
  exists cs' e,
    loop.fanOut env frame monitor cs = Returned (cs', e)
    /\ (forall bytes ch c,
          Empty frame = false -> loop.encoded env = Some bytes -> bytes <> "" ->
          In ch (surveillance.subscribers monitor) -> cs !! ch = Some c ->
          cs' !! ch
          = Some (if (length (fleet.queue c) <? 5)%nat
                  then {| fleet.queue := fleet.queue c ++ [bytes];
                          fleet.chanClosed := false |}
                  else c))
    /\ (Empty frame = true \/ loop.encoded env = None \/ loop.encoded env = Some ""
        -> cs' = cs /\ List.filter loop.isChanEffect e = [])
    /\ (forall ch, ~ In ch (surveillance.subscribers monitor) ->
          cs' !! ch = cs !! ch)
    /\ (forall ch c c', cs !! ch = Some c -> cs' !! ch = Some c' ->
          (length (fleet.queue c) <= 5 -> length (fleet.queue c') <= 5)%nat).
Proof.
  intros Hopen Hnd.
  destruct (broadcast_spec
              (match loop.encoded env with Some b => b | None => "" end)
              _ cs Hnd Hopen) as (cs1 & e1 & Hrun & Hin & Hout).
  assert (Hbound : forall (bytes : string) (c c' : fleet.Chan),
             Some c' = Some (loop.offered bytes c) ->
             (length (fleet.queue c) <= 5 -> length (fleet.queue c') <= 5)%nat).
  { intros bytes c c' [= ->]. unfold loop.offered, fleet.chanCap.
    destruct (Nat.ltb_spec (length (fleet.queue c)) 5); [|auto].
    cbn [fleet.queue]. rewrite length_app. cbn. lia. }
  unfold loop.fanOut.
  destruct (surveillance.subscribers monitor) as [|sub0 subs0] eqn:Hsubs.
  { cbn. exists cs, []. split; [reflexivity|]. split; [intros ? ? ? _ _ _ []|].
    split; [auto|]. split; [auto|]. intros ch c c' Hc Hc'. congruence. }
  change (0 <? length (sub0 :: subs0))%nat with true. cbn [andb].
  destruct (Empty frame) eqn:Hf; cbn [negb].
  { exists cs, []. split; [reflexivity|]. split; [discriminate|].
    split; [auto|]. split; [auto|]. intros ch c c' Hc Hc'. congruence. }
  destruct (loop.encoded env) as [bytes|] eqn:Henc.
  2:{ eexists cs, _. split; [reflexivity|]. split; [discriminate|].
      split; [intros _; now split|]. split; [auto|].
      intros ch c c' Hc Hc'. congruence. }
  destruct bytes as [|b0 bytes].
  { eexists cs, _. split; [reflexivity|]. split; [now intros ? ? ? _ [= <-] ?|].
    split; [intros _; now split|]. split; [auto|].
    intros ch c c' Hc Hc'. congruence. }
  change (0 <? String.length (String b0 bytes))%nat with true. cbn match.
  rewrite Hrun. cbn [obind fst snd]. eexists cs1, _. split; [reflexivity|].
  split; [|split; [|split]].
  - intros bytes' ch c _ [= <-] _ Hch Hc. exact (Hin ch c Hch Hc).
  - intros [?|[?|?]]; discriminate.
  - exact Hout.
  - intros ch c c' Hc Hc'. destruct (in_dec Nat.eq_dec ch (sub0 :: subs0)) as [Hi|Hn].
    + rewrite (Hin ch c Hi Hc) in Hc'. eapply (Hbound _ c c'). symmetry. exact Hc'.
    + rewrite (Hout ch Hn), Hc in Hc'. now injection Hc' as ->.
Qed.

Lemma first_held (l : ring.Ring Mat) :
  heldFrames l <> [] ->
  exists older m newer,
    l = older ++ Some m :: newer /\ heldFrames older = [] /\ Empty m = false.
Proof.
  induction l as [|v l IH]; intros Hheld; [now destruct Hheld|].
  destruct v as [m|].
  - destruct (Empty m) eqn:Hm.
    + destruct IH as (older & m' & newer & -> & Ho & Hm').
      { intros Hl. apply Hheld. unfold heldFrames, nonEmpty in *. cbn.
        now rewrite Hm. }
      exists (Some m :: older), m', newer. split; [reflexivity|].
      split; [|exact Hm']. unfold heldFrames, nonEmpty in *. cbn.
      now rewrite Hm.
    + now exists [], m, l.
  - destruct IH as (older & m' & newer & -> & Ho & Hm'); [exact Hheld|].
    now exists (None :: older), m', newer.
Qed.

(** With a non-empty frame of non-zero size in the ring, an idle recorder
    finds a frame to start from. *)
Lemma StartRecording_finds_a_frame env (r : VideoRecorder Mat) :
  (forall m : Mat, Empty m = false -> Cols m <> 0 /\ Rows m <> 0) ->
  isRecording r = false ->
  heldFrames (preBuffer r) <> [] ->
  snd (StartRecording env r) <> Some ErrNoValidFrames
  /\ (mkdirAllFails env = false -> openResult env = Opened ->
      snd (StartRecording env r) = None).
Proof.
  intros Hsane Hidle Hheld.
  destruct (first_held _ Hheld) as (older & m & newer & Hrb & Ho & Hm).
  destruct (Hsane m Hm) as [Hc Hr].
  remember (StartRecording env r) as res eqn:Hres.
  unfold StartRecording in Hres. rewrite Hidle in Hres.
  destruct (mkdirAllFails env);
    [subst res; split; [cbn; discriminate|intros Hx; discriminate Hx]|].
  cbn [preBuffer with_currentFile] in Hres. unfold ring.Do in Hres.
  rewrite Hrb, fold_left_app, (probeDims_skips _ Ho) in Hres.
  cbn [fold_left] in Hres. unfold probeDims at 2 in Hres.
  rewrite Hm in Hres. cbn [negb fst Z.eqb andb] in Hres.
  rewrite (probeDims_settled _ _ _ Hc) in Hres.
  destruct (Z.eqb_spec (Cols m) 0); [contradiction|].
  destruct (Z.eqb_spec (Rows m) 0); [contradiction|]. cbn [orb] in Hres.
  destruct (openResult env).
  1, 2: subst res; split; [cbn; discriminate|intros _ Hx; discriminate Hx].
  destruct (fold_left _ _ _). subst res. cbn [snd].
  split; [discriminate|reflexivity].
Qed.

(** X21: the tick that sees motion while the recorder is idle.  The frame
    of this tick was buffered before [StartRecording] ran, so (on a
    platform whose non-empty images have a width and a height) the start
    never fails for want of a frame, whatever the ring held.  When the
    directory and the writer open, the clip begins with the ring's
    frames, its oldest slot dropped and the frame that showed the motion
    last, one session is started, and after the tick's [Update] the
    recorder is recording exactly when the post-roll threshold exceeds
    one frame. *)
Theorem motion_tick_starts_with_the_triggering_frame (env : loop.TickEnv Mat)
    (monitor : surveillance.CameraMonitor Mat) (cs : gmap nat fleet.Chan)
    (s s1 : camera.Stream) (eRead : list stream.Effect) (frame : Mat)
    (rec : VideoRecorder Mat) (v : option Mat) (rest : ring.Ring Mat)
    (detection : detector.Detection Mat) :
  (forall m : Mat, Empty m = false -> Cols m <> 0 /\ Rows m <> 0) ->
  surveillance.stream monitor = Some s ->
  stream.ReadFrame (loop.reading env) s = (s1, inl frame, eRead) ->
  surveillance.recorder monitor = Some rec ->
  isRecording rec = false ->
  preBuffer rec = v :: rest ->
  surveillance.MotionDetectEnabled monitor = true ->
  is_Some (surveillance.detector monitor) ->
  loop.detected env = Some detection ->
  fleet.subscribersOpen monitor cs ->
  exists rec' cs' eff,
    loop.tick env monitor cs
    = Returned (fleet.with_recorder (Some rec')
                  (fleet.with_stream (Some s1) monitor), cs', eff)
    /\ ~ In ErrNoValidFrames (loop.startFailures eff)
    /\ (mkdirAllFails (loop.starting env) = false ->
        openResult (loop.starting env) = Opened ->
        loop.startFailures eff = []
        /\ sinkFrames (loop.recorderEffects eff) = heldFrames rest ++ [frame]
        /\ length (List.filter isStarted (loop.recorderEffects eff)) = 1%nat
        /\ isRecording rec' = (1 <? maxFrames rec)
        /\ (isRecording rec' = true -> framesSinceMotion rec' = 1)).
Proof.
  intros Hsane Hs Hread Hrec Hidle Hrb Hen [d Hd] Hdet Hopen.
  assert (Hframe : Empty frame = false).
  { pose proof (stream_reads_nonempty _ _ _ _ _ Hread). assumption. }
  unfold loop.tick. rewrite Hs, Hread, Hrec.
  destruct (AddFrame_effects frame (loop.writeFailed env) rec v rest Hrb)
    as (ea & Hadd & _ & Hsa & _ & _ & _ & Hsta).
  rewrite Hidle in Hsa. cbn [andb] in Hsa.
  set (rec1 := with_preBuffer (rest ++ [Some frame]) rec) in *.
  destruct (fanOut_total env frame monitor cs Hopen) as (cs' & eb & Hfan & Hfrec & Hfsf).
  rewrite Hadd, Hfan. cbn [obind fst snd].
  unfold loop.onDetection. rewrite Hen, Hd, Hdet.
  change (IsRecording rec1) with (isRecording rec). rewrite Hidle. cbn [negb].
  assert (Hheld1 : heldFrames (preBuffer rec1) = heldFrames rest ++ [frame]).
  { cbn [preBuffer rec1 with_preBuffer]. rewrite heldFrames_app.
    unfold heldFrames at 2, nonEmpty. cbn. now rewrite Hframe. }
  destruct (StartRecording_finds_a_frame (loop.starting env) rec1 Hsane Hidle)
    as [Hnot Hok].
  { rewrite Hheld1. now destruct (heldFrames rest). }
  destruct (StartRecording (loop.starting env) rec1) as [[r1 e1] err] eqn:Hstart.
  cbn [snd] in Hnot, Hok. cbn [obind fst snd].
  destruct (Update (OnMotion r1)) as [[rec3 eu] b] eqn:Hup.
  eexists rec3, cs', _. split; [reflexivity|]. split.
  - destruct err as [x|], (negb (Empty (detector.Frame detection))),
      (negb (Empty frame)); start_failures; rewrite Hfsf; cbn;
      try tauto; intros [->|[]]; now apply Hnot.
  - intros Hmk Hop. rewrite (Hok Hmk Hop) in *. clear Hnot Hok.
    destruct (StartRecording_started _ rec1 _ _ Hidle Hstart)
      as (w & Hw & Hr1 & _ & _ & Hsink1 & _ & _ & Hst1).
    rewrite Hheld1 in Hsink1.
    assert (Hu : sinkFrames eu = [] /\ List.filter isStarted eu = []
                 /\ isRecording rec3 = (1 <? maxFrames rec)
                 /\ (isRecording rec3 = true -> framesSinceMotion rec3 = 1)).
    { assert (HM : maxFrames (OnMotion r1) = maxFrames rec).
      { destruct (StartRecording_success _ rec1 _ _ Hidle Hstart)
          as (_ & _ & _ & _ & HF & HP).
        cbn [FPS PostBufferSeconds rec1 with_preBuffer] in HF, HP.
        unfold maxFrames. cbn [FPS PostBufferSeconds OnMotion with_framesSinceMotion].
        now rewrite HF, HP. }
      destruct (Z.ltb_spec 1 (maxFrames rec)) as [Hbig|Hsmall].
      - rewrite (Update_below (OnMotion r1)) in Hup by (rewrite ?HM; cbn; auto; lia).
        injection Hup as <- <- _. cbn. rewrite Hr1. now repeat split.
      - rewrite (Update_expires (OnMotion r1)) in Hup
          by (rewrite ?HM; cbn; unfold GoInt.max_int; auto; lia).
        injection Hup as <- <- _. unfold stopRecording.
        cbn [fst snd isRecording with_stopped writer OnMotion with_framesSinceMotion
             currentFile].
        rewrite Hw. split; [|split; [|split; [reflexivity|discriminate]]].
        + unfold sinkFrames. rewrite !omap_app. now destruct (negb _).
        + rewrite !List.filter_app. now destruct (negb _). }
    destruct Hu as (Hsu & Hstu & Hrec3 & Hcnt).
    split; [|split; [|split; [|split]]]; try assumption.
    + destruct (negb (Empty (detector.Frame detection))), (negb (Empty frame));
        start_failures; now rewrite Hfsf.
    + destruct (negb (Empty (detector.Frame detection))), (negb (Empty frame));
        recorder_effects; rewrite Hfrec; cbn [app];
        unfold sinkFrames in *; rewrite !omap_app, Hsa, Hsink1, Hsu;
        cbn [app]; now rewrite ?app_nil_r.
    + destruct (negb (Empty (detector.Frame detection))), (negb (Empty frame));
        recorder_effects; rewrite Hfrec; cbn [app];
        rewrite !List.filter_app, !length_app, Hsta, Hst1, Hstu; reflexivity.
Qed.

End Ticks.

(** * Loading the configuration *)

Section Loading.
Import config.

Ltac override_cases :=
  repeat match goal with
         | |- context [if ?b then _ else _] => destruct b
         | |- context [match ?o with Some _ => _ | None => _ end] => destruct o
         end;
  cbn; rewrite ?List.map_map; repeat split; try reflexivity;
  try (apply List.map_ext; reflexivity).

Lemma overrideHost_kept os c : kept c (overrideHost os c) /\ keptPaths c (overrideHost os c).
Proof. unfold kept, keptPaths, overrideHost. override_cases. Qed.

Lemma overridePort_kept os c : kept c (overridePort os c) /\ keptPaths c (overridePort os c).
Proof. unfold kept, keptPaths, overridePort. override_cases. Qed.

Lemma overrideRecordingPath_kept os c : kept c (overrideRecordingPath os c).
Proof. unfold kept, overrideRecordingPath, setRecording. override_cases. Qed.

Lemma overrideThreshold_kept os c :
  kept c (overrideThreshold os c) /\ keptPaths c (overrideThreshold os c).
Proof. unfold kept, keptPaths, overrideThreshold. override_cases. Qed.

Lemma overrideInterval_kept os c :
  kept c (overrideInterval os c) /\ keptPaths c (overrideInterval os c).
Proof. unfold kept, keptPaths, overrideInterval. override_cases. Qed.

Lemma overrideMinArea_kept os c :
  kept c (overrideMinArea os c) /\ keptPaths c (overrideMinArea os c).
Proof. unfold kept, keptPaths, overrideMinArea. override_cases. Qed.

Lemma overridePreBuffer_kept os c :
  kept c (overridePreBuffer os c) /\ keptPaths c (overridePreBuffer os c).
Proof. unfold kept, keptPaths, overridePreBuffer, setRecording. override_cases. Qed.

Lemma overridePostBuffer_kept os c :
  kept c (overridePostBuffer os c) /\ keptPaths c (overridePostBuffer os c).
Proof. unfold kept, keptPaths, overridePostBuffer, setRecording. override_cases. Qed.

Lemma kept_trans a b c : kept a b -> kept b c -> kept a c.
Proof. unfold kept. intros (-> & -> & ->) (-> & -> & ->). auto. Qed.

Lemma keptPaths_trans a b c : keptPaths a b -> keptPaths b c -> keptPaths a c.
Proof. unfold keptPaths. now intros -> ->. Qed.

Lemma applyEnvOverrides_kept os c : kept c (applyEnvOverrides os c).
Proof.
  unfold applyEnvOverrides. cbv zeta.
  eapply kept_trans; [apply overrideHost_kept|].
  eapply kept_trans; [apply overridePort_kept|].
  eapply kept_trans; [apply overrideRecordingPath_kept|].
  eapply kept_trans; [apply overrideThreshold_kept|].
  eapply kept_trans; [apply overrideInterval_kept|].
  eapply kept_trans; [apply overrideMinArea_kept|].
  eapply kept_trans; [apply overridePreBuffer_kept|].
  apply overridePostBuffer_kept.
Qed.

(** The overrides that follow the recording path keep every path. *)
Lemma later_overrides_keep_paths os c :
  keptPaths c
    (overridePostBuffer os
       (overridePreBuffer os
          (overrideMinArea os (overrideInterval os (overrideThreshold os c))))).
Proof.
  eapply keptPaths_trans; [apply overrideThreshold_kept|].
  eapply keptPaths_trans; [apply overrideInterval_kept|].
  eapply keptPaths_trans; [apply overrideMinArea_kept|].
  eapply keptPaths_trans; [apply overridePreBuffer_kept|].
  apply overridePostBuffer_kept.
Qed.

Lemma applyEnvOverrides_paths os c :
  let p := Getenv os "DROIDCAM_SENTRY_RECORDING_PATH" in
  map recordingPath (Cameras (applyEnvOverrides os c))
  = if String.eqb p "" then map recordingPath (Cameras c)
    else map (fun _ => p) (Cameras c).
Proof.
  intros p. unfold applyEnvOverrides. cbv zeta.
  rewrite (later_overrides_keep_paths os).
  unfold overrideRecordingPath. fold p.
  destruct (String.eqb p ""); cbn [negb].
  - rewrite (proj2 (overridePort_kept os _)). apply overrideHost_kept.
  - unfold setRecording. cbn [Cameras with_Cameras]. rewrite List.map_map.
    cbn.
    transitivity
      (map (fun _ : string * string * string * bool => p)
         (map identity (Cameras (overridePort os (overrideHost os c)))));
      [now rewrite List.map_map|].
    rewrite (proj1 (proj1 (overridePort_kept os _))),
      (proj1 (proj1 (overrideHost_kept os c))).
    now rewrite List.map_map.
Qed.

Lemma setDefaults_health c :
  let h := Health (setDefaults c) in
  0 < CheckIntervalSeconds h /\ 0 < TimeoutSeconds h
  /\ CheckIntervalSeconds h
     = (if 0 <? CheckIntervalSeconds (Health c)
        then CheckIntervalSeconds (Health c) else 30)
  /\ TimeoutSeconds h
     = (if 0 <? TimeoutSeconds (Health c)
        then TimeoutSeconds (Health c) else 5)
  /\ Cameras (setDefaults c) = Cameras c
  /\ Storage (setDefaults c) = Storage c
  /\ setDefaults (setDefaults c) = setDefaults c.
Proof.
  destruct c as [sv cams mo [ci ts] sto]. unfold setDefaults. cbn.
  destruct (Z.ltb_spec 0 ci), (Z.ltb_spec 0 ts);
    destruct (Z.leb_spec ci 0); try lia; cbn;
    destruct (Z.leb_spec ts 0); try lia; cbn;
    repeat match goal with
           | |- context [?a <=? 0] =>
               destruct (Z.leb_spec a 0); cbn in *; try lia
           end;
    cbn; repeat split; try reflexivity; try lia.
Qed.

(** X22: what [Load] does to the parsed file.  Whatever the environment
    holds, the cameras keep their number, order, names, descriptions,
    URLs and enabled flags, and the storage settings are the file's; the
    two health settings are positive afterwards, the file's value where
    that was positive (30 and 5 seconds otherwise), and setting the
    defaults again changes nothing.  A non-empty
    [DROIDCAM_SENTRY_RECORDING_PATH] becomes the recording path of every
    camera; without it every camera keeps its own.  With no variable set
    the result is the file with its defaults. *)
Theorem Load_keeps_the_cameras_and_fixes_health (os : Environ) (parsed : Snapshot) :
  let c := finishLoad os parsed in
  map identity (Cameras c) = map identity (Cameras parsed)
  /\ Storage c = Storage parsed
  /\ 0 < CheckIntervalSeconds (Health c) /\ 0 < TimeoutSeconds (Health c)
  /\ CheckIntervalSeconds (Health c)
     = (if 0 <? CheckIntervalSeconds (Health parsed)
        then CheckIntervalSeconds (Health parsed) else 30)
  /\ TimeoutSeconds (Health c)
     = (if 0 <? TimeoutSeconds (Health parsed)
        then TimeoutSeconds (Health parsed) else 5)
  /\ setDefaults c = c
  /\ (forall cam, In cam (Cameras c) ->
        Getenv os "DROIDCAM_SENTRY_RECORDING_PATH" <> "" ->
        Path (Recording cam) = Getenv os "DROIDCAM_SENTRY_RECORDING_PATH")
  /\ (Getenv os "DROIDCAM_SENTRY_RECORDING_PATH" = "" ->
        map recordingPath (Cameras c) = map recordingPath (Cameras parsed))
  /\ ((forall key, Getenv os key = "") -> c = setDefaults parsed).
Proof.
  intros c. unfold c, finishLoad.
  destruct (applyEnvOverrides_kept os parsed) as (Hid & Hh & Hst).
  pose proof (applyEnvOverrides_paths os parsed) as Hpaths. cbv zeta in Hpaths.
  destruct (setDefaults_health (applyEnvOverrides os parsed))
    as (Hi & Ht & Hi' & Ht' & Hcams & Hsto & Hidem).
  rewrite Hh in Hi', Ht'. rewrite Hcams, Hsto, Hid, Hst.
  split; [reflexivity|]. split; [reflexivity|]. split; [exact Hi|].
  split; [exact Ht|]. split; [exact Hi'|]. split; [exact Ht'|].
  split; [exact Hidem|]. split; [|split].
  - intros cam Hin Hne.
    destruct (String.eqb_spec (Getenv os "DROIDCAM_SENTRY_RECORDING_PATH") "")
      as [He|_]; [contradiction|].
    apply (List.in_map recordingPath) in Hin. rewrite Hpaths in Hin.
    apply List.in_map_iff in Hin as (? & Heq & _). now symmetry.
  - intros He. rewrite Hpaths, He. reflexivity.
  - intros Hempty. f_equal. unfold applyEnvOverrides, overrideHost, overridePort,
      overrideRecordingPath, overrideThreshold, overrideInterval, overrideMinArea,
      overridePreBuffer, overridePostBuffer.
    cbv zeta. now rewrite !Hempty.
Qed.

End Loading.

(** * Serving recordings *)

Section Serving.
Import config.

Lemma HasPrefix_split (s prefix : string) :
  gostrings.HasPrefix s prefix = true ->
  exists rest, s = prefix +:+ rest.
Proof.
  unfold gostrings.HasPrefix. intros Hp.
  apply andb_true_iff in Hp as [Hlen Heq].
  apply Nat.leb_le in Hlen. apply String.eqb_eq in Heq.
  exists (String.substring (String.length prefix)
            (String.length s - String.length prefix) s).
  rewrite <- Heq at 1. now apply substring_split.
Qed.

(** X23: which files the recording handlers serve.  A path is accepted
    exactly when its absolute form is the absolute form of some camera's
    recording directory followed by any text at all; the text need not
    start at a path separator, so a file in a sibling directory whose
    name merely begins with the directory's name is accepted as well.
    With no camera configured, or when the path has no absolute form,
    nothing is accepted. *)
Theorem recording_path_is_checked_by_text_prefix
    (abs : string -> option string) (cfg : Snapshot) (filePath : string) :
  (server.isValidRecordingPath abs cfg filePath = true
   <-> exists absPath camCfg dir rest,
         abs filePath = Some absPath
         /\ In camCfg (Cameras cfg)
         /\ abs (Path (Recording camCfg)) = Some dir
         /\ absPath = dir +:+ rest)
  /\ (Cameras cfg = [] \/ abs filePath = None ->
      server.isValidRecordingPath abs cfg filePath = false).
Proof.
  assert (Hwithin : forall absPath cams,
             server.withinAny abs absPath cams = true
             <-> exists camCfg dir rest,
                   In camCfg cams /\ abs (Path (Recording camCfg)) = Some dir
                   /\ absPath = dir +:+ rest).
  { intros absPath cams. induction cams as [|cam cams IH]; cbn [server.withinAny].
    - split; [discriminate|]. now intros (? & ? & ? & [] & _).
    - destruct (abs (Path (Recording cam))) as [dir|] eqn:Hdir.
      + destruct (gostrings.HasPrefix absPath dir) eqn:Hp.
        * split; [intros _|reflexivity].
          destruct (HasPrefix_split _ _ Hp) as [rest Hrest].
          exists cam, dir, rest. split; [now left|now split].
        * rewrite IH. split.
          -- intros (c & d & r & Hin & Hc & Hr). exists c, d, r.
             split; [now right|now split].
          -- intros (c & d & r & [<-|Hin] & Hc & Hr).
             ++ rewrite Hdir in Hc. injection Hc as <-. subst absPath.
                now rewrite HasPrefix_append in Hp.
             ++ now exists c, d, r.
      + rewrite IH. split.
        * intros (c & d & r & Hin & Hc & Hr). exists c, d, r.
          split; [now right|now split].
        * intros (c & d & r & [<-|Hin] & Hc & Hr); [congruence|].
          now exists c, d, r. }
  unfold server.isValidRecordingPath. split.
  - destruct (abs filePath) as [absPath|].
    + rewrite Hwithin. split.
      * intros (c & d & r & Hin & Hc & ->). now exists (d +:+ r), c, d, r.
      * intros (a & c & d & r & [= <-] & Hin & Hc & Hs). now exists c, d, r.
    + split; [discriminate|]. now intros (? & ? & ? & ? & ? & _).
  - intros [Hnone| ->]; [|reflexivity].
    rewrite Hnone. now destruct (abs filePath).
Qed.

End Serving.

(** * Starting the fleet *)

Section Startup.
Context {Mat : Type} `{Platform Mat}.
Import surveillance fleet.

Lemma startMonitor_ready camCfg cfg (m : Manager Mat) :
  exists monitor e,
    startMonitor camCfg cfg stream.OpenedReady m
    = ({| monitors := <[config.Name camCfg := fresh (dom (store m))]> (monitors m);
          store := <[fresh (dom (store m)) := monitor]> (store m) |}, e, None)
    /\ running monitor = true
    /\ length (List.filter isGoMonitorLoop e) = 1%nat.
Proof.
  unfold startMonitor, stream.Open, stream.NewStream. cbn -[fresh].
  eexists _, _. split; [reflexivity|]. split; reflexivity.
Qed.

Lemma startMonitor_unready camCfg cfg opening (m : Manager Mat) :
  isReady opening = false ->
  exists e x,
    startMonitor camCfg cfg opening m = (m, e, Some x)
    /\ List.filter isGoMonitorLoop e = [].
Proof.
  intros Hno. unfold startMonitor, stream.Open.
  destruct opening; [| |discriminate]; cbn; eexists _, _; split; reflexivity.
Qed.

Lemma startEach_spec cameras : forall i snapshots opening (m : Manager Mat),
  exists m' eff,
    startEach cameras i snapshots opening m = (m', eff)
    /\ length (List.filter isGoMonitorLoop eff)
       = length (opened cameras i opening)
    /\ (forall name,
          In name (map config.Name (opened cameras i opening))
          \/ (exists p monitor,
                monitors m !! name = Some p /\ store m !! p = Some monitor
                /\ running monitor = true) ->
          exists p monitor,
            monitors m' !! name = Some p /\ store m' !! p = Some monitor
            /\ running monitor = true)
    /\ (forall name,
          In name (map config.Name (opened cameras i opening)) ->
          exists p, monitors m' !! name = Some p /\ store m !! p = None)
    /\ (forall name,
          ~ In name (map config.Name (opened cameras i opening)) ->
          monitors m' !! name = monitors m !! name)
    /\ (forall p monitor,
          store m !! p = Some monitor -> store m' !! p = Some monitor).
Proof.
  induction cameras as [|camCfg rest IH]; intros i snapshots opening m.
  - exists m, []. cbn. split; [reflexivity|]. split; [reflexivity|].
    split; [now intros name [[]|Hrun]|]. split; [now intros ? []|]. auto.
  - cbn [startEach opened].
    destruct (config.Enabled camCfg); cbn [andb]; [|apply IH].
    destruct (isReady (opening i)) eqn:Hready.
    + assert (opening i = stream.OpenedReady) as ->
        by (now destruct (opening i)).
      destruct (startMonitor_ready camCfg (snapshots i) m)
        as (monitor & e & -> & Hrun & Hgo).
      set (p := fresh (dom (store m))) in *.
      assert (Hfresh : store m !! p = None).
      { apply not_elem_of_dom. apply is_fresh. }
      set (m1 := {| monitors := <[config.Name camCfg := p]> (monitors m);
                    store := <[p := monitor]> (store m) |}).
      destruct (IH (S i) snapshots opening m1)
        as (m' & e2 & -> & Hcount & Hreg & Hnew & Hkeep & Hstore).
      assert (Hsub : forall q mon, store m !! q = Some mon -> store m1 !! q = Some mon).
      { intros q mon Hq. cbn [store m1]. rewrite lookup_insert_ne; [exact Hq|].
        intros <-. congruence. }
      eexists m', _. split; [reflexivity|]. cbn [app].
      split; [|split; [|split; [|split]]].
      * rewrite !List.filter_app, !length_app, Hgo, Hcount. reflexivity.
      * intros name Hname. apply Hreg.
        destruct (in_dec String.string_dec name
                    (map config.Name (opened rest (S i) opening))) as [Hin|Hnin];
          [now left|right].
        destruct (String.string_dec name (config.Name camCfg)) as [->|Hne].
        -- exists p, monitor. cbn [monitors store m1].
           now rewrite !lookup_insert_eq.
        -- destruct Hname as [[Heq|Hin]|(q & mon & Hq & Hmon & Hr)];
             [congruence|contradiction|].
           exists q, mon. cbn [monitors m1].
           rewrite lookup_insert_ne by congruence. auto.
      * intros name Hname.
        destruct (in_dec String.string_dec name
                    (map config.Name (opened rest (S i) opening))) as [Hin|Hnin].
        -- destruct (Hnew name Hin) as (q & Hq & Hnone). exists q.
           split; [exact Hq|].
           destruct (store m !! q) as [mon|] eqn:Hmq; [|reflexivity].
           rewrite (Hsub q mon Hmq) in Hnone. discriminate.
        -- destruct Hname as [<-|Hin]; [|contradiction].
           exists p. rewrite (Hkeep _ Hnin). cbn [monitors m1].
           now rewrite lookup_insert_eq.
      * intros name Hnin. cbn [map] in Hnin.
        rewrite Hkeep by (intros Hin; apply Hnin; now right).
        cbn [monitors m1]. apply lookup_insert_ne. intros <-. apply Hnin. now left.
      * intros q mon Hq. apply Hstore, Hsub, Hq.
    + destruct (startMonitor_unready camCfg (snapshots i) (opening i) m Hready)
        as (e & x & -> & Hgo).
      destruct (IH (S i) snapshots opening m)
        as (m' & e2 & -> & Hcount & Hreg & Hnew & Hkeep & Hstore).
      eexists m', _. split; [reflexivity|].
      split; [|now repeat split].
      rewrite !List.filter_app, !length_app, Hgo. cbn. exact Hcount.
Qed.

(** X24: what [Manager.Start] gets running.  It never fails, and starts
    one monitor loop for each configured camera that is enabled and whose
    stream opens and is ready; cameras that are disabled or do not open
    are skipped and the rest still started.  Each started name is
    afterwards registered with a running monitor under a pointer that was
    not in use, names that were not started keep their registration, and
    no monitor that existed is changed: one that was running under a name
    that is started again keeps running, though the registry no longer
    leads to it. *)
Theorem Start_runs_the_enabled_cameras_that_open (cfg : config.Snapshot)
    (snapshots : nat -> config.Snapshot) (opening : nat -> stream.OpenAnswer)
    (m : Manager Mat) :
  let started := opened (config.Cameras cfg) 0 opening in
  exists m' eff,
    Start cfg snapshots opening m = (m', eff, None)
    /\ length (List.filter isGoMonitorLoop eff) = length started
    /\ (forall camCfg, In camCfg started ->
          exists p monitor,
            monitors m' !! config.Name camCfg = Some p
            /\ store m' !! p = Some monitor
            /\ running monitor = true
            /\ store m !! p = None)
    /\ (forall name, ~ In name (map config.Name started) ->
          monitors m' !! name = monitors m !! name)
    /\ (forall p monitor,
          store m !! p = Some monitor -> store m' !! p = Some monitor).
Proof.
  intros started. unfold Start.
  destruct (startEach_spec (config.Cameras cfg) 0 snapshots opening m)
    as (m' & eff & -> & Hcount & Hreg & Hnew & Hkeep & Hstore).
  exists m', eff. split; [reflexivity|]. split; [exact Hcount|].
  split; [|split; [exact Hkeep|exact Hstore]].
  intros camCfg Hin.
  assert (Hname : In (config.Name camCfg) (map config.Name started))
    by (now apply List.in_map).
  destruct (Hreg _ (or_introl Hname)) as (p & monitor & Hp & Hmon & Hrun).
  destruct (Hnew _ Hname) as (q & Hq & Hnone).
  assert (q = p) as -> by congruence.
  now exists p, monitor.
Qed.

End Startup.

(** * Updating a camera over HTTP *)

Section CameraUpdates.
Import config.

Lemma applyCameraUpdates_keeps (cam : CameraConfig) updates :
  Name (server.applyCameraUpdates cam updates) = Name cam
  /\ Description (server.applyCameraUpdates cam updates) = Description cam
  /\ Recording (server.applyCameraUpdates cam updates) = Recording cam.
Proof.
  unfold server.applyCameraUpdates.
  destruct (updates !! "enabled") as [[]|], (updates !! "url") as [[]|],
    (updates !! "motion_threshold") as [[]|]; now cbn.
Qed.

Lemma updateFirst_spec (name : string) updates (cameras : list CameraConfig) :
  let '(cameras', found) := server.updateFirst name updates cameras in
  map Name cameras' = map Name cameras
  /\ map Description cameras' = map Description cameras
  /\ map Recording cameras' = map Recording cameras
  /\ List.filter (fun cam => negb (String.eqb (Name cam) name)) cameras'
     = List.filter (fun cam => negb (String.eqb (Name cam) name)) cameras
  /\ match fleet.findCamera name cameras with
     | Some cam =>
         found = true
         /\ fleet.findCamera name cameras'
            = Some (server.applyCameraUpdates cam updates)
     | None => found = false /\ cameras' = cameras
     end.
Proof.
  induction cameras as [|cam rest IH]; [now cbn|].
  cbn [server.updateFirst]. unfold fleet.findCamera in *. cbn [List.find].
  destruct (applyCameraUpdates_keeps cam updates) as (Hn & Hd & Hr).
  destruct (String.eqb (Name cam) name) eqn:Heq.
  - cbn [map List.filter List.find]. rewrite Hn, Hd, Hr, Heq. cbn [negb].
    now repeat split.
  - destruct (server.updateFirst name updates rest) as [rest' found].
    destruct IH as (IHn & IHd & IHr & IHf & IHfind).
    cbn [map List.filter List.find]. rewrite Heq, IHn, IHd, IHr, IHf. cbn [negb].
    repeat (split; [reflexivity|]).
    destruct (List.find _ rest) as [cam'|]; [exact IHfind|].
    destruct IHfind as [-> ->]. now split.
Qed.

Lemma applyCameraUpdates_empty (cam : CameraConfig) :
  server.applyCameraUpdates cam ∅ = cam.
Proof.
  unfold server.applyCameraUpdates. now rewrite !lookup_empty.
Qed.

Lemma updateFirst_empty (name : string) (cameras : list CameraConfig) :
  fst (server.updateFirst name ∅ cameras) = cameras.
Proof.
  induction cameras as [|cam rest IH]; [reflexivity|].
  cbn [server.updateFirst]. destruct (String.eqb (Name cam) name).
  - cbn [fst]. now rewrite applyCameraUpdates_empty.
  - destruct (server.updateFirst name ∅ rest) as [rest' found].
    cbn [fst] in *. now rewrite IH.
Qed.


End CameraUpdates.

(** * The further properties on concrete objects *)

Section MoreExamples.
Import recorder api trace testbed.

Lemma img_has_size (m : Img) : Empty m = false -> Cols m <> 0 /\ Rows m <> 0.
Proof.
  intros Hm. cbn in Hm. apply orb_false_iff in Hm as [Hc Hr]. split; cbn; lia.
Qed.

(** Three frames through a ring of two, the middle one empty. *)
Lemma released_once_witness :
  (1 <= ring.Len (preBuffer (fresh 1 2 2)))%nat
  /\ exists r e,
       addFrames [frame 1; emptyMat; frame 2] (fresh 1 2 2) = Returned (r, e)
       /\ releasedFrames e ++ releasedFrames (snd (Close r)) = [frame 1; frame 2]
       /\ sinkFrames e = [].
Proof.
  assert (H1 : (1 <= ring.Len (preBuffer (fresh 1 2 2)))%nat) by (vm_compute; lia).
  split; [exact H1|].
  destruct (frames_are_released_exactly_once "cam" "out" 1 2 2
              [frame 1; emptyMat; frame 2] H1) as (r & e & Hrun & Hrel & Hsink).
  exists r, e. split; [exact Hrun|]. split; [exact Hrel|exact Hsink].
Defined.

(** A session on the armed recorder: the buffered frame, then two of the
    three arrivals (one is empty), whatever the sink answers. *)
Lemma session_clip_witness :
  isRecording armed = false
  /\ exists w r2 e2,
       writer (started armed) = Some w
       /\ addFramesWith [(frame 2, false); (emptyMat, false); (frame 3, true)]
            (started armed) = Returned (r2, e2)
       /\ sinkFrames (snd (fst (StartRecording calmEnv armed)) ++ e2 ++ snd (Stop r2))
          = [frame 1; frame 2; frame 3]
       /\ List.filter isWriterClose
            (snd (fst (StartRecording calmEnv armed)) ++ e2 ++ snd (Stop r2))
          = [WriterClose w].
Proof.
  split; [reflexivity|].
  assert (Hs : StartRecording calmEnv armed
               = (started armed, snd (fst (StartRecording calmEnv armed)), None))
    by (vm_compute; reflexivity).
  destruct (session_clip_is_prebuffer_then_arrivals calmEnv armed _ _
              [(frame 2, false); (emptyMat, false); (frame 3, true)] eq_refl Hs)
    as (w & r2 & e2 & Hw & Hrun & _ & _ & Hsink & _ & Hclose & _).
  exists w, r2, e2. split; [exact Hw|]. split; [exact Hrun|].
  split; [|exact Hclose]. rewrite Hsink. vm_compute. reflexivity.
Defined.

(** The writer takes the size of the first image, not of the empty frame
    before it. *)
Lemma writer_dimensions_witness :
  preBuffer lab.mixed = [Some emptyMat] ++ Some (frame 1) :: [Some (frame 2)]
  /\ exists r1 e1 w,
       StartRecording calmEnv lab.mixed = (r1, e1, None)
       /\ writer r1 = Some w
       /\ vw_width w = 640 /\ vw_height w = 480
       /\ sinkFrames e1 = [frame 1; frame 2].
Proof.
  assert (Hrb : preBuffer lab.mixed
                = [Some emptyMat] ++ Some (frame 1) :: [Some (frame 2)])
    by (vm_compute; reflexivity).
  split; [exact Hrb|].
  destruct (writer_takes_dimensions_of_oldest_frame calmEnv lab.mixed
              [Some emptyMat] [Some (frame 2)] (frame 1))
    as (r1 & e1 & Hstart & Hw & _ & _ & _ & Hsink & _);
    try reflexivity; try exact Hrb; try (cbn; lia).
  eexists r1, e1, _. split; [exact Hstart|]. split; [exact Hw|].
  split; [reflexivity|]. split; [reflexivity|]. exact Hsink.
Defined.

(** Thirty frames a second and two seconds of post-roll: the sixtieth
    [Update] stops the recording. *)
Lemma post_roll_length_witness :
  isRecording (started armed) = true
  /\ framesSinceMotion (started armed) = 0
  /\ exists rn en,
       updates 60 (started armed) = (rn, en, replicate 59 false ++ [true])
       /\ isRecording rn = false.
Proof.
  split; [reflexivity|]. split; [reflexivity|].
  assert (Hc : 0 <= framesSinceMotion (started armed) < GoInt.max_int)
    by (vm_compute; split; [discriminate|reflexivity]).
  destruct (post_roll_length (started armed) eq_refl Hc)
    as (_ & rn & en & Hrun & Hidle & _).
  exists rn, en. split; [exact Hrun|exact Hidle].
Defined.

(** A recorder that has seen no frame: the failed start leaves the name of
    a file that was never written, and [Stop] hands it to the converter. *)
Lemma failed_start_witness :
  heldFrames (preBuffer (fresh 30 1 2)) = []
  /\ exists r1,
       StartRecording calmEnv (fresh 30 1 2)
       = (r1, [MkdirAll "out"], Some ErrNoValidFrames)
       /\ snd (Stop r1)
          = [LogPrintf (LogStopped 0 "out/cam_20240102_030405.avi");
             GoConvertAVItoMP4 "out/cam_20240102_030405.avi"].
Proof.
  assert (Hheld : heldFrames (preBuffer (fresh 30 1 2)) = [])
    by (vm_compute; reflexivity).
  split; [exact Hheld|].
  destruct (failed_start_leaves_a_file_to_convert calmEnv (fresh 30 1 2)
              eq_refl eq_refl Hheld eq_refl) as (r1 & Hstart & _ & _ & _ & Hstop).
  { vm_compute. discriminate. }
  exists r1. split; [exact Hstart|]. rewrite Hstop. reflexivity.
Defined.

(** After a whole session and the start of the next, the recorder holds a
    writer and is recording. *)
Lemma consistent_witness :
  exists r e,
    run lab.session (fresh 30 1 2) = Returned (r, e)
    /\ isRecording r = true
    /\ writer r <> None
    /\ framesSinceMotion r < Z.max 1 (maxFrames r).
Proof.
  pose (res := run lab.session (fresh 30 1 2)).
  assert (Hrun : run lab.session (fresh 30 1 2)
                 = Returned (match res with Returned p => p | Panicked => (armed, []) end))
    by (vm_compute; reflexivity).
  destruct (match res with Returned p => p | Panicked => (armed, []) end)
    as [r e] eqn:Hres.
  assert (Hrec : isRecording r = true).
  { change r with (fst (r, e)). rewrite <- Hres. vm_compute. reflexivity. }
  destruct (recorder_stays_consistent "cam" "out" 30 1 2 lab.session r e Hrun)
    as (Hiff & _ & Hlt).
  exists r, e. split; [exact Hrun|]. split; [exact Hrec|].
  split; [now apply Hiff|now apply Hlt].
Defined.

(** Two sessions were started in that run and one was closed. *)
Lemma closed_once_witness :
  exists r e,
    run lab.session (fresh 30 1 2) = Returned (r, e)
    /\ isRecording r = true
    /\ length (List.filter isStarted e) = 2%nat
    /\ length (List.filter isWriterClose e) = 1%nat.
Proof.
  pose (res := run lab.session (fresh 30 1 2)).
  assert (Hrun : run lab.session (fresh 30 1 2)
                 = Returned (match res with Returned p => p | Panicked => (armed, []) end))
    by (vm_compute; reflexivity).
  destruct (match res with Returned p => p | Panicked => (armed, []) end)
    as [r e] eqn:Hres.
  assert (Hrec : isRecording r = true).
  { change r with (fst (r, e)). rewrite <- Hres. vm_compute. reflexivity. }
  assert (Hst : length (List.filter isStarted e) = 2%nat).
  { change e with (snd (r, e)). rewrite <- Hres. vm_compute. reflexivity. }
  pose proof (every_session_is_closed_once "cam" "out" 30 1 2 lab.session r e Hrun)
    as Hcount.
  rewrite Hrec, Hst in Hcount.
  exists r, e. split; [exact Hrun|]. split; [exact Hrec|]. split; [exact Hst|lia].
Defined.

(** Motion at two seconds: the subtractor has taken the frame in, and
    50 ms later the detector does no work. *)
Lemma rate_limit_witness :
  exists d' eff det,
    detector.Detect (frame 1) lab.busy lab.sentry = (d', eff, det, true)
    /\ detector.lastDetection d' = 2000000000
    /\ detector.mog2 d' = [frame 1]
    /\ forall frame' : Img,
         detector.Detect frame'
           {| detector.now := 2050000000; detector.contourAreas := [9000%Q] |} d'
         = (d', [], None, false).
Proof.
  pose (res := detector.Detect (frame 1) lab.busy lab.sentry).
  assert (Hd : detector.Detect (frame 1) lab.busy lab.sentry
               = (fst (fst (fst res)), snd (fst (fst res)), snd (fst res), true))
    by (vm_compute; reflexivity).
  destruct (detections_are_rate_limited _ _ _ _ _ _ _ Hd)
    as (_ & _ & Hfed & _ & Hmotion).
  destruct (Hmotion eq_refl) as (Hlast & _ & _ & _ & Hquiet).
  destruct Hfed as [Hmog _]; [vm_compute; discriminate|].
  eexists _, _, _. split; [exact Hd|]. split; [exact Hlast|].
  split; [exact Hmog|].
  intros frame'. apply Hquiet. vm_compute. reflexivity.
Defined.

(** The same contours found in another order. *)
Lemma contour_order_witness :
  detector.Detect (frame 1) lab.busy' lab.sentry
  = detector.Detect (frame 1) lab.busy lab.sentry.
Proof.
  apply (detection_counts_large_contours_in_any_order (frame 1) lab.busy lab.busy');
    [reflexivity|].
  vm_compute. apply perm_swap.
Defined.

(** Two quiet ticks after motion: both frames are written and the
    recording goes on. *)
Lemma quiet_ticks_witness :
  isRecording (started armed) = true
  /\ exists r' e,
       run (CallOnMotion :: CallUpdate
              :: loop.quietTicks [(frame 2, false); (frame 3, false)])
         (started armed) = Returned (r', e)
       /\ sinkFrames e = [frame 2; frame 3]
       /\ isRecording r' = true.
Proof.
  split; [reflexivity|].
  destruct (writer (started armed)) as [w|] eqn:Hw;
    [|vm_compute in Hw; discriminate Hw].
  destruct (clip_runs_on_for_threshold_minus_one_frames
              [(frame 2, false); (frame 3, false)] (started armed) w eq_refl Hw)
    as (r' & e & Hrun & Hsink & Hiff & _).
  { vm_compute. discriminate. }
  exists r', e. split; [exact Hrun|]. split.
  - rewrite Hsink. vm_compute. reflexivity.
  - apply Hiff. vm_compute. reflexivity.
Defined.

(** The porch camera was stopped by [Manager.Stop] and is still
    registered: it can be started again, and then stopped. *)
Lemma restart_witness :
  fleet.notRunning "porch" testbed.fleet
  /\ exists m1 e1 m2 e2,
       fleet.StartCamera "porch" lab.settings lab.settings stream.OpenedReady
         testbed.fleet = Returned (m1, e1, None)
       /\ fleet.StartCamera "porch" lab.settings lab.settings stream.OpenedReady m1
          = Returned (m1, [], Some (fleet.ErrAlreadyRunning "porch"))
       /\ surveillance.StopCamera "porch" m1 = Returned (m2, e2, None).
Proof.
  assert (Hnot : fleet.notRunning "porch" testbed.fleet).
  { right. exists 2%positive, (monitorOf "porch" false).
    repeat split; vm_compute; reflexivity. }
  split; [exact Hnot|].
  destruct (StartCamera_then_StopCamera "porch" lab.settings lab.settings
              lab.settings lab.settings stream.OpenedReady lab.porchCfg
              testbed.fleet Hnot eq_refl)
    as (m1 & e1 & p & monitor & Hstart & _ & _ & _ & _ & _ & _ & _ & _ & Hagain
        & m2 & e2 & Hstop & _).
  exists m1, e1, m2, e2. split; [exact Hstart|]. split; [exact Hagain|exact Hstop].
Defined.

Lemma fleet_registryOk : fleet.registryOk testbed.fleet.
Proof.
  intros name p Hl. unfold testbed.fleet in Hl. cbn [surveillance.monitors] in Hl.
  apply lookup_insert_Some in Hl as [[<- <-]|[_ Hl]].
  - exists (monitorOf "garage" true). split; [vm_compute; reflexivity|reflexivity].
  - apply lookup_insert_Some in Hl as [[<- <-]|[_ Hl]].
    + exists (monitorOf "porch" false). split; [vm_compute; reflexivity|discriminate].
    + rewrite lookup_empty in Hl. discriminate.
Qed.


Lemma watched_open (monitor : surveillance.CameraMonitor Img) :
  surveillance.subscribers monitor = [] -> fleet.subscribersOpen monitor ∅.
Proof. intros Hsubs ch Hin. rewrite Hsubs in Hin. destruct Hin. Qed.

(** A tick with motion on the watched camera. *)
Lemma tick_witness :
  exists rec' e' cs' eff s1,
    run [CallAddFrame (frame 2) false; CallStartRecording calmEnv;
         CallOnMotion; CallUpdate] armed = Returned (rec', e')
    /\ loop.tick lab.motionTick lab.watched ∅
       = Returned (fleet.with_recorder (Some rec')
                     (fleet.with_stream (Some s1) lab.watched), cs', eff)
    /\ loop.recorderEffects eff = e'.
Proof.
  pose proof (tick_drives_the_recorder lab.motionTick lab.watched ∅ _ armed
                eq_refl eq_refl) as T.
  destruct (stream.ReadFrame (loop.reading lab.motionTick) _)
    as [[s1 [f|err]] eRead] eqn:Hread in T;
    [|vm_compute in Hread; discriminate Hread].
  vm_compute in Hread. injection Hread as _ Hf _. subst f.
  destruct T as (rec' & e' & cs' & eff & Hrun & Htick & Heff).
  - eexists. reflexivity.
  - vm_compute. discriminate.
  - now apply watched_open.
  - exists rec', e', cs', eff, s1. split; [exact Hrun|]. split; [exact Htick|exact Heff].
Defined.

Lemma viewed_open : fleet.subscribersOpen lab.viewed lab.channels.
Proof.
  intros ch [<-|[<-|[]]]; eexists; split; vm_compute; reflexivity.
Qed.

Lemma viewed_NoDup : NoDup (surveillance.subscribers lab.viewed).
Proof.
  apply NoDup_cons_2; [|apply NoDup_cons_2; [|apply NoDup_nil_2]];
    rewrite list_elem_of_In; cbn; lia.
Qed.

(** The viewer with room gets the image, the one with a full queue does
    not. *)
Lemma live_view_witness :
  fleet.subscribersOpen lab.viewed lab.channels
  /\ exists cs' e,
       loop.fanOut lab.motionTick (frame 2) lab.viewed lab.channels
       = Returned (cs', e)
       /\ cs' !! 0%nat = Some {| fleet.queue := ["jpeg"]; fleet.chanClosed := false |}
       /\ cs' !! 1%nat = lab.channels !! 1%nat.
Proof.
  split; [exact viewed_open|].
  destruct (live_frames_are_delivered_or_dropped lab.motionTick (frame 2)
              lab.viewed lab.channels viewed_open viewed_NoDup)
    as (cs' & e & Hrun & Hsend & _).
  exists cs', e. split; [exact Hrun|]. split.
  - apply (Hsend "jpeg" 0%nat {| fleet.queue := []; fleet.chanClosed := false |});
      try reflexivity; [discriminate|now left].
  - assert (H1 : lab.channels !! 1%nat
                 = Some {| fleet.queue := ["a"; "b"; "c"; "d"; "e"];
                           fleet.chanClosed := false |})
      by (vm_compute; reflexivity).
    rewrite H1.
    apply (Hsend "jpeg" 1%nat
             {| fleet.queue := ["a"; "b"; "c"; "d"; "e"]; fleet.chanClosed := false |}
             eq_refl eq_refl); [discriminate|right; now left|exact H1].
Defined.

(** The tick that sees motion on the watched camera: the clip starts with
    the buffered frame and the frame of this tick. *)
Lemma motion_tick_witness :
  isRecording armed = false
  /\ exists rec' cs' eff s1,
       loop.tick lab.motionTick lab.watched ∅
       = Returned (fleet.with_recorder (Some rec')
                     (fleet.with_stream (Some s1) lab.watched), cs', eff)
       /\ loop.startFailures eff = []
       /\ sinkFrames (loop.recorderEffects eff) = [frame 1; frame 2]
       /\ isRecording rec' = true.
Proof.
  split; [reflexivity|].
  pose (res := stream.ReadFrame (Mat:=Img) (loop.reading lab.motionTick)
                 {| camera.Name := "garage"; camera.URL := "http://cam/video";
                    camera.capture := true; camera.isOpen := true;
                    camera.frameCount := 1 |}).
  assert (Hread : stream.ReadFrame (loop.reading lab.motionTick)
                    {| camera.Name := "garage"; camera.URL := "http://cam/video";
                       camera.capture := true; camera.isOpen := true;
                       camera.frameCount := 1 |}
                  = (fst (fst res), inl (frame 2), snd res))
    by (vm_compute; reflexivity).
  assert (Hrb : preBuffer armed
                = None :: (replicate 28 None ++ [Some (frame 1)]))
    by (vm_compute; reflexivity).
  destruct (motion_tick_starts_with_the_triggering_frame lab.motionTick
              lab.watched ∅ _ _ _ _ armed _ _
              {| detector.Timestamp := 5; detector.Area := 900;
                 detector.Frame := frame 2 |}
              img_has_size eq_refl Hread eq_refl eq_refl Hrb eq_refl)
    as (rec' & cs' & eff & Htick & _ & Hok).
  - eexists. reflexivity.
  - reflexivity.
  - now apply watched_open.
  - destruct (Hok eq_refl eq_refl) as (Hsf & Hsink & _ & Hrec & _).
    exists rec', cs', eff, (fst (fst res)).
    split; [exact Htick|]. split; [exact Hsf|]. split.
    + rewrite Hsink. vm_compute. reflexivity.
    + rewrite Hrec. vm_compute. reflexivity.
Defined.

(** The running garage camera, a name that is not configured, and a
    stream that does not open. *)
Lemma declines_witness :
  fleet.StartCamera "garage" lab.settings lab.settings stream.OpenedReady
    testbed.fleet
  = Returned (testbed.fleet, [], Some (fleet.ErrAlreadyRunning "garage"))
  /\ fleet.StartCamera "attic" lab.settings lab.settings stream.OpenedReady
       testbed.fleet
     = Returned (testbed.fleet, [], Some (fleet.ErrNotInConfiguration "attic"))
  /\ exists e err,
       fleet.StartCamera "porch" lab.settings lab.settings stream.OpenError
         testbed.fleet
       = Returned (testbed.fleet, e, Some (fleet.ErrStream err)).
Proof.
  split; [|split].
  - destruct (StartCamera_declines "garage" lab.settings lab.settings
                stream.OpenedReady testbed.fleet) as (Hrun & _).
    apply (Hrun 1%positive (monitorOf "garage" true)); vm_compute; reflexivity.
  - destruct (StartCamera_declines "attic" lab.settings lab.settings
                stream.OpenedReady testbed.fleet) as (_ & Hcfg & _).
    apply Hcfg; [left; vm_compute|]; reflexivity.
  - destruct (StartCamera_declines "porch" lab.settings lab.settings
                stream.OpenError testbed.fleet) as (_ & _ & Hopen).
    destruct (Hopen (or_intror (ex_intro _ 2%positive
                       (ex_intro _ (monitorOf "porch" false)
                          (conj eq_refl (conj eq_refl eq_refl)))))
                lab.porchCfg eq_refl) as (e & err & Hstart & _);
      [discriminate|].
    now exists e, err.
Defined.

(** Motion detection is switched off while the garage camera records. *)
Lemma motion_switch_witness :
  exists m' e monitor' rec',
    fleet.DisableMotionDetection "garage" lab.filming = Returned (m', e, None)
    /\ surveillance.store m' !! 1%positive = Some monitor'
    /\ surveillance.MotionDetectEnabled monitor' = false
    /\ surveillance.recorder monitor' = Some rec'
    /\ isRecording rec' = false
    /\ exists m2,
         fleet.EnableMotionDetection "garage" m'
         = Returned (m2, [fleet.LogMotionEnabled "garage"], None).
Proof.
  destruct (DisableMotionDetection_stops_the_recording "garage" lab.filming)
    as (_ & _ & Hon).
  destruct (Hon 1%positive (fleet.with_recorder (Some (started armed)) lab.watched)
              (started armed)) as (Hdis & Hidle & _ & Hen);
    try (vm_compute; reflexivity).
  eexists _, _, _, _. split; [exact Hdis|].
  split; [apply lookup_insert_eq|]. split; [reflexivity|].
  split; [reflexivity|]. split; [exact Hidle|].
  eexists. exact Hen.
Defined.


End MoreExamples.
